(** * Multi-robot collision avoidance: a shallow embedding

    Embedding of [src/robot_programming/multi_robot_collision_avoidance.py]
    (class [MultiRobotCollisionAvoidance]).

    Conventions.
    - Python floats are read as real numbers ([R]); [np.sqrt] is [sqrt].
    - The instance dictionaries ([self.robots], [self.robot_positions],
      [self.robot_paths], [self.collision_objects]) are insertion-ordered
      dictionaries: assigning to a present key keeps its place, assigning to
      a fresh key appends it.
    - [time.time()] and [np.random.uniform] are inputs of the program: the
      n-th reading of the clock is [time_time n], the n-th draw is
      [random_uniform n lo hi]; the system state counts the readings taken.
    - A [KeyError] is the only exception the modelled code can raise; state
      changes made before it are kept, as in Python.
    - Log calls and formatted identifier strings carry no behaviour: an
      identifier built from a clock reading is represented by that reading. *)

From Stdlib Require Import Reals Lra Lia List String ZArith Bool Sorted.
Import ListNotations.

Local Open Scope string_scope.
Local Open Scope list_scope.
Local Open Scope R_scope.

(** ** Insertion-ordered dictionaries with string keys *)

Module Dict.
Section Def.
Context {V : Type}.

Definition t := list (string * V).

Definition empty : t := [].

Fixpoint get (d : t) (k : string) : option V :=
  match d with
  | [] => None
  | (k', v) :: rest => if String.eqb k k' then Some v else get rest k
  end.

(** [d[k] = v]: overwrite in place, or append a new key. *)
Fixpoint set (d : t) (k : string) (v : V) : t :=
  match d with
  | [] => [(k, v)]
  | (k', v') :: rest =>
      if String.eqb k k' then (k', v) :: rest else (k', v') :: set rest k v
  end.

Definition keys (d : t) : list string := map fst d.

Definition items (d : t) : list (string * V) := d.

Definition mem (d : t) (k : string) : bool :=
  match get d k with Some _ => true | None => false end.
End Def.
Arguments t : clear implicits.
End Dict.

(** ** Data model *)

Inductive RobotBrand := YASKAWA | ABB | UNKNOWN.

Inductive CollisionZone := SAFE | WARNING | DANGER | CRITICAL | BLOCKED.

Inductive RobotStatus :=
  IDLE | MOVING | WAITING | EMERGENCY_STOP | ERROR | COORDINATED.

Record RobotPosition := mkRobotPosition {
  x : R; y : R; z : R; rx : R; ry : R; rz : R; timestamp : R }.

Record CollisionObject := mkCollisionObject {
  object_id : string;
  co_position : R * R * R;
  dimensions : R * R * R;
  co_velocity : R * R * R;
  is_robot : bool;
  co_robot_id : string;
  confidence : R;
  co_timestamp : R }.

Record PathPoint := mkPathPoint {
  position : RobotPosition;
  velocity : R;
  acceleration : R;
  time_from_start : R;
  collision_risk : R }.

(** [path_id] is [(robot_id, reading)] for the string PATH_<robot_id>_<ms>. *)
Record RobotPath := mkRobotPath {
  path_robot_id : string;
  path_id : string * R;
  points : list PathPoint;
  total_duration : R;
  priority : Z;
  is_active : bool;
  start_time : R }.

(** [event_id] is the clock reading the string COL_<ms> is formatted from. *)
Record CollisionEvent := mkCollisionEvent {
  event_id : R;
  ev_timestamp : R;
  robot1_id : string;
  robot2_id : string;
  collision_point : R * R * R;
  time_to_collision : R;
  severity : CollisionZone;
  avoidance_action : string }.

(** The per-robot dictionary stored in [self.robots]. *)
Record RobotInfo := mkRobotInfo {
  info_robot_id : string;
  brand : RobotBrand;
  ip_address : string;
  workspace_area : R * R * R * R;
  status : RobotStatus;
  last_update : R;
  connection_active : bool;
  reach_radius : R }.

Record Stats := mkStats {
  total_collisions_avoided : Z;
  path_replanning_events : Z;
  average_detection_time_ms : R;
  robots_coordinated : Z;
  safety_violations : Z }.

Record System := mkSystem {
  robots : Dict.t RobotInfo;
  robot_positions : Dict.t RobotPosition;
  robot_paths : Dict.t (option RobotPath);
  collision_objects : Dict.t CollisionObject;
  collision_events : list CollisionEvent;
  stats : Stats;
  clock_reads : nat;
  random_draws : nat }.

(** [self.safety_margin], set once in [__init__] and never assigned again. *)
Definition safety_margin : R := 200.

Definition init : System :=
  mkSystem Dict.empty Dict.empty Dict.empty Dict.empty []
           (mkStats 0 0 0 0 0) 0 0.

(** Field updates. *)

Definition with_robots (s : System) d :=
  mkSystem d (robot_positions s) (robot_paths s) (collision_objects s)
           (collision_events s) (stats s) (clock_reads s) (random_draws s).

Definition with_robot_positions (s : System) d :=
  mkSystem (robots s) d (robot_paths s) (collision_objects s)
           (collision_events s) (stats s) (clock_reads s) (random_draws s).

Definition with_robot_paths (s : System) d :=
  mkSystem (robots s) (robot_positions s) d (collision_objects s)
           (collision_events s) (stats s) (clock_reads s) (random_draws s).

Definition with_collision_objects (s : System) d :=
  mkSystem (robots s) (robot_positions s) (robot_paths s) d
           (collision_events s) (stats s) (clock_reads s) (random_draws s).

Definition with_collision_events (s : System) l :=
  mkSystem (robots s) (robot_positions s) (robot_paths s) (collision_objects s)
           l (stats s) (clock_reads s) (random_draws s).

Definition with_stats (s : System) st :=
  mkSystem (robots s) (robot_positions s) (robot_paths s) (collision_objects s)
           (collision_events s) st (clock_reads s) (random_draws s).

Definition with_clock_reads (s : System) n :=
  mkSystem (robots s) (robot_positions s) (robot_paths s) (collision_objects s)
           (collision_events s) (stats s) n (random_draws s).

Definition with_random_draws (s : System) n :=
  mkSystem (robots s) (robot_positions s) (robot_paths s) (collision_objects s)
           (collision_events s) (stats s) (clock_reads s) n.

Definition with_status (i : RobotInfo) (st : RobotStatus) :=
  mkRobotInfo (info_robot_id i) (brand i) (ip_address i) (workspace_area i)
              st (last_update i) (connection_active i) (reach_radius i).

Definition with_connection_active (i : RobotInfo) (b : bool) :=
  mkRobotInfo (info_robot_id i) (brand i) (ip_address i) (workspace_area i)
              (status i) (last_update i) b (reach_radius i).

(** ** State and exception monad *)

Inductive Exn := KeyError.

Inductive Result (A : Type) :=
| Ok (a : A)
| Raised (e : Exn).
Arguments Ok {A} a.
Arguments Raised {A} e.

Definition M (A : Type) := System -> Result A * System.

Definition ret {A} (a : A) : M A := fun s => (Ok a, s).

Definition bind {A B} (m : M A) (f : A -> M B) : M B :=
  fun s => match m s with
           | (Ok a, s') => f a s'
           | (Raised e, s') => (Raised e, s')
           end.

Definition raise {A} (e : Exn) : M A := fun s => (Raised e, s).

Definition gets {A} (f : System -> A) : M A := fun s => (Ok (f s), s).

Definition modify (f : System -> System) : M unit := fun s => (Ok tt, f s).

(** [d[k]] as an expression: raises [KeyError] on a missing key. *)
Definition lookup {V} (d : System -> Dict.t V) (k : string) : M V :=
  fun s => match Dict.get (d s) k with
           | Some v => (Ok v, s)
           | None => (Raised KeyError, s)
           end.

(** [try: m  except Exception: handler]. *)
Definition try_except {A} (m : M A) (handler : Exn -> M A) : M A :=
  fun s => match m s with
           | (Ok a, s') => (Ok a, s')
           | (Raised e, s') => handler e s'
           end.

Declare Scope monad_scope.
Delimit Scope monad_scope with monad.
Notation "x <- m ;; k" := (bind m (fun x => k))
  (at level 61, m at next level, right associativity) : monad_scope.
Notation "m ;;; k" := (bind m (fun _ => k))
  (at level 61, right associativity) : monad_scope.
Local Open Scope monad_scope.

Fixpoint for_each {A} (l : list A) (body : A -> M unit) : M unit :=
  match l with
  | [] => ret tt
  | a :: rest => body a ;;; for_each rest body
  end.

(** [for i in range(len(l)): for j in range(i + 1, len(l)): body l[i] l[j]]. *)
Fixpoint for_pairs {A} (l : list A) (body : A -> A -> M unit) : M unit :=
  match l with
  | [] => ret tt
  | a :: rest => for_each rest (body a) ;;; for_pairs rest body
  end.

(** [enumerate]. *)
Fixpoint enumerate_from {A} (i : nat) (l : list A) : list (nat * A) :=
  match l with
  | [] => []
  | a :: rest => (i, a) :: enumerate_from (S i) rest
  end.

Definition enumerate {A} (l : list A) := enumerate_from 0 l.

(** ** The program *)

Section Program.

(** The n-th value returned by [time.time()]. *)
Variable time_time : nat -> R.
(** The n-th value returned by [np.random.uniform(lo, hi)]. *)
Variable random_uniform : nat -> R -> R -> R.

Definition read_clock : M R :=
  fun s => (Ok (time_time (clock_reads s)),
            with_clock_reads s (S (clock_reads s))).

Definition draw_uniform (lo hi : R) : M R :=
  fun s => (Ok (random_uniform (random_draws s) lo hi),
            with_random_draws s (S (random_draws s))).

(** *** Registry *)

Definition _calculate_reach_radius (b : RobotBrand) : R :=
  match b with
  | YASKAWA => 1500
  | ABB => 1600
  | UNKNOWN => 1200
  end.

(** Both branches on [SOCKET_AVAILABLE] set the flag and return [True]. *)
Definition _connect_robot (robot_id : string) : M bool :=
  try_except
    (robot_info <- lookup robots robot_id ;;
     modify (fun s => with_robots s
               (Dict.set (robots s) robot_id
                         (with_connection_active robot_info true))) ;;;
     ret true)
    (fun _ => ret false).

Definition register_robot (robot_id : string) (b : RobotBrand)
    (ip : string) (workspace : R * R * R * R) : M bool :=
  try_except
    (t_info <- read_clock ;;
     let robot_info :=
       mkRobotInfo robot_id b ip workspace IDLE t_info false
                   (_calculate_reach_radius b) in
     modify (fun s => with_robots s (Dict.set (robots s) robot_id robot_info)) ;;;
     t_pos <- read_clock ;;
     modify (fun s => with_robot_positions s
               (Dict.set (robot_positions s) robot_id
                         (mkRobotPosition 0 0 0 0 0 0 t_pos))) ;;;
     modify (fun s => with_robot_paths s
               (Dict.set (robot_paths s) robot_id None)) ;;;
     connection_success <- _connect_robot robot_id ;;
     ret connection_success)
    (fun _ => ret false).

(** The assignment [self.robot_positions[robot_id] = position] of the
    position monitoring loop. *)
Definition store_position (robot_id : string) (p : RobotPosition) : M unit :=
  modify (fun s => with_robot_positions s
            (Dict.set (robot_positions s) robot_id p)).

Definition _get_robot_priority (robot_id : string) : M Z :=
  info <- lookup robots robot_id ;;
  match brand info with
  | YASKAWA => ret 2%Z
  | ABB => ret 1%Z
  | UNKNOWN => ret 0%Z
  end.

(** *** Collision detector *)

Definition _update_collision_objects : M unit :=
  snapshot <- gets (fun s => Dict.items (robot_positions s)) ;;
  for_each snapshot (fun '(robot_id, p) =>
    info <- lookup robots robot_id ;;
    let reach := reach_radius info in
    let collision_obj :=
      mkCollisionObject ("robot_" ++ robot_id)%string (x p, y p, z p)
                        (reach * 2, reach * 2, 2000) (0, 0, 0)
                        true robot_id 1 (timestamp p) in
    modify (fun s => with_collision_objects s
              (Dict.set (collision_objects s) ("robot_" ++ robot_id)%string
                        collision_obj))).

Definition distance_between (pos1 pos2 : RobotPosition) : R :=
  sqrt ((x pos1 - x pos2) ^ 2 + (y pos1 - y pos2) ^ 2 + (z pos1 - z pos2) ^ 2).

(** The risk formula of [_check_robot_collision], on the two numbers it
    is computed from. *)
Definition collision_risk_at (distance combined_reach : R) : R :=
  if Rle_dec distance combined_reach
  then 1 - (distance / combined_reach) ^ 2
  else 0.

Definition _check_robot_collision (robot1_id robot2_id : string) : M R :=
  pos1 <- lookup robot_positions robot1_id ;;
  pos2 <- lookup robot_positions robot2_id ;;
  let distance := distance_between pos1 pos2 in
  info1 <- lookup robots robot1_id ;;
  info2 <- lookup robots robot2_id ;;
  let combined_reach := reach_radius info1 + reach_radius info2 + safety_margin in
  ret (collision_risk_at distance combined_reach).

Definition _classify_collision_zone (risk : R) : CollisionZone :=
  if Rge_dec risk 0.8 then CRITICAL
  else if Rge_dec risk 0.5 then DANGER
  else if Rge_dec risk 0.2 then WARNING
  else SAFE.

Definition _calculate_collision_point (robot1_id robot2_id : string)
    : M (R * R * R) :=
  pos1 <- lookup robot_positions robot1_id ;;
  pos2 <- lookup robot_positions robot2_id ;;
  ret ((x pos1 + x pos2) / 2, (y pos1 + y pos2) / 2, (z pos1 + z pos2) / 2).

Definition _estimate_time_to_collision (robot1_id robot2_id : string) : M R :=
  draw_uniform 1 5.

(** *** Avoidance policy executor *)

Definition set_status (robot_id : string) (st : RobotStatus) : M unit :=
  info <- lookup robots robot_id ;;
  modify (fun s => with_robots s
            (Dict.set (robots s) robot_id (with_status info st))).

Definition _emergency_stop_robot (robot_id : string) : M unit :=
  set_status robot_id EMERGENCY_STOP.

Definition _stop_robot (robot_id : string) : M unit :=
  set_status robot_id WAITING.

Definition _reduce_robot_speed (robot_id : string) (factor : R) : M unit :=
  ret tt.

Definition _execute_collision_avoidance (event : CollisionEvent) : M string :=
  match severity event with
  | CRITICAL =>
      _emergency_stop_robot (robot1_id event) ;;;
      _emergency_stop_robot (robot2_id event) ;;;
      ret "emergency_stop_both"
  | DANGER =>
      priority1 <- _get_robot_priority (robot1_id event) ;;
      priority2 <- _get_robot_priority (robot2_id event) ;;
      if (priority1 >? priority2)%Z
      then _stop_robot (robot2_id event) ;;; ret ("stop_" ++ robot2_id event)%string
      else _stop_robot (robot1_id event) ;;; ret ("stop_" ++ robot1_id event)%string
  | WARNING =>
      _reduce_robot_speed (robot1_id event) 0.5 ;;;
      _reduce_robot_speed (robot2_id event) 0.5 ;;;
      ret "slow_down_both"
  | _ => ret "monitor"
  end.

Definition with_avoidance_action (e : CollisionEvent) (a : string) :=
  mkCollisionEvent (event_id e) (ev_timestamp e) (robot1_id e) (robot2_id e)
                   (collision_point e) (time_to_collision e) (severity e) a.

Definition bump_collisions_avoided (st : Stats) :=
  mkStats (total_collisions_avoided st + 1) (path_replanning_events st)
          (average_detection_time_ms st) (robots_coordinated st)
          (safety_violations st).

Definition _handle_collision_risk (robot1_id robot2_id : string) (risk : R)
    : M unit :=
  let collision_zone := _classify_collision_zone risk in
  t_id <- read_clock ;;
  t_stamp <- read_clock ;;
  point <- _calculate_collision_point robot1_id robot2_id ;;
  ttc <- _estimate_time_to_collision robot1_id robot2_id ;;
  let event :=
    mkCollisionEvent t_id t_stamp robot1_id robot2_id point ttc
                     collision_zone "" in
  action <- _execute_collision_avoidance event ;;
  let event := with_avoidance_action event action in
  modify (fun s => with_collision_events s (collision_events s ++ [event])) ;;;
  modify (fun s => with_stats s (bump_collisions_avoided (stats s))).

Definition _update_detection_time_stats (detection_time_ms : R) : M unit :=
  modify (fun s =>
    let st := stats s in
    with_stats s
      (mkStats (total_collisions_avoided st) (path_replanning_events st)
               (average_detection_time_ms st * 0.9 + detection_time_ms * 0.1)
               (robots_coordinated st) (safety_violations st))).

(** The pair scan of one detection pass. *)
Definition scan_pairs (robot_ids : list string) : M unit :=
  for_pairs robot_ids (fun robot1_id robot2_id =>
    risk <- _check_robot_collision robot1_id robot2_id ;;
    if Rgt_dec risk 0.1
    then _handle_collision_risk robot1_id robot2_id risk
    else ret tt).

(** One iteration of the [while] loop of [_collision_detection_loop]
    (the body of its [try]; the handler only logs and sleeps). *)
Definition collision_detection_pass : M unit :=
  try_except
    (start <- read_clock ;;
     _update_collision_objects ;;;
     robot_ids <- gets (fun s => Dict.keys (robots s)) ;;
     scan_pairs robot_ids ;;;
     stop <- read_clock ;;
     _update_detection_time_stats ((stop - start) * 1000))
    (fun _ => ret tt).

(** *** Path planner and coordinator *)

Fixpoint map_m {A B} (f : A -> M B) (l : list A) : M (list B) :=
  match l with
  | [] => ret []
  | a :: rest => b <- f a ;; bs <- map_m f rest ;; ret (b :: bs)
  end.

(** The body of the [for i in range(10)] loop of [_generate_safe_path]. *)
Definition sample_point (current_pos : RobotPosition) (i : nat) : M PathPoint :=
  let progress := INR i / 9 in
  t <- read_clock ;;
  ret (mkPathPoint
         (mkRobotPosition (x current_pos + progress * 100)
                          (y current_pos + progress * 100)
                          (z current_pos) (rx current_pos) (ry current_pos)
                          (rz current_pos) t)
         500 100 (progress * 2) 0).

Definition _generate_safe_path (robot_id : string) : M RobotPath :=
  current_pos <- lookup robot_positions robot_id ;;
  path_points <- map_m (sample_point current_pos) (seq 0 10) ;;
  t_id <- read_clock ;;
  prio <- _get_robot_priority robot_id ;;
  t_start <- read_clock ;;
  ret (mkRobotPath robot_id (robot_id, t_id) path_points 2 prio true t_start).

Definition _send_path_to_robot (robot_id : string) (path : RobotPath) : M unit :=
  ret tt.

Definition bump_replanning_events (st : Stats) :=
  mkStats (total_collisions_avoided st) (path_replanning_events st + 1)
          (average_detection_time_ms st) (robots_coordinated st)
          (safety_violations st).

(** A [RobotPath] object is always truthy, so [if new_path:] is taken. *)
Definition _replan_robot_path (robot_id : string) : M unit :=
  new_path <- _generate_safe_path robot_id ;;
  modify (fun s => with_robot_paths s
            (Dict.set (robot_paths s) robot_id (Some new_path))) ;;;
  _send_path_to_robot robot_id new_path ;;;
  modify (fun s => with_stats s (bump_replanning_events (stats s))).

Definition delay_point (delay_seconds : R) (p : PathPoint) : PathPoint :=
  mkPathPoint (position p) (velocity p) (acceleration p)
              (time_from_start p + delay_seconds) (collision_risk p).

(** [path.start_time += d; for point in path.points: point.time_from_start += d]. *)
Definition delay_path (delay_seconds : R) (path : RobotPath) : RobotPath :=
  mkRobotPath (path_robot_id path) (path_id path)
              (map (delay_point delay_seconds) (points path))
              (total_duration path) (priority path) (is_active path)
              (start_time path + delay_seconds).

Definition _delay_robot_start (robot_id : string) (delay_seconds : R) : M unit :=
  path <- lookup robot_paths robot_id ;;
  match path with
  | Some p =>
      modify (fun s => with_robot_paths s
                (Dict.set (robot_paths s) robot_id
                          (Some (delay_path delay_seconds p))))
  | None => ret tt
  end.

Definition _adjust_path_timing (robot1_id robot2_id : string)
    (intersection : bool) : M unit :=
  priority1 <- _get_robot_priority robot1_id ;;
  priority2 <- _get_robot_priority robot2_id ;;
  if (priority1 >? priority2)%Z
  then _delay_robot_start robot2_id 1
  else _delay_robot_start robot1_id 1.

(** The loop of [_generate_coordinated_paths] over [enumerate(robot_ids)],
    with the local dictionary [paths] as accumulator. *)
Fixpoint coordinated_paths_loop (l : list (nat * string))
    (paths : Dict.t RobotPath) : M (Dict.t RobotPath) :=
  match l with
  | [] => ret paths
  | (i, robot_id) :: rest =>
      let start_delay := INR i * 2 in
      path <- _generate_safe_path robot_id ;;
      coordinated_paths_loop rest
        (Dict.set paths robot_id (delay_path start_delay path))
  end.

Definition _generate_coordinated_paths (robot_ids : list string)
    (task : string) : M (Dict.t RobotPath) :=
  coordinated_paths_loop (enumerate robot_ids) Dict.empty.

Definition add_robots_coordinated (n : Z) (st : Stats) :=
  mkStats (total_collisions_avoided st) (path_replanning_events st)
          (average_detection_time_ms st) (robots_coordinated st + n)
          (safety_violations st).

Definition mark_coordinated (robot_id : string) : M unit :=
  registered <- gets (fun s => Dict.mem (robots s) robot_id) ;;
  if registered : bool then set_status robot_id COORDINATED else ret tt.

Definition publish_path (entry : string * RobotPath) : M unit :=
  let '(robot_id, path) := entry in
  modify (fun s => with_robot_paths s
            (Dict.set (robot_paths s) robot_id (Some path))) ;;;
  _send_path_to_robot robot_id path.

Definition coordinate_robots (robot_ids : list string)
    (task_description : string) : M bool :=
  try_except
    (for_each robot_ids mark_coordinated ;;;
     coordinated_paths <- _generate_coordinated_paths robot_ids task_description ;;
     for_each (Dict.items coordinated_paths) publish_path ;;;
     modify (fun s => with_stats s
               (add_robots_coordinated (Z.of_nat (List.length robot_ids)) (stats s))) ;;;
     ret true)
    (fun _ => ret false).

(** The loop of [shutdown] over the registered robots. *)
Definition shutdown : M unit :=
  robot_ids <- gets (fun s => Dict.keys (robots s)) ;;
  for_each robot_ids _stop_robot.

End Program.

(** ** The program, continued *)

(** [self.joint_states] is written by the monitoring loop only and read by
    nothing; it is carried next to the system state. *)
Record JointState := mkJointState {
  js_robot_id : string;
  joint_positions : list R;
  joint_velocities : list R;
  js_timestamp : R }.

(** The dictionary returned by [get_collision_statistics]. *)
Record Statistics := mkStatistics {
  registered_robots : Z;
  active_robots : Z;
  report_total_collisions_avoided : Z;
  report_path_replanning_events : Z;
  report_average_detection_time_ms : R;
  report_robots_coordinated : Z;
  uptime_hours : R;
  report_safety_violations : Z;
  collision_objects_tracked : Z;
  active_paths : Z }.

Definition with_last_update (i : RobotInfo) (t : R) :=
  mkRobotInfo (info_robot_id i) (brand i) (ip_address i) (workspace_area i)
              (status i) t (connection_active i) (reach_radius i).

Section Loops.

Variable time_time : nat -> R.
Variable random_uniform : nat -> R -> R -> R.

(** *** Timing coordination of the active paths *)

(** The test in the inner loop of [_check_path_intersection]. *)
Definition points_conflict (point1 point2 : PathPoint) : bool :=
  let distance := distance_between (position point1) (position point2) in
  let time_diff := Rabs (time_from_start point1 - time_from_start point2) in
  if Rlt_dec distance safety_margin
  then if Rlt_dec time_diff 0.5 then true else false
  else false.

Definition _check_path_intersection (path1 path2 : RobotPath) : bool :=
  existsb (fun point1 => existsb (points_conflict point1) (points path2))
          (points path1).

Definition is_entry_active (entry : option RobotPath) : bool :=
  match entry with
  | Some path => is_active path
  | None => false
  end.

(** [paths[robot_id]] in [_coordinate_path_timing].  The dictionary [paths]
    holds the very path objects stored in [self.robot_paths], and
    [_delay_robot_start] changes them in place: a path read from [paths]
    is the current content of [self.robot_paths] under the same key. *)
Definition active_path (robot_id : string) : M RobotPath :=
  entry <- lookup robot_paths robot_id ;;
  match entry with
  | Some path => ret path
  | None => raise KeyError
  end.

Definition _coordinate_path_timing (robot_ids : list string) : M unit :=
  for_pairs robot_ids (fun robot1_id robot2_id =>
    path1 <- active_path robot1_id ;;
    path2 <- active_path robot2_id ;;
    let intersection := _check_path_intersection path1 path2 in
    if intersection
    then _adjust_path_timing robot1_id robot2_id intersection
    else ret tt).

Definition _optimize_active_paths : M unit :=
  active <- gets (fun s =>
    filter (fun e => is_entry_active (snd e)) (Dict.items (robot_paths s))) ;;
  if (1 <? List.length active)%nat
  then _coordinate_path_timing (map fst active)
  else ret tt.

(** One iteration of the [while] loop of [_path_planning_loop], given the
    content of [self.replanning_queue]; returns what is left of the queue.
    The head is popped before anything can fail. *)
Definition path_planning_tick (replanning_queue : list string)
    : M (list string) :=
  match replanning_queue with
  | [] =>
      try_except _optimize_active_paths (fun _ => ret tt) ;;;
      ret []
  | robot_id :: rest =>
      try_except
        (_replan_robot_path time_time robot_id ;;; _optimize_active_paths)
        (fun _ => ret tt) ;;;
      ret rest
  end.

(** *** Position monitoring *)

Fixpoint draw_n (n : nat) (lo hi : R) : M (list R) :=
  match n with
  | O => ret []
  | S n' =>
      v <- draw_uniform random_uniform lo hi ;;
      vs <- draw_n n' lo hi ;;
      ret (v :: vs)
  end.

(** A [RobotPosition] object is always truthy: [if current_pos:] tests
    whether the key was present. *)
Definition _get_robot_position (robot_id : string) : M RobotPosition :=
  current <- gets (fun s => Dict.get (robot_positions s) robot_id) ;;
  new_xyz <-
    match current with
    | Some current_pos =>
        dx <- draw_uniform random_uniform (-10) 10 ;;
        dy <- draw_uniform random_uniform (-10) 10 ;;
        dz <- draw_uniform random_uniform (-5) 5 ;;
        ret (x current_pos + dx, y current_pos + dy, z current_pos + dz)
    | None =>
        info <- lookup robots robot_id ;;
        let '(min_x, min_y, max_x, max_y) := workspace_area info in
        ret ((min_x + max_x) / 2, (min_y + max_y) / 2, 500)
    end ;;
  let '(new_x, new_y, new_z) := new_xyz in
  new_rx <- draw_uniform random_uniform (-0.1) 0.1 ;;
  new_ry <- draw_uniform random_uniform (-0.1) 0.1 ;;
  new_rz <- draw_uniform random_uniform (-0.1) 0.1 ;;
  t <- read_clock time_time ;;
  ret (mkRobotPosition new_x new_y new_z new_rx new_ry new_rz t).

Definition _get_joint_state (robot_id : string) : M JointState :=
  positions <- draw_n 6 (-3.14) 3.14 ;;
  velocities <- draw_n 6 (-1) 1 ;;
  t <- read_clock time_time ;;
  ret (mkJointState robot_id positions velocities t).

(** The statements of the monitoring loop for one connected robot, up to
    the joint state that is stored next. *)
Definition monitor_robot (robot_id : string) : M JointState :=
  pos <- _get_robot_position robot_id ;;
  store_position robot_id pos ;;;
  _get_joint_state robot_id.

(** [self.robots[robot_id]['last_update'] = time.time()]. *)
Definition touch_last_update (robot_id : string) : M unit :=
  t <- read_clock time_time ;;
  info <- lookup robots robot_id ;;
  modify (fun s => with_robots s
            (Dict.set (robots s) robot_id (with_last_update info t))).

(** The [for] loop of [_position_monitoring_loop]; the joint states stored
    before an exception are kept. *)
Fixpoint monitoring_loop (robot_ids : list string)
    (joint_states : Dict.t JointState) (s : System)
    : Result unit * System * Dict.t JointState :=
  match robot_ids with
  | [] => (Ok tt, s, joint_states)
  | robot_id :: rest =>
      match lookup robots robot_id s with
      | (Raised e, s1) => (Raised e, s1, joint_states)
      | (Ok info, s1) =>
          if connection_active info
          then
            match monitor_robot robot_id s1 with
            | (Raised e, s2) => (Raised e, s2, joint_states)
            | (Ok joint_state, s2) =>
                let joint_states' := Dict.set joint_states robot_id joint_state in
                match touch_last_update robot_id s2 with
                | (Raised e, s3) => (Raised e, s3, joint_states')
                | (Ok _, s3) => monitoring_loop rest joint_states' s3
                end
            end
          else monitoring_loop rest joint_states s1
      end
  end.

(** One iteration of the [while] loop of [_position_monitoring_loop]. *)
Definition position_monitoring_pass (joint_states : Dict.t JointState)
    (s : System) : Result unit * System * Dict.t JointState :=
  monitoring_loop (Dict.keys (robots s)) joint_states s.

(** *** Statistics *)

(** [system_start_time] is [self.start_time], the clock reading taken by
    [__init__]. *)
Definition get_collision_statistics (system_start_time : R) : M Statistics :=
  now <- read_clock time_time ;;
  let uptime := (now - system_start_time) / 3600 in
  gets (fun s =>
    mkStatistics
      (Z.of_nat (List.length (robots s)))
      (Z.of_nat (List.length
         (filter (fun e => connection_active (snd e)) (Dict.items (robots s)))))
      (total_collisions_avoided (stats s))
      (path_replanning_events (stats s))
      (average_detection_time_ms (stats s))
      (robots_coordinated (stats s))
      uptime
      (safety_violations (stats s))
      (Z.of_nat (List.length (collision_objects s)))
      (Z.of_nat (List.length
         (filter (fun e => is_entry_active (snd e)) (Dict.items (robot_paths s)))))).

End Loops.

(** ** Notions used in the statements *)

Definition status_of (s : System) (robot_id : string) : option RobotStatus :=
  option_map status (Dict.get (robots s) robot_id).

Definition registered (s : System) (robot_id : string) : Prop :=
  Dict.mem (robots s) robot_id = true.

(** What registration establishes and every operation keeps: the three
    per-robot dictionaries have the same keys in the same order, without
    repetition, and every reach radius is the one of the robot's brand. *)
Definition registry_ok (s : System) : Prop :=
  NoDup (Dict.keys (robots s)) /\
  Dict.keys (robot_positions s) = Dict.keys (robots s) /\
  Dict.keys (robot_paths s) = Dict.keys (robots s) /\
  forall robot_id info,
    Dict.get (robots s) robot_id = Some info ->
    reach_radius info = _calculate_reach_radius (brand info).

(** The pairs [(l[i], l[j])], [i < j], in the order the nested loops of the
    detection pass visit them. *)
Fixpoint all_pairs {A} (l : list A) : list (A * A) :=
  match l with
  | [] => []
  | a :: rest => map (pair a) rest ++ all_pairs rest
  end.

Definition risk_of (s : System) (p : string * string) : Result R :=
  fst (_check_robot_collision (fst p) (snd p) s).

Definition emits (s : System) (p : string * string) : bool :=
  match risk_of s p with
  | Ok risk => if Rgt_dec risk 0.1 then true else false
  | Raised _ => false
  end.

Definition zone_of (s : System) (p : string * string) : CollisionZone :=
  match risk_of s p with
  | Ok risk => _classify_collision_zone risk
  | Raised _ => SAFE
  end.

(** The part of an event that does not come from the clock or from the
    random generator. *)
Definition event_key (e : CollisionEvent) : string * string * CollisionZone :=
  (robot1_id e, robot2_id e, severity e).

Definition expected_events (s : System) : list (string * string * CollisionZone) :=
  map (fun p => (fst p, snd p, zone_of s p))
      (filter (emits s) (all_pairs (Dict.keys (robots s)))).

Definition references (e : CollisionEvent) (robot_id : string) : Prop :=
  robot1_id e = robot_id \/ robot2_id e = robot_id.

Definition erase_status (d : Dict.t RobotInfo) : Dict.t RobotInfo :=
  map (fun e => (fst e, with_status (snd e) IDLE)) d.

(** Two states that differ at most in robot statuses, collision objects,
    event log, statistics and counters. *)
Definition same_geometry (s s' : System) : Prop :=
  robot_positions s' = robot_positions s /\
  robot_paths s' = robot_paths s /\
  erase_status (robots s') = erase_status (robots s).

(** The priority table of [_get_robot_priority]. *)
Definition brand_priority (b : RobotBrand) : Z :=
  match b with YASKAWA => 2 | ABB => 1 | UNKNOWN => 0 end.

(** A status reached from [before] by stop commands only. *)
Definition stopped_or_same (before after : option RobotStatus) : Prop :=
  after = before \/ after = Some WAITING \/ after = Some EMERGENCY_STOP.

(** The second state differs from the first in [self.robots] at most. *)
Definition only_robots_changed (s s' : System) : Prop :=
  robot_positions s' = robot_positions s /\
  robot_paths s' = robot_paths s /\
  collision_objects s' = collision_objects s /\
  collision_events s' = collision_events s /\
  stats s' = stats s /\
  clock_reads s' = clock_reads s /\
  random_draws s' = random_draws s.

(** The second state differs from the first in [self.collision_objects]
    at most. *)
Definition only_objects_changed (s s' : System) : Prop :=
  robots s' = robots s /\
  robot_positions s' = robot_positions s /\
  robot_paths s' = robot_paths s /\
  collision_events s' = collision_events s /\
  stats s' = stats s /\
  clock_reads s' = clock_reads s /\
  random_draws s' = random_draws s.

(** The second state differs from the first in the number of clock
    readings at most. *)
Definition only_clock_changed (s s' : System) : Prop :=
  robots s' = robots s /\
  robot_positions s' = robot_positions s /\
  robot_paths s' = robot_paths s /\
  collision_objects s' = collision_objects s /\
  collision_events s' = collision_events s /\
  stats s' = stats s /\
  random_draws s' = random_draws s.

(** The second state differs from the first in [self.robot_paths] at most. *)
Definition only_paths_changed (s s' : System) : Prop :=
  robots s' = robots s /\
  robot_positions s' = robot_positions s /\
  collision_objects s' = collision_objects s /\
  collision_events s' = collision_events s /\
  stats s' = stats s /\
  clock_reads s' = clock_reads s /\
  random_draws s' = random_draws s.

(** The second state differs from the first in the two counters of clock
    readings and random draws at most. *)
Definition only_counters_changed (s s' : System) : Prop :=
  robots s' = robots s /\
  robot_positions s' = robot_positions s /\
  robot_paths s' = robot_paths s /\
  collision_objects s' = collision_objects s /\
  collision_events s' = collision_events s /\
  stats s' = stats s.

(** The time-from-start values [_generate_safe_path] assigns. *)
Definition nominal_times : list R := map (fun i => INR i / 9 * 2) (seq 0 10).

Definition times (path : RobotPath) : list R :=
  map time_from_start (points path).

Definition strictly_increasing (l : list R) : Prop := StronglySorted Rlt l.

(** ** Example systems

    The set-up of the demonstration at the end of the source file: a
    Yaskawa and an ABB robot registered in that order, under a clock that
    advances between readings. *)

Definition demo_clock (n : nat) : R := 1000 + INR n / 1000.

Definition demo_uniform (n : nat) (lo hi : R) : R := lo.

Definition exec {A} (m : M A) (s : System) : System := snd (m s).

Definition demo_system : System :=
  exec (register_robot demo_clock "ABB_01" ABB "192.168.1.120"
          (1000, -2000, 4000, 2000))
       (exec (register_robot demo_clock "YASKAWA_01" YASKAWA "192.168.1.110"
                (-2000, -2000, 2000, 2000))
             init).

(** Two robots of the same brand, hence of equal priority. *)
Definition twin_system : System :=
  exec (register_robot demo_clock "ROBOT_2" YASKAWA "192.168.1.112"
          (-2000, -2000, 2000, 2000))
       (exec (register_robot demo_clock "ROBOT_1" YASKAWA "192.168.1.111"
                (-2000, -2000, 2000, 2000))
             init).

(** The same two robots registered in the opposite order. *)
Definition reversed_system : System :=
  exec (register_robot demo_clock "ROBOT_1" YASKAWA "192.168.1.111"
          (-2000, -2000, 2000, 2000))
       (exec (register_robot demo_clock "ROBOT_2" YASKAWA "192.168.1.112"
                (-2000, -2000, 2000, 2000))
             init).

Definition danger_event : CollisionEvent :=
  mkCollisionEvent 1000 1000 "ROBOT_1" "ROBOT_2" (0, 0, 0) 1 DANGER "".

(** The demonstration robots 600 mm apart, off every axis: the ABB robot
    stands at (200, 400, 400). *)
Definition offset_system : System :=
  exec (store_position "ABB_01" (mkRobotPosition 200 400 400 0 0 0 1001))
       demo_system.

(** The demonstration robots 3000 mm apart (combined reach 3300 mm). *)
Definition grazing_system : System :=
  exec (store_position "ABB_01" (mkRobotPosition 3000 0 0 0 0 0 1001))
       demo_system.

(** The demonstration robots 10 m apart, the Yaskawa robot stopped. *)
Definition waiting_system : System :=
  exec (_stop_robot "YASKAWA_01")
       (exec (store_position "ABB_01" (mkRobotPosition 10000 0 0 0 0 0 1001))
             demo_system).

(** The demonstration system after a replanning of the ABB robot's path. *)
Definition replanned_system : System :=
  exec (_replan_robot_path demo_clock "ABB_01") demo_system.

(** The demonstration system after a replanning of both robots' paths:
    two active paths, as [_optimize_active_paths] finds them in the
    planning loop. *)
Definition planned_system : System :=
  exec (_replan_robot_path demo_clock "YASKAWA_01") replanned_system.

(** ** Histories

    The entry points of the class and the iterations of its three loops, and
    the states they lead to from a freshly constructed system.  A tick of
    the planning loop is given the content of the replanning queue. *)

Inductive Call :=
| call_register_robot (robot_id : string) (b : RobotBrand) (ip : string)
                      (workspace : R * R * R * R)
| call_coordinate_robots (robot_ids : list string) (task : string)
| call_get_collision_statistics (system_start_time : R)
| call_shutdown
| tick_position_monitoring
| tick_collision_detection
| tick_path_planning (replanning_queue : list string).

(** The system state together with [self.joint_states]. *)
Definition World := (System * Dict.t JointState)%type.

Definition step (time_time : nat -> R) (random_uniform : nat -> R -> R -> R)
    (w : World) (c : Call) : World :=
  let '(s, joint_states) := w in
  match c with
  | call_register_robot robot_id b ip workspace =>
      (exec (register_robot time_time robot_id b ip workspace) s, joint_states)
  | call_coordinate_robots robot_ids task =>
      (exec (coordinate_robots time_time robot_ids task) s, joint_states)
  | call_get_collision_statistics t0 =>
      (exec (get_collision_statistics time_time t0) s, joint_states)
  | call_shutdown => (exec shutdown s, joint_states)
  | tick_position_monitoring =>
      let '(_, s', joint_states') :=
        position_monitoring_pass time_time random_uniform joint_states s in
      (s', joint_states')
  | tick_collision_detection =>
      (exec (collision_detection_pass time_time random_uniform) s, joint_states)
  | tick_path_planning replanning_queue =>
      (exec (path_planning_tick time_time replanning_queue) s, joint_states)
  end.

Definition run_calls (time_time : nat -> R)
    (random_uniform : nat -> R -> R -> R) (calls : list Call) : World :=
  fold_left (step time_time random_uniform) calls (init, Dict.empty).

(** What holds of a path stored for [robot_id]. *)
Definition path_ok (s : System) (robot_id : string) (p : RobotPath) : Prop :=
  path_robot_id p = robot_id /\
  is_active p = true /\
  total_duration p = 2 /\
  (exists k : nat, times p = map (fun t => t + INR k) nominal_times) /\
  exists info,
    Dict.get (robots s) robot_id = Some info /\
    priority p = brand_priority (brand info).

(** What holds of a logged event. *)
Definition event_ok (s : System) (e : CollisionEvent) : Prop :=
  registered s (robot1_id e) /\ registered s (robot2_id e) /\
  robot1_id e <> robot2_id e.

Definition system_invariant (s : System) : Prop :=
  registry_ok s /\
  (forall id info,
     Dict.get (robots s) id = Some info ->
     info_robot_id info = id /\ connection_active info = true) /\
  total_collisions_avoided (stats s)
    = Z.of_nat (List.length (collision_events s)) /\
  (forall e, In e (collision_events s) -> event_ok s e) /\
  (forall id p, Dict.get (robot_paths s) id = Some (Some p) -> path_ok s id p).

(** A short history: the two demonstration robots are registered and the
    planning loop serves one request for the ABB robot. *)
Definition demo_history : list Call :=
  [ call_register_robot "YASKAWA_01" YASKAWA "192.168.1.110"
      (-2000, -2000, 2000, 2000);
    call_register_robot "ABB_01" ABB "192.168.1.120" (1000, -2000, 4000, 2000);
    tick_path_planning ["ABB_01"] ].

(** * Properties *)

(** ** Dictionaries *)

Lemma get_set_same {V} (d : Dict.t V) k v : Dict.get (Dict.set d k v) k = Some v.
Proof.
  induction d as [|[k' v'] d IH]; simpl.
  - now rewrite String.eqb_refl.
  - destruct (String.eqb k k') eqn:E; simpl; rewrite ?E; auto.
Qed.

Lemma get_set_other {V} (d : Dict.t V) k k' v :
  k <> k' -> Dict.get (Dict.set d k v) k' = Dict.get d k'.
Proof.
  intros Hne. induction d as [|[k0 v0] d IH]; simpl.
  - apply String.eqb_neq in Hne. rewrite String.eqb_sym in Hne. now rewrite Hne.
  - destruct (String.eqb k k0) eqn:E; simpl.
    + apply String.eqb_eq in E; subst k0.
      destruct (String.eqb k' k) eqn:E'; auto.
      apply String.eqb_eq in E'. congruence.
    + now rewrite IH.
Qed.

Lemma get_None_keys {V} (d : Dict.t V) k :
  Dict.get d k = None <-> ~ In k (Dict.keys d).
Proof.
  induction d as [|[k' v'] d IH]; simpl.
  - tauto.
  - destruct (String.eqb k k') eqn:E.
    + apply String.eqb_eq in E. split; [discriminate | intros H; exfalso; auto].
    + apply String.eqb_neq in E. rewrite IH. split.
      * intros H [H1|H1]; congruence.
      * tauto.
Qed.

Lemma get_Some_keys {V} (d : Dict.t V) k :
  In k (Dict.keys d) <-> exists v, Dict.get d k = Some v.
Proof.
  destruct (Dict.get d k) eqn:E.
  - split; [eauto|]. intros _.
    destruct (in_dec string_dec k (Dict.keys d)) as [H|H]; auto.
    apply get_None_keys in H. congruence.
  - split; [|intros [v H]; discriminate].
    intros H. apply get_None_keys in E. contradiction.
Qed.

Lemma keys_set_present {V} (d : Dict.t V) k v :
  In k (Dict.keys d) -> Dict.keys (Dict.set d k v) = Dict.keys d.
Proof.
  induction d as [|[k' v'] d IH]; simpl; [tauto|].
  intros H. destruct (String.eqb k k') eqn:E; simpl; auto.
  apply String.eqb_neq in E. f_equal. apply IH.
  destruct H; [congruence | assumption].
Qed.

Lemma keys_set_fresh {V} (d : Dict.t V) k v :
  ~ In k (Dict.keys d) -> Dict.keys (Dict.set d k v) = Dict.keys d ++ [k].
Proof.
  induction d as [|[k' v'] d IH]; simpl; auto.
  intros H. destruct (String.eqb k k') eqn:E; simpl.
  - apply String.eqb_eq in E. exfalso; auto.
  - f_equal. apply IH. tauto.
Qed.

Lemma keys_set_same_keys {V W} (d : Dict.t V) (e : Dict.t W) k v w :
  Dict.keys d = Dict.keys e ->
  Dict.keys (Dict.set d k v) = Dict.keys (Dict.set e k w).
Proof.
  intros H. destruct (in_dec string_dec k (Dict.keys e)) as [Hin|Hin].
  - rewrite !keys_set_present; congruence.
  - rewrite !keys_set_fresh; congruence.
Qed.

Lemma NoDup_keys_set {V} (d : Dict.t V) k v :
  NoDup (Dict.keys d) -> NoDup (Dict.keys (Dict.set d k v)).
Proof.
  intros H. destruct (in_dec string_dec k (Dict.keys d)) as [Hin|Hin].
  - now rewrite keys_set_present.
  - rewrite keys_set_fresh by assumption.
    apply NoDup_app; [assumption | repeat constructor; simpl; tauto |].
    intros a Ha [Hb|[]]. congruence.
Qed.

Lemma set_set_same {V} (d : Dict.t V) k v w :
  Dict.set (Dict.set d k v) k w = Dict.set d k w.
Proof.
  induction d as [|[k' v'] d IH]; simpl.
  - now rewrite String.eqb_refl.
  - destruct (String.eqb k k') eqn:E; simpl; rewrite E; [reflexivity|].
    now rewrite IH.
Qed.

Lemma mem_true_iff {V} (d : Dict.t V) k :
  Dict.mem d k = true <-> In k (Dict.keys d).
Proof.
  unfold Dict.mem. rewrite get_Some_keys.
  destruct (Dict.get d k); split; eauto; try discriminate.
  intros [v H]; discriminate.
Qed.

(** ** The risk score and the zone classification *)

Ltac unfold_m :=
  unfold bind, ret, gets, modify, lookup, try_except, raise,
         read_clock, draw_uniform in *.

Lemma reach_radius_bounds b : 1200 <= _calculate_reach_radius b <= 1600.
Proof. destruct b; simpl; lra. Qed.

Lemma distance_between_nonneg p q : 0 <= distance_between p q.
Proof. apply sqrt_pos. Qed.

Lemma ratio_bounds d c : 0 <= d -> 0 < c -> d <= c -> 0 <= d / c <= 1.
Proof.
  intros Hd Hc Hdc. pose proof (Rinv_0_lt_compat c Hc) as Hi.
  unfold Rdiv. split.
  - apply Rmult_le_pos; lra.
  - replace 1 with (c * / c) by (field; lra).
    apply Rmult_le_compat_r; lra.
Qed.

Lemma collision_risk_at_far d c : 0 < c -> d >= c -> collision_risk_at d c = 0.
Proof.
  intros Hc Hd. unfold collision_risk_at.
  destruct (Rle_dec d c) as [Hle|Hgt]; [|reflexivity].
  assert (d = c) by lra. subst d.
  unfold Rdiv. rewrite Rinv_r by lra. lra.
Qed.

Lemma collision_risk_at_near d c :
  d < c -> collision_risk_at d c = 1 - (d / c) ^ 2.
Proof.
  intros Hd. unfold collision_risk_at.
  destruct (Rle_dec d c); [reflexivity | lra].
Qed.

Lemma collision_risk_at_near_or_eq d c :
  d <= c -> collision_risk_at d c = 1 - (d / c) ^ 2.
Proof.
  intros Hd. unfold collision_risk_at.
  destruct (Rle_dec d c); [reflexivity | lra].
Qed.

Lemma collision_risk_at_range d c :
  0 <= d -> 0 < c -> 0 <= collision_risk_at d c <= 1.
Proof.
  intros Hd Hc. unfold collision_risk_at.
  destruct (Rle_dec d c) as [Hle|Hgt]; [|lra].
  pose proof (ratio_bounds d c Hd Hc Hle). nra.
Qed.

Lemma collision_risk_at_antitone d d' c :
  0 <= d -> 0 < c -> d <= d' ->
  collision_risk_at d' c <= collision_risk_at d c.
Proof.
  intros Hd Hc Hdd.
  destruct (Rle_dec d' c) as [Hle|Hgt].
  - rewrite (collision_risk_at_near_or_eq d' c), (collision_risk_at_near_or_eq d c)
      by lra.
    pose proof (ratio_bounds d c Hd Hc ltac:(lra)).
    pose proof (ratio_bounds d' c ltac:(lra) Hc Hle).
    assert (d / c <= d' / c).
    { unfold Rdiv. apply Rmult_le_compat_r; [|lra].
      left. now apply Rinv_0_lt_compat. }
    nra.
  - unfold collision_risk_at at 1.
    destruct (Rle_dec d' c); [lra|].
    apply collision_risk_at_range; assumption.
Qed.

(** ** Registration *)

Lemma register_robot_run time_time robot_id b ip workspace s :
  register_robot time_time robot_id b ip workspace s =
  (Ok true,
   mkSystem
     (Dict.set (robots s) robot_id
        (mkRobotInfo robot_id b ip workspace IDLE (time_time (clock_reads s))
                     true (_calculate_reach_radius b)))
     (Dict.set (robot_positions s) robot_id
        (mkRobotPosition 0 0 0 0 0 0 (time_time (S (clock_reads s)))))
     (Dict.set (robot_paths s) robot_id None)
     (collision_objects s) (collision_events s) (stats s)
     (S (S (clock_reads s))) (random_draws s)).
Proof.
  unfold register_robot, _connect_robot. unfold_m. cbn.
  rewrite get_set_same. cbn. now rewrite set_set_same.
Qed.

Lemma registry_ok_init : registry_ok init.
Proof.
  repeat split; simpl; try constructor. intros ? ? H; discriminate.
Qed.

Lemma registry_ok_register time_time robot_id b ip workspace s :
  registry_ok s ->
  registry_ok (exec (register_robot time_time robot_id b ip workspace) s).
Proof.
  intros (Hnd & Hpos & Hpaths & Hreach).
  unfold exec. rewrite register_robot_run. cbn [snd].
  repeat split; cbn [robots robot_positions robot_paths].
  - now apply NoDup_keys_set.
  - now apply keys_set_same_keys.
  - now apply keys_set_same_keys.
  - intros id info. destruct (string_dec robot_id id) as [->|Hne].
    + rewrite get_set_same. intros [= <-]. reflexivity.
    + rewrite get_set_other by assumption. apply Hreach.
Qed.

Lemma registry_ok_demo_system : registry_ok demo_system.
Proof.
  unfold demo_system. do 2 apply registry_ok_register. apply registry_ok_init.
Qed.

Lemma registry_ok_positions s robot_id :
  registry_ok s -> registered s robot_id ->
  exists p, Dict.get (robot_positions s) robot_id = Some p.
Proof.
  intros (_ & Hpos & _) H. apply get_Some_keys. rewrite Hpos.
  now apply mem_true_iff.
Qed.

Lemma registered_info s robot_id :
  registered s robot_id <-> exists info, Dict.get (robots s) robot_id = Some info.
Proof.
  unfold registered. now rewrite mem_true_iff, get_Some_keys.
Qed.

Example demo_system_robots :
  Dict.keys (robots demo_system) = ["YASKAWA_01"; "ABB_01"].
Proof. reflexivity. Qed.

Lemma registry_ok_store_position s robot_id p :
  registry_ok s -> registered s robot_id ->
  registry_ok (exec (store_position robot_id p) s).
Proof.
  intros (Hnd & Hpos & Hpaths & Hreach) Hreg. unfold exec, store_position, modify.
  cbn [snd]. repeat split; cbn [robots robot_positions robot_paths with_robot_positions]; auto.
  rewrite keys_set_present; [assumption|].
  rewrite Hpos. now apply mem_true_iff.
Qed.

Lemma check_robot_collision_run s robot1_id robot2_id pos1 pos2 info1 info2 :
  Dict.get (robot_positions s) robot1_id = Some pos1 ->
  Dict.get (robot_positions s) robot2_id = Some pos2 ->
  Dict.get (robots s) robot1_id = Some info1 ->
  Dict.get (robots s) robot2_id = Some info2 ->
  _check_robot_collision robot1_id robot2_id s =
  (Ok (collision_risk_at (distance_between pos1 pos2)
         (reach_radius info1 + reach_radius info2 + safety_margin)), s).
Proof.
  intros H1 H2 H3 H4. unfold _check_robot_collision. unfold_m.
  now rewrite H1, H2, H3, H4.
Qed.

(** C1. For two registered robots the collision check returns risk 0 when
    the Euclidean distance between their positions, the square root of the
    sum of the squared differences in x, y and z, is at least the combined
    reach (the two brand reach radii plus the 200 mm margin), and
    [1 - (distance / combinedReach)^2] below it; the risk lies in [0,1] and
    does not increase when the distance grows. *)
Theorem C1_collision_risk s robot1_id robot2_id pos1 pos2 info1 info2 :
  registry_ok s ->
  Dict.get (robot_positions s) robot1_id = Some pos1 ->
  Dict.get (robot_positions s) robot2_id = Some pos2 ->
  Dict.get (robots s) robot1_id = Some info1 ->
  Dict.get (robots s) robot2_id = Some info2 ->
  let distance :=
    sqrt ((x pos1 - x pos2) ^ 2 + (y pos1 - y pos2) ^ 2 +
          (z pos1 - z pos2) ^ 2) in
  let combinedReach :=
    _calculate_reach_radius (brand info1) +
    _calculate_reach_radius (brand info2) + 200 in
  exists risk,
    _check_robot_collision robot1_id robot2_id s = (Ok risk, s) /\
    (distance >= combinedReach -> risk = 0) /\
    (distance < combinedReach -> risk = 1 - (distance / combinedReach) ^ 2) /\
    0 <= risk <= 1 /\
    forall pos1' pos2' s',
      robots s' = robots s ->
      Dict.get (robot_positions s') robot1_id = Some pos1' ->
      Dict.get (robot_positions s') robot2_id = Some pos2' ->
      distance <=
        sqrt ((x pos1' - x pos2') ^ 2 + (y pos1' - y pos2') ^ 2 +
              (z pos1' - z pos2') ^ 2) ->
      exists risk',
        _check_robot_collision robot1_id robot2_id s' = (Ok risk', s') /\
        risk' <= risk.
Proof.
  intros Hok H1 H2 H3 H4 distance combinedReach.
  destruct Hok as (_ & _ & _ & Hreach).
  pose proof (Hreach _ _ H3) as R1. pose proof (Hreach _ _ H4) as R2.
  pose proof (reach_radius_bounds (brand info1)).
  pose proof (reach_radius_bounds (brand info2)).
  assert (Hdist : distance_between pos1 pos2 = distance) by reflexivity.
  pose proof (distance_between_nonneg pos1 pos2) as Hd. rewrite Hdist in Hd.
  assert (Hc : 0 < combinedReach) by (unfold combinedReach; lra).
  exists (collision_risk_at distance combinedReach).
  assert (Hrun : forall t p1 p2,
             robots t = robots s ->
             Dict.get (robot_positions t) robot1_id = Some p1 ->
             Dict.get (robot_positions t) robot2_id = Some p2 ->
             _check_robot_collision robot1_id robot2_id t =
             (Ok (collision_risk_at (distance_between p1 p2) combinedReach), t)).
  { intros t p1 p2 Ht Hp1 Hp2.
    rewrite (check_robot_collision_run t _ _ p1 p2 info1 info2)
      by (rewrite ?Ht; assumption).
    rewrite R1, R2. reflexivity. }
  split; [rewrite <- Hdist; now apply Hrun|].
  split; [now apply collision_risk_at_far|].
  split; [now apply collision_risk_at_near|].
  split; [now apply collision_risk_at_range|].
  intros pos1' pos2' s' Hs' Hp1 Hp2 Hle.
  eexists. split; [apply (Hrun s' pos1' pos2'); assumption|].
  apply collision_risk_at_antitone; [assumption | assumption |].
  unfold distance_between. exact Hle.
Qed.

Lemma registry_ok_offset_system : registry_ok offset_system.
Proof.
  apply registry_ok_store_position; [apply registry_ok_demo_system | reflexivity].
Qed.

Lemma C1_collision_risk_witness :
  _check_robot_collision "YASKAWA_01" "ABB_01" offset_system
    = (Ok (1 - (600 / 3300) ^ 2), offset_system).
Proof.
  destruct (C1_collision_risk offset_system "YASKAWA_01" "ABB_01"
              (mkRobotPosition 0 0 0 0 0 0 (demo_clock 1))
              (mkRobotPosition 200 400 400 0 0 0 1001)
              (mkRobotInfo "YASKAWA_01" YASKAWA "192.168.1.110"
                 (-2000, -2000, 2000, 2000) IDLE (demo_clock 0) true 1500)
              (mkRobotInfo "ABB_01" ABB "192.168.1.120"
                 (1000, -2000, 4000, 2000) IDLE (demo_clock 2) true 1600)
              registry_ok_offset_system eq_refl eq_refl eq_refl eq_refl)
    as (risk & Hrun & _ & Hnear & _).
  cbn [x y z brand _calculate_reach_radius] in Hnear.
  replace ((0 - 200) ^ 2 + (0 - 400) ^ 2 + (0 - 400) ^ 2)
    with (Rsqr 600) in Hnear by (unfold Rsqr; ring).
  rewrite sqrt_Rsqr in Hnear by lra.
  replace (1500 + 1600 + 200) with 3300 in Hnear by ring.
  rewrite Hrun, Hnear by lra. reflexivity.
Defined.

(** C3. The zone of a risk value is CRITICAL exactly from 0.8 up, DANGER
    exactly on [0.5, 0.8), WARNING exactly on [0.2, 0.5) and SAFE exactly
    below 0.2: each of the boundaries 0.2, 0.5 and 0.8 belongs to the higher
    zone. *)
Theorem C3_zone_classification (r : R) :
  (_classify_collision_zone r = CRITICAL <-> r >= 0.8) /\
  (_classify_collision_zone r = DANGER <-> 0.5 <= r < 0.8) /\
  (_classify_collision_zone r = WARNING <-> 0.2 <= r < 0.5) /\
  (_classify_collision_zone r = SAFE <-> r < 0.2).
Proof.
  unfold _classify_collision_zone.
  destruct (Rge_dec r 0.8), (Rge_dec r 0.5), (Rge_dec r 0.2);
    repeat split; intros; try discriminate; try lra.
Qed.

Example zone_at_boundaries :
  _classify_collision_zone 0.8 = CRITICAL /\
  _classify_collision_zone 0.5 = DANGER /\
  _classify_collision_zone 0.2 = WARNING.
Proof.
  unfold _classify_collision_zone.
  destruct (Rge_dec 0.8 0.8), (Rge_dec 0.5 0.8), (Rge_dec 0.5 0.5),
    (Rge_dec 0.2 0.8), (Rge_dec 0.2 0.5), (Rge_dec 0.2 0.2);
    repeat split; lra.
Qed.

(** C6 (as amended). Registering an id that is already present does not
    fail: the call returns [True], the existing entry is overwritten in
    place by a fresh one (status Idle, the reach radius of the new brand),
    the position is reset to the origin and the path slot is cleared.  The
    registry keeps one entry per id, in the same order. *)
Theorem C6_register_overwrites time_time s robot_id b ip workspace :
  NoDup (Dict.keys (robots s)) ->
  registered s robot_id ->
  exists s',
    register_robot time_time robot_id b ip workspace s = (Ok true, s') /\
    Dict.get (robots s') robot_id =
      Some (mkRobotInfo robot_id b ip workspace IDLE
              (time_time (clock_reads s)) true (_calculate_reach_radius b)) /\
    Dict.get (robot_positions s') robot_id =
      Some (mkRobotPosition 0 0 0 0 0 0 (time_time (S (clock_reads s)))) /\
    Dict.get (robot_paths s') robot_id = Some None /\
    Dict.keys (robots s') = Dict.keys (robots s) /\
    NoDup (Dict.keys (robots s')) /\
    forall other, other <> robot_id ->
      Dict.get (robots s') other = Dict.get (robots s) other.
Proof.
  intros Hnd Hreg. eexists. split; [apply register_robot_run|].
  cbn [robots robot_positions robot_paths].
  rewrite !get_set_same.
  repeat split.
  - apply keys_set_present. now apply mem_true_iff.
  - now apply NoDup_keys_set.
  - intros other Hne. apply get_set_other. congruence.
Qed.

Lemma C6_register_overwrites_witness :
  exists s',
    register_robot demo_clock "YASKAWA_01" ABB "192.168.1.130"
      (0, 0, 1000, 1000) demo_system = (Ok true, s') /\
    Dict.keys (robots s') = ["YASKAWA_01"; "ABB_01"].
Proof.
  destruct (C6_register_overwrites demo_clock demo_system "YASKAWA_01" ABB
              "192.168.1.130" (0, 0, 1000, 1000))
    as (s' & Hrun & _ & _ & _ & Hkeys & _).
  - apply registry_ok_demo_system.
  - reflexivity.
  - exists s'. split; [exact Hrun | exact Hkeys].
Defined.

(** C6 as stated fails: registering the present id YASKAWA_01 again, now
    as an ABB robot, returns [True] and replaces the entry. *)
Lemma C6_counterexample :
  registered demo_system "YASKAWA_01" /\
  fst (register_robot demo_clock "YASKAWA_01" ABB "192.168.1.130"
         (0, 0, 1000, 1000) demo_system) = Ok true /\
  option_map brand (Dict.get (robots demo_system) "YASKAWA_01") = Some YASKAWA /\
  option_map brand
    (Dict.get
       (robots (exec (register_robot demo_clock "YASKAWA_01" ABB "192.168.1.130"
                        (0, 0, 1000, 1000)) demo_system))
       "YASKAWA_01") = Some ABB.
Proof. repeat split. Qed.

(** ** The avoidance policy executor *)

Lemma get_erase_status d k :
  Dict.get (erase_status d) k =
  option_map (fun i => with_status i IDLE) (Dict.get d k).
Proof.
  induction d as [|[k' i] d IH]; simpl; [reflexivity|].
  destruct (String.eqb k k'); auto.
Qed.

Lemma erase_status_set d k i st :
  Dict.get d k = Some i ->
  erase_status (Dict.set d k (with_status i st)) = erase_status d.
Proof.
  induction d as [|[k' i'] d IH]; simpl; [discriminate|].
  destruct (String.eqb k k') eqn:E; simpl.
  - intros [= ->]. reflexivity.
  - intros H. now rewrite IH.
Qed.

Lemma keys_erase_status d : Dict.keys (erase_status d) = Dict.keys d.
Proof. unfold Dict.keys, erase_status. rewrite map_map. reflexivity. Qed.

Lemma erase_status_get d d' k i :
  erase_status d' = erase_status d ->
  Dict.get d k = Some i ->
  exists i', Dict.get d' k = Some i' /\
             brand i' = brand i /\ reach_radius i' = reach_radius i.
Proof.
  intros He Hg. pose proof (get_erase_status d' k) as H'.
  rewrite He, get_erase_status, Hg in H'. simpl in H'.
  destruct (Dict.get d' k) as [i'|]; [|discriminate].
  exists i'. split; [reflexivity|]. simpl in H'.
  injection H' as _ Hb _ _ _ _ Hr. auto.
Qed.

Lemma erase_status_keys d d' :
  erase_status d' = erase_status d -> Dict.keys d' = Dict.keys d.
Proof. intros H. now rewrite <- (keys_erase_status d'), H, keys_erase_status. Qed.

Lemma set_status_run s robot_id st info :
  Dict.get (robots s) robot_id = Some info ->
  set_status robot_id st s =
  (Ok tt, with_robots s (Dict.set (robots s) robot_id (with_status info st))).
Proof. intros H. unfold set_status. unfold_m. now rewrite H. Qed.

Lemma get_robot_priority_run s robot_id info :
  Dict.get (robots s) robot_id = Some info ->
  _get_robot_priority robot_id s = (Ok (brand_priority (brand info)), s).
Proof.
  intros H. unfold _get_robot_priority. unfold_m. rewrite H.
  now destruct (brand info).
Qed.

Lemma get_robot_priority_missing s robot_id :
  Dict.get (robots s) robot_id = None ->
  _get_robot_priority robot_id s = (Raised KeyError, s).
Proof. intros H. unfold _get_robot_priority. unfold_m. now rewrite H. Qed.

Lemma stopped_or_same_refl a : stopped_or_same a a.
Proof. now left. Qed.

Lemma stopped_or_same_trans a b c :
  stopped_or_same a b -> stopped_or_same b c -> stopped_or_same a c.
Proof. unfold stopped_or_same. intros [->|H] [->|H']; auto. Qed.

Lemma status_after_set d k k' i st :
  Dict.get d k = Some i ->
  option_map status (Dict.get (Dict.set d k (with_status i st)) k') =
  if String.eqb k k' then Some st else option_map status (Dict.get d k').
Proof.
  intros H. destruct (String.eqb k k') eqn:E.
  - apply String.eqb_eq in E; subst. now rewrite get_set_same.
  - apply String.eqb_neq in E. now rewrite get_set_other.
Qed.

Lemma only_robots_changed_refl s : only_robots_changed s s.
Proof. repeat split. Qed.

Lemma only_robots_changed_with_robots s d :
  only_robots_changed s (with_robots s d).
Proof. repeat split. Qed.

Lemma execute_collision_avoidance_run s event info1 info2 :
  Dict.get (robots s) (robot1_id event) = Some info1 ->
  Dict.get (robots s) (robot2_id event) = Some info2 ->
  exists action s',
    _execute_collision_avoidance event s = (Ok action, s') /\
    only_robots_changed s s' /\
    erase_status (robots s') = erase_status (robots s) /\
    (forall id, id <> robot1_id event -> id <> robot2_id event ->
                Dict.get (robots s') id = Dict.get (robots s) id) /\
    (forall id, stopped_or_same (status_of s id) (status_of s' id)) /\
    (severity event = SAFE -> robots s' = robots s /\ action = "monitor").
Proof.
  intros H1 H2. unfold _execute_collision_avoidance.
  destruct (severity event) eqn:Hsev.
  - (* SAFE *)
    unfold_m. do 2 eexists. split; [reflexivity|].
    repeat split; auto using stopped_or_same_refl.
  - (* WARNING *)
    unfold _reduce_robot_speed. unfold_m. do 2 eexists. split; [reflexivity|].
    repeat split; auto using stopped_or_same_refl; discriminate.
  - (* DANGER *)
    unfold bind at 1. rewrite (get_robot_priority_run _ _ _ H1).
    unfold bind at 1. rewrite (get_robot_priority_run _ _ _ H2).
    destruct (brand_priority (brand info1) >? brand_priority (brand info2))%Z.
    + unfold _stop_robot, bind. rewrite (set_status_run _ _ _ _ H2).
      unfold ret. do 2 eexists. split; [reflexivity|].
      split; [apply only_robots_changed_with_robots|].
      cbn [robots with_robots]. unfold status_of. cbn [robots with_robots].
      split; [now apply erase_status_set|].
      split; [intros id _ Hne; apply get_set_other; congruence|].
      split; [|discriminate].
      intros id. rewrite (status_after_set _ _ id _ _ H2).
      destruct (String.eqb _ id); [right; now left | now left].
    + unfold _stop_robot, bind. rewrite (set_status_run _ _ _ _ H1).
      unfold ret. do 2 eexists. split; [reflexivity|].
      split; [apply only_robots_changed_with_robots|].
      cbn [robots with_robots]. unfold status_of. cbn [robots with_robots].
      split; [now apply erase_status_set|].
      split; [intros id Hne _; apply get_set_other; congruence|].
      split; [|discriminate].
      intros id. rewrite (status_after_set _ _ id _ _ H1).
      destruct (String.eqb _ id); [right; now left | now left].
  - (* CRITICAL *)
    unfold _emergency_stop_robot, bind.
    rewrite (set_status_run _ _ _ _ H1).
    assert (exists info2',
              Dict.get (robots (with_robots s
                 (Dict.set (robots s) (robot1_id event)
                    (with_status info1 EMERGENCY_STOP)))) (robot2_id event)
              = Some info2') as [info2' H2'].
    { cbn [robots with_robots].
      destruct (string_dec (robot1_id event) (robot2_id event)) as [E|E].
      - rewrite <- E, get_set_same. eauto.
      - rewrite get_set_other by assumption. eauto. }
    rewrite (set_status_run _ _ _ _ H2').
    unfold ret. do 2 eexists. split; [reflexivity|].
    split; [repeat split|].
    unfold status_of. cbn [robots with_robots] in *.
    split; [rewrite erase_status_set by assumption; now apply erase_status_set|].
    split.
    { intros id Hn1 Hn2. rewrite !get_set_other by congruence. reflexivity. }
    split; [|discriminate].
    intros id. rewrite (status_after_set _ _ id _ _ H2').
    destruct (String.eqb (robot2_id event) id); [right; now right|].
    rewrite (status_after_set _ _ id _ _ H1).
    destruct (String.eqb (robot1_id event) id); [right; now right | now left].
  - (* BLOCKED *)
    unfold_m. do 2 eexists. split; [reflexivity|].
    repeat split; auto using stopped_or_same_refl; discriminate.
Qed.

Lemma handle_collision_risk_run time_time random_uniform s r1 r2 risk p1 p2 i1 i2 :
  Dict.get (robot_positions s) r1 = Some p1 ->
  Dict.get (robot_positions s) r2 = Some p2 ->
  Dict.get (robots s) r1 = Some i1 ->
  Dict.get (robots s) r2 = Some i2 ->
  exists ev s',
    _handle_collision_risk time_time random_uniform r1 r2 risk s = (Ok tt, s') /\
    collision_events s' = collision_events s ++ [ev] /\
    event_key ev = (r1, r2, _classify_collision_zone risk) /\
    same_geometry s s' /\
    (forall id, id <> r1 -> id <> r2 ->
                Dict.get (robots s') id = Dict.get (robots s) id) /\
    (forall id, stopped_or_same (status_of s id) (status_of s' id)) /\
    (_classify_collision_zone risk = SAFE ->
     robots s' = robots s /\ avoidance_action ev = "monitor").
Proof.
  intros Hp1 Hp2 Hi1 Hi2.
  unfold _handle_collision_risk, _calculate_collision_point,
    _estimate_time_to_collision.
  unfold_m. unfold with_clock_reads, with_random_draws.
  cbn -[_execute_collision_avoidance _classify_collision_zone].
  rewrite Hp1.
  cbn -[_execute_collision_avoidance _classify_collision_zone].
  rewrite Hp2.
  cbn -[_execute_collision_avoidance _classify_collision_zone].
  match goal with
  | |- context [_execute_collision_avoidance ?e ?t] =>
      destruct (execute_collision_avoidance_run t e i1 i2 Hi1 Hi2)
        as (action & s1 & Hrun & Hframe & Herase & Hother & Hstat & Hsafe);
      rewrite Hrun
  end.
  destruct Hframe as (F1 & F2 & F3 & F4 & F5 & F6 & F7).
  cbn [robot_positions robot_paths collision_events robots robot1_id robot2_id severity stats clock_reads random_draws collision_objects] in *.
  do 2 eexists. split; [reflexivity|].
  unfold with_stats, with_collision_events, same_geometry, status_of in *.
  cbn [robot_positions robot_paths collision_events robots severity] in *.
  rewrite F4.
  repeat split; auto.
  - now apply Hsafe.
  - cbn. now apply Hsafe.
Qed.

(** ** Loops *)

Lemma bind_ext {A B} (m : M A) (f g : A -> M B) s :
  (forall a t, f a t = g a t) -> bind m f s = bind m g s.
Proof. intros H. unfold bind. destruct (m s) as [[a|e] t]; auto. Qed.

Lemma for_each_app {A} (l1 l2 : list A) body s :
  for_each (l1 ++ l2) body s =
  (for_each l1 body ;;; for_each l2 body) s.
Proof.
  revert s. induction l1 as [|a l1 IH]; intros s; simpl.
  - reflexivity.
  - unfold bind. destruct (body a s) as [[[]|e] t]; [|reflexivity].
    rewrite IH. reflexivity.
Qed.

Lemma for_each_map {A B} (g : A -> B) (l : list A) body s :
  for_each (map g l) body s = for_each l (fun a => body (g a)) s.
Proof.
  revert s. induction l as [|a l IH]; intros s; simpl; [reflexivity|].
  apply bind_ext. intros _ t. apply IH.
Qed.

Lemma for_pairs_all_pairs {A} (l : list A) body s :
  for_pairs l body s = for_each (all_pairs l) (fun p => body (fst p) (snd p)) s.
Proof.
  revert s. induction l as [|a l IH]; intros s; simpl; [reflexivity|].
  rewrite for_each_app. unfold bind.
  rewrite for_each_map. simpl.
  destruct (for_each l (fun a0 => body a a0) s) as [[[]|e] t]; auto.
Qed.

Lemma in_all_pairs {A} (l : list A) a b :
  In (a, b) (all_pairs l) -> In a l /\ In b l.
Proof.
  induction l as [|c l IH]; simpl; [tauto|].
  rewrite in_app_iff, in_map_iff. intros [(b' & [= <- <-] & Hin)|H]; auto.
  destruct (IH H). auto.
Qed.

(** ** The detection pass *)

Lemma same_geometry_refl s : same_geometry s s.
Proof. repeat split. Qed.

Lemma same_geometry_trans s1 s2 s3 :
  same_geometry s1 s2 -> same_geometry s2 s3 -> same_geometry s1 s3.
Proof.
  intros (A1 & A2 & A3) (B1 & B2 & B3). repeat split; congruence.
Qed.

Lemma erase_status_reach d d' k :
  erase_status d' = erase_status d ->
  option_map reach_radius (Dict.get d' k) = option_map reach_radius (Dict.get d k).
Proof.
  intros He. pose proof (get_erase_status d' k) as H'.
  rewrite He, get_erase_status in H'.
  destruct (Dict.get d' k), (Dict.get d k); simpl in *; try discriminate; auto.
  injection H' as _ _ _ _ _ _ Hr. now rewrite Hr.
Qed.

Lemma check_robot_collision_same_geometry s0 s robot1_id robot2_id :
  same_geometry s0 s ->
  _check_robot_collision robot1_id robot2_id s =
  (risk_of s0 (robot1_id, robot2_id), s).
Proof.
  intros (Hp & _ & He). unfold risk_of, _check_robot_collision. cbn [fst snd].
  unfold_m.
  pose proof (erase_status_reach _ _ robot1_id He) as E1.
  pose proof (erase_status_reach _ _ robot2_id He) as E2.
  rewrite Hp.
  destruct (Dict.get (robot_positions s0) robot1_id); [|reflexivity].
  rewrite Hp.
  destruct (Dict.get (robot_positions s0) robot2_id); [|reflexivity].
  destruct (Dict.get (robots s) robot1_id), (Dict.get (robots s0) robot1_id);
    simpl in E1; try discriminate; [|reflexivity].
  destruct (Dict.get (robots s) robot2_id), (Dict.get (robots s0) robot2_id);
    simpl in E2; try discriminate; [|reflexivity].
  cbn [fst]. injection E1 as ->. injection E2 as ->. reflexivity.
Qed.

Lemma risk_of_registered s robot1_id robot2_id :
  registry_ok s -> registered s robot1_id -> registered s robot2_id ->
  exists risk, risk_of s (robot1_id, robot2_id) = Ok risk.
Proof.
  intros Hok H1 H2.
  destruct (registry_ok_positions _ _ Hok H1) as [p1 Hp1].
  destruct (registry_ok_positions _ _ Hok H2) as [p2 Hp2].
  apply registered_info in H1 as [i1 Hi1]. apply registered_info in H2 as [i2 Hi2].
  unfold risk_of. cbn [fst snd].
  rewrite (check_robot_collision_run _ _ _ _ _ _ _ Hp1 Hp2 Hi1 Hi2).
  cbn [fst]. eauto.
Qed.

Lemma scan_loop time_time random_uniform s0 (ps : list (string * string)) :
  registry_ok s0 ->
  (forall p, In p ps -> registered s0 (fst p) /\ registered s0 (snd p)) ->
  forall s, same_geometry s0 s ->
  exists s' new,
    for_each ps (fun p =>
      risk <- _check_robot_collision (fst p) (snd p) ;;
      if Rgt_dec risk 0.1
      then _handle_collision_risk time_time random_uniform (fst p) (snd p) risk
      else ret tt) s = (Ok tt, s') /\
    same_geometry s0 s' /\
    collision_events s' = collision_events s ++ new /\
    map event_key new =
      map (fun p => (fst p, snd p, zone_of s0 p)) (filter (emits s0) ps) /\
    (forall id, (forall e, In e new -> ~ references e id) ->
                Dict.get (robots s') id = Dict.get (robots s) id) /\
    (forall id, stopped_or_same (status_of s id) (status_of s' id)) /\
    (forall e, In e new -> severity e = SAFE -> avoidance_action e = "monitor").
Proof.
  intros Hok. induction ps as [|[r1 r2] ps IH]; intros Hreg s Hgeo.
  - exists s, []. simpl. rewrite app_nil_r.
    repeat split; auto using stopped_or_same_refl; try apply Hgeo.
    intros e [].
  - simpl for_each. unfold bind at 1. unfold bind at 1. cbn [fst snd].
    rewrite (check_robot_collision_same_geometry s0 s r1 r2 Hgeo).
    destruct (Hreg (r1, r2) (or_introl eq_refl)) as [Hr1 Hr2]. cbn [fst snd] in *.
    destruct (risk_of_registered s0 r1 r2 Hok Hr1 Hr2) as [risk Hrisk].
    rewrite Hrisk.
    assert (Hreg' : forall p, In p ps -> registered s0 (fst p) /\ registered s0 (snd p))
      by (intros p Hp; apply Hreg; now right).
    simpl filter. unfold emits at 1. rewrite Hrisk.
    destruct (Rgt_dec risk 0.1) as [Hgt|Hle].
    + destruct (registry_ok_positions _ _ Hok Hr1) as [p1 Hp1].
      destruct (registry_ok_positions _ _ Hok Hr2) as [p2 Hp2].
      apply registered_info in Hr1 as [i1 Hi1].
      apply registered_info in Hr2 as [i2 Hi2].
      destruct Hgeo as (G1 & G2 & G3).
      destruct (erase_status_get _ _ _ _ G3 Hi1) as (i1' & Hi1' & _).
      destruct (erase_status_get _ _ _ _ G3 Hi2) as (i2' & Hi2' & _).
      rewrite <- G1 in Hp1, Hp2.
      destruct (handle_collision_risk_run time_time random_uniform s r1 r2 risk
                  p1 p2 i1' i2' Hp1 Hp2 Hi1' Hi2')
        as (ev & s1 & Hrun & Hev & Hkey & Hg1 & Hoth & Hst & Hsafe).
      rewrite Hrun.
      destruct (IH Hreg' s1) as (s' & new & Hloop & Hg' & Hev' & Hkeys & Hoth' & Hst' & Hsafe').
      { eapply same_geometry_trans; [|exact Hg1]. repeat split; assumption. }
      exists s', (ev :: new). rewrite Hloop. split; [reflexivity|].
      split; [assumption|].
      split; [rewrite Hev', Hev, <- app_assoc; reflexivity|].
      split.
      { cbn [map fst snd]. rewrite Hkey, Hkeys. f_equal.
        unfold zone_of. now rewrite Hrisk. }
      split; [|split].
      * intros id Hnone. rewrite Hoth'.
        -- apply Hoth.
           ++ intros ->. apply (Hnone ev (or_introl eq_refl)). left.
              unfold event_key in Hkey. congruence.
           ++ intros ->. apply (Hnone ev (or_introl eq_refl)). right.
              unfold event_key in Hkey. congruence.
        -- intros e He. apply Hnone. now right.
      * intros id. eapply stopped_or_same_trans; [apply Hst | apply Hst'].
      * intros e [<-|He] Hs; [|now apply Hsafe'].
        apply Hsafe. unfold event_key in Hkey. congruence.
    + unfold ret at 1.
      destruct (IH Hreg' s Hgeo) as (s' & new & Hloop & H').
      exists s', new. rewrite Hloop. split; [reflexivity | exact H'].
Qed.

Lemma update_objects_loop s0 (l : list (string * RobotPosition)) :
  (forall e, In e l -> In (fst e) (Dict.keys (robots s0))) ->
  forall s, only_objects_changed s0 s ->
  exists s',
    for_each l (fun '(robot_id, p) =>
      info <- lookup robots robot_id ;;
      let reach := reach_radius info in
      let collision_obj :=
        mkCollisionObject ("robot_" ++ robot_id)%string (x p, y p, z p)
                          (reach * 2, reach * 2, 2000) (0, 0, 0)
                          true robot_id 1 (timestamp p) in
      modify (fun s => with_collision_objects s
                (Dict.set (collision_objects s) ("robot_" ++ robot_id)%string
                          collision_obj))) s = (Ok tt, s') /\
    only_objects_changed s0 s'.
Proof.
  induction l as [|[robot_id p] l IH]; intros Hin s Hs.
  - exists s. split; [reflexivity | assumption].
  - simpl for_each. unfold bind at 1. unfold bind at 1. unfold lookup at 1.
    destruct Hs as (H1 & H2 & H3 & H4 & H5 & H6 & H7).
    destruct (proj1 (get_Some_keys (robots s0) robot_id)
                (Hin _ (or_introl eq_refl))) as [info Hinfo].
    rewrite H1, Hinfo. unfold modify at 1.
    apply IH.
    + intros e He. apply Hin. now right.
    + repeat split; assumption.
Qed.

Lemma in_keys_items {V} (d : Dict.t V) e :
  In e (Dict.items d) -> In (fst e) (Dict.keys d).
Proof. intros H. unfold Dict.keys. now apply in_map. Qed.

Lemma update_collision_objects_run s :
  registry_ok s ->
  exists s', _update_collision_objects s = (Ok tt, s') /\ only_objects_changed s s'.
Proof.
  intros (_ & Hpos & _). unfold _update_collision_objects.
  unfold bind at 1, gets at 1.
  apply update_objects_loop; [|repeat split].
  intros e He. rewrite <- Hpos. now apply in_keys_items.
Qed.

Lemma collision_detection_pass_run time_time random_uniform s :
  registry_ok s ->
  exists s' new,
    collision_detection_pass time_time random_uniform s = (Ok tt, s') /\
    same_geometry s s' /\
    collision_events s' = collision_events s ++ new /\
    map event_key new = expected_events s /\
    (forall id, (forall e, In e new -> ~ references e id) ->
                Dict.get (robots s') id = Dict.get (robots s) id) /\
    (forall id, stopped_or_same (status_of s id) (status_of s' id)) /\
    (forall e, In e new -> severity e = SAFE -> avoidance_action e = "monitor").
Proof.
  intros Hok. unfold collision_detection_pass, try_except.
  unfold bind at 1, read_clock at 1.
  set (s1 := with_clock_reads s (S (clock_reads s))).
  assert (Hok1 : registry_ok s1) by exact Hok.
  unfold bind at 1.
  destruct (update_collision_objects_run s1 Hok1)
    as (s2 & Hupd & R2 & P2 & Q2 & E2 & _).
  rewrite Hupd. unfold bind at 1, gets at 1. unfold bind at 1.
  unfold scan_pairs. rewrite for_pairs_all_pairs.
  destruct (scan_loop time_time random_uniform s
              (all_pairs (Dict.keys (robots s))) Hok) with (s := s2)
    as (s3 & new & Hscan & Hgeo & Hev & Hkeys & Hoth & Hst & Hsafe).
  { intros [a b] Hin. apply in_all_pairs in Hin.
    unfold registered. cbn [fst snd]. now rewrite !mem_true_iff. }
  { repeat split; [rewrite P2 | rewrite Q2 | rewrite R2]; reflexivity. }
  rewrite R2. change (robots s1) with (robots s).
  rewrite Hscan. unfold_m. cbn [fst snd].
  exists (with_stats (with_clock_reads s3 (S (clock_reads s3)))
            (mkStats (total_collisions_avoided (stats s3))
               (path_replanning_events (stats s3))
               (average_detection_time_ms (stats s3) * 0.9 +
                (time_time (clock_reads s3) - time_time (clock_reads s)) * 1000 * 0.1)
               (robots_coordinated (stats s3)) (safety_violations (stats s3)))),
         new.
  split; [reflexivity|].
  split; [exact Hgeo|].
  split; [cbn; rewrite Hev, E2; reflexivity|].
  split; [exact Hkeys|].
  split; [|split; [|exact Hsafe]].
  - intros id Hnone. cbn [robots with_stats with_clock_reads].
    rewrite (Hoth id Hnone), R2. reflexivity.
  - intros id. unfold status_of in *. cbn [robots with_stats with_clock_reads].
    specialize (Hst id). rewrite R2 in Hst. exact Hst.
Qed.

(** C2 (as amended). A CRITICAL event emergency-stops both robots of the
    pair: both statuses become EmergencyStop.  A DANGER event stops exactly
    one robot, whose status becomes Waiting: the second robot of the pair
    when the first has the strictly higher priority, the first robot
    otherwise.  With equal priorities it is therefore always the first robot
    of the pair that is stopped, whatever the two ids are. *)
Theorem C2_avoidance_policy s event info1 info2 :
  Dict.get (robots s) (robot1_id event) = Some info1 ->
  Dict.get (robots s) (robot2_id event) = Some info2 ->
  (severity event = CRITICAL ->
   exists s',
     _execute_collision_avoidance event s = (Ok "emergency_stop_both", s') /\
     status_of s' (robot1_id event) = Some EMERGENCY_STOP /\
     status_of s' (robot2_id event) = Some EMERGENCY_STOP) /\
  (severity event = DANGER ->
   let stopped :=
     if (brand_priority (brand info1) >? brand_priority (brand info2))%Z
     then robot2_id event else robot1_id event in
   (brand_priority (brand info1) = brand_priority (brand info2) ->
    stopped = robot1_id event) /\
   exists s',
     _execute_collision_avoidance event s = (Ok ("stop_" ++ stopped)%string, s') /\
     status_of s' stopped = Some WAITING /\
     forall other, other <> stopped ->
       Dict.get (robots s') other = Dict.get (robots s) other).
Proof.
  intros H1 H2. split; intros Hsev.
  - unfold _execute_collision_avoidance. rewrite Hsev.
    unfold _emergency_stop_robot, bind.
    rewrite (set_status_run _ _ _ _ H1).
    assert (exists info2',
              Dict.get (robots (with_robots s
                 (Dict.set (robots s) (robot1_id event)
                    (with_status info1 EMERGENCY_STOP)))) (robot2_id event)
              = Some info2') as [info2' H2'].
    { cbn [robots with_robots].
      destruct (string_dec (robot1_id event) (robot2_id event)) as [E|E].
      - rewrite <- E, get_set_same. eauto.
      - rewrite get_set_other by assumption. eauto. }
    rewrite (set_status_run _ _ _ _ H2'). unfold ret.
    eexists. split; [reflexivity|].
    unfold status_of. cbn [robots with_robots] in *.
    rewrite !(status_after_set _ _ _ _ _ H2'), String.eqb_refl.
    split; [|reflexivity].
    destruct (String.eqb (robot2_id event) (robot1_id event)); [reflexivity|].
    now rewrite (status_after_set _ _ _ _ _ H1), String.eqb_refl.
  - intros stopped. split.
    { intros Heq. unfold stopped. rewrite Heq.
      now rewrite Z.gtb_ltb, Z.ltb_irrefl. }
    unfold _execute_collision_avoidance. rewrite Hsev.
    unfold bind at 1. rewrite (get_robot_priority_run _ _ _ H1).
    unfold bind at 1. rewrite (get_robot_priority_run _ _ _ H2).
    unfold stopped.
    destruct (brand_priority (brand info1) >? brand_priority (brand info2))%Z.
    + unfold _stop_robot, bind. rewrite (set_status_run _ _ _ _ H2). unfold ret.
      eexists. split; [reflexivity|].
      unfold status_of. cbn [robots with_robots].
      rewrite get_set_same. split; [reflexivity|].
      intros other Hne. apply get_set_other. congruence.
    + unfold _stop_robot, bind. rewrite (set_status_run _ _ _ _ H1). unfold ret.
      eexists. split; [reflexivity|].
      unfold status_of. cbn [robots with_robots].
      rewrite get_set_same. split; [reflexivity|].
      intros other Hne. apply get_set_other. congruence.
Qed.

Lemma C2_avoidance_policy_witness :
  exists s',
    _execute_collision_avoidance danger_event twin_system
      = (Ok "stop_ROBOT_1", s') /\
    status_of s' "ROBOT_1" = Some WAITING.
Proof.
  destruct (C2_avoidance_policy twin_system danger_event
              (mkRobotInfo "ROBOT_1" YASKAWA "192.168.1.111"
                 (-2000, -2000, 2000, 2000) IDLE (demo_clock 0) true 1500)
              (mkRobotInfo "ROBOT_2" YASKAWA "192.168.1.112"
                 (-2000, -2000, 2000, 2000) IDLE (demo_clock 2) true 1500)
              eq_refl eq_refl) as [_ Hdanger].
  destruct (Hdanger eq_refl) as (_ & s' & Hrun & Hst & _).
  exists s'. split; [exact Hrun | exact Hst].
Defined.

(** C2 as stated fails on the tie-break: ROBOT_1 and ROBOT_2 have the same
    priority and ROBOT_2 has the larger id, yet a DANGER event for the pair
    stops ROBOT_1 and leaves ROBOT_2 Idle. *)
Lemma C2_counterexample :
  let outcome := _execute_collision_avoidance danger_event twin_system in
  fst (_get_robot_priority "ROBOT_1" twin_system) =
    fst (_get_robot_priority "ROBOT_2" twin_system) /\
  String.ltb "ROBOT_1" "ROBOT_2" = true /\
  fst outcome = Ok "stop_ROBOT_1" /\
  status_of (snd outcome) "ROBOT_1" = Some WAITING /\
  status_of (snd outcome) "ROBOT_2" = Some IDLE /\
  status_of (snd outcome) "ROBOT_2" <> Some WAITING.
Proof. repeat split. discriminate. Qed.

(** ** Consequences for one detection pass *)

Lemma registry_ok_set_status s robot_id st :
  registry_ok s -> registry_ok (exec (set_status robot_id st) s).
Proof.
  intros Hok. unfold exec.
  destruct (Dict.get (robots s) robot_id) as [info|] eqn:Hget.
  - rewrite (set_status_run _ _ _ _ Hget). cbn [snd].
    destruct Hok as (Hnd & Hpos & Hpaths & Hreach).
    assert (Hin : In robot_id (Dict.keys (robots s)))
      by (apply get_Some_keys; eauto).
    repeat split; cbn [robots robot_positions robot_paths with_robots];
      rewrite ?keys_set_present by assumption; auto.
    intros id info'. destruct (string_dec robot_id id) as [->|Hne].
    + rewrite get_set_same. intros [= <-]. simpl. now apply Hreach with id.
    + rewrite get_set_other by assumption. apply Hreach.
  - unfold set_status. unfold_m. now rewrite Hget.
Qed.

Lemma expected_events_spec s robot1_id robot2_id zone :
  registry_ok s ->
  In (robot1_id, robot2_id, zone) (expected_events s) <->
  In (robot1_id, robot2_id) (all_pairs (Dict.keys (robots s))) /\
  exists risk,
    fst (_check_robot_collision robot1_id robot2_id s) = Ok risk /\
    risk > 0.1 /\ zone = _classify_collision_zone risk.
Proof.
  intros Hok. unfold expected_events. rewrite in_map_iff. split.
  - intros ([a b] & [= -> -> <-] & Hin). apply filter_In in Hin as [Hin Hem].
    split; [assumption|]. unfold emits, zone_of, risk_of in *. cbn [fst snd] in *.
    destruct (fst (_check_robot_collision robot1_id robot2_id s)) as [risk|];
      [|discriminate].
    exists risk. destruct (Rgt_dec risk 0.1); [auto | discriminate].
  - intros (Hin & risk & Hrisk & Hgt & ->).
    exists (robot1_id, robot2_id). unfold zone_of, risk_of. cbn [fst snd].
    rewrite Hrisk. split; [reflexivity|].
    apply filter_In. split; [assumption|].
    unfold emits, risk_of. cbn [fst snd]. rewrite Hrisk.
    destruct (Rgt_dec risk 0.1); [reflexivity | contradiction].
Qed.

(** C4 (as amended). In a detection pass the robot pairs are visited in
    registration order (the pairs [(ids[i], ids[j])], [i < j], of the
    registry's key list, first index ascending, then second), not in
    ascending-id order.  A pair yields an event exactly when its risk is
    strictly above 0.1, so the pass appends one event per such pair in that
    order.  The robots and the severity of the emitted events depend on the
    registry and the positions only: two runs from the same state emit the
    same sequence, whatever the clock and the random generator return. *)
Theorem C4_detection_pass_events
    time_time random_uniform time_time' random_uniform' s :
  registry_ok s ->
  exists s1 new1 s2 new2,
    collision_detection_pass time_time random_uniform s = (Ok tt, s1) /\
    collision_events s1 = collision_events s ++ new1 /\
    collision_detection_pass time_time' random_uniform' s = (Ok tt, s2) /\
    collision_events s2 = collision_events s ++ new2 /\
    map event_key new1 = expected_events s /\
    map event_key new2 = map event_key new1 /\
    forall robot1_id robot2_id zone,
      In (robot1_id, robot2_id, zone) (map event_key new1) <->
      In (robot1_id, robot2_id) (all_pairs (Dict.keys (robots s))) /\
      exists risk,
        fst (_check_robot_collision robot1_id robot2_id s) = Ok risk /\
        risk > 0.1 /\ zone = _classify_collision_zone risk.
Proof.
  intros Hok.
  destruct (collision_detection_pass_run time_time random_uniform s Hok)
    as (s1 & new1 & Hrun1 & _ & Hev1 & Hkey1 & _).
  destruct (collision_detection_pass_run time_time' random_uniform' s Hok)
    as (s2 & new2 & Hrun2 & _ & Hev2 & Hkey2 & _).
  exists s1, new1, s2, new2.
  do 5 (split; [assumption|]).
  split; [congruence|].
  intros r1 r2 zone. rewrite Hkey1. now apply expected_events_spec.
Qed.

Lemma distance_between_along_x p q :
  y p = y q -> z p = z q -> distance_between p q = Rabs (x p - x q).
Proof.
  intros Hy Hz. unfold distance_between. rewrite Hy, Hz.
  replace ((x p - x q) ^ 2 + (y q - y q) ^ 2 + (z q - z q) ^ 2)
    with (Rsqr (x p - x q)) by (unfold Rsqr; ring).
  apply sqrt_Rsqr_abs.
Qed.

Lemma expected_events_two s a b :
  Dict.keys (robots s) = [a; b] ->
  expected_events s =
  if emits s (a, b) then [(a, b, zone_of s (a, b))] else [].
Proof.
  intros Hk. unfold expected_events. rewrite Hk. simpl.
  now destruct (emits s (a, b)).
Qed.

Lemma risk_of_reversed_system :
  risk_of reversed_system ("ROBOT_2", "ROBOT_1") = Ok 1.
Proof.
  unfold risk_of. cbn [fst snd].
  erewrite check_robot_collision_run by reflexivity. cbn [fst]. f_equal.
  rewrite distance_between_along_x by reflexivity. cbn [x reach_radius with_connection_active with_status
       _calculate_reach_radius].
  replace (0 - 0) with 0 by ring. rewrite Rabs_R0.
  unfold collision_risk_at, safety_margin.
  destruct (Rle_dec 0 (1500 + 1500 + 200)); lra.
Qed.

Lemma risk_of_grazing_system :
  exists risk,
    risk_of grazing_system ("YASKAWA_01", "ABB_01") = Ok risk /\
    0.1 < risk < 0.2.
Proof.
  unfold risk_of. cbn [fst snd].
  erewrite check_robot_collision_run by reflexivity. cbn [fst].
  eexists. split; [reflexivity|].
  rewrite distance_between_along_x by reflexivity. cbn [x reach_radius with_connection_active with_status
       _calculate_reach_radius].
  rewrite Rabs_left by lra.
  unfold collision_risk_at, safety_margin.
  destruct (Rle_dec (- (0 - 3000)) (1500 + 1600 + 200)); lra.
Qed.

Lemma risk_of_waiting_system :
  risk_of waiting_system ("YASKAWA_01", "ABB_01") = Ok 0.
Proof.
  unfold risk_of. cbn [fst snd].
  erewrite check_robot_collision_run by reflexivity. cbn [fst]. f_equal.
  rewrite distance_between_along_x by reflexivity. cbn [x reach_radius with_connection_active with_status
       _calculate_reach_radius].
  rewrite Rabs_left by lra.
  unfold collision_risk_at, safety_margin.
  destruct (Rle_dec (- (0 - 10000)) (1500 + 1600 + 200)); lra.
Qed.

Lemma registry_ok_reversed_system : registry_ok reversed_system.
Proof.
  unfold reversed_system. do 2 apply registry_ok_register. apply registry_ok_init.
Qed.

Lemma registry_ok_grazing_system : registry_ok grazing_system.
Proof.
  apply registry_ok_store_position; [apply registry_ok_demo_system | reflexivity].
Qed.

Lemma registry_ok_waiting_system : registry_ok waiting_system.
Proof.
  unfold waiting_system, _stop_robot. apply registry_ok_set_status.
  apply registry_ok_store_position; [apply registry_ok_demo_system | reflexivity].
Qed.

Lemma expected_events_reversed_system :
  expected_events reversed_system = [("ROBOT_2", "ROBOT_1", CRITICAL)].
Proof.
  rewrite (expected_events_two _ "ROBOT_2" "ROBOT_1") by reflexivity.
  unfold emits, zone_of. rewrite risk_of_reversed_system.
  unfold _classify_collision_zone.
  destruct (Rgt_dec 1 0.1); [|lra].
  destruct (Rge_dec 1 0.8); [reflexivity | lra].
Qed.

Lemma expected_events_grazing_system :
  expected_events grazing_system = [("YASKAWA_01", "ABB_01", SAFE)].
Proof.
  rewrite (expected_events_two _ "YASKAWA_01" "ABB_01") by reflexivity.
  destruct risk_of_grazing_system as (risk & Hrisk & Hlo & Hhi).
  unfold emits, zone_of. rewrite Hrisk.
  unfold _classify_collision_zone.
  destruct (Rgt_dec risk 0.1); [|lra].
  destruct (Rge_dec risk 0.8); [lra|].
  destruct (Rge_dec risk 0.5); [lra|].
  destruct (Rge_dec risk 0.2); [lra | reflexivity].
Qed.

Lemma expected_events_waiting_system : expected_events waiting_system = [].
Proof.
  rewrite (expected_events_two _ "YASKAWA_01" "ABB_01") by reflexivity.
  unfold emits. rewrite risk_of_waiting_system.
  destruct (Rgt_dec 0 0.1); [lra | reflexivity].
Qed.

Lemma C4_detection_pass_events_witness :
  exists s1 new1,
    collision_detection_pass demo_clock demo_uniform reversed_system
      = (Ok tt, s1) /\
    collision_events s1 = collision_events reversed_system ++ new1 /\
    map event_key new1 = expected_events reversed_system.
Proof.
  destruct (C4_detection_pass_events demo_clock demo_uniform
              (fun n => 0) (fun _ lo hi => hi) reversed_system
              registry_ok_reversed_system)
    as (s1 & new1 & _ & _ & H1 & H2 & _ & _ & H3 & _).
  exists s1, new1. repeat split; assumption.
Defined.

(** C4 as stated fails on the order: with ROBOT_2 registered before ROBOT_1
    the pass visits the pair as (ROBOT_2, ROBOT_1), the larger id first. *)
Lemma C4_counterexample :
  Dict.keys (robots reversed_system) = ["ROBOT_2"; "ROBOT_1"] /\
  String.ltb "ROBOT_1" "ROBOT_2" = true /\
  exists e s',
    collision_detection_pass demo_clock demo_uniform reversed_system
      = (Ok tt, s') /\
    collision_events s' = [e] /\
    robot1_id e = "ROBOT_2" /\ robot2_id e = "ROBOT_1".
Proof.
  split; [reflexivity|]. split; [reflexivity|].
  destruct (collision_detection_pass_run demo_clock demo_uniform reversed_system
              registry_ok_reversed_system)
    as (s' & new & Hrun & _ & Hev & Hkey & _).
  rewrite expected_events_reversed_system in Hkey.
  destruct new as [|e [|e' new]]; try discriminate.
  exists e, s'. unfold event_key in Hkey. simpl in Hkey.
  injection Hkey as H1 H2 _. auto.
Qed.

(** C5 (as amended). A detection pass never clears a status back to Idle.
    A robot that no event of the pass references keeps its status, so a
    Waiting robot stays Waiting and an EmergencyStop robot stays in
    EmergencyStop; a referenced robot keeps its status or becomes Waiting or
    EmergencyStop.  The pass has no recovery step and no configuration flag
    takes part in it. *)
Theorem C5_no_automatic_recovery time_time random_uniform s :
  registry_ok s ->
  exists s' new,
    collision_detection_pass time_time random_uniform s = (Ok tt, s') /\
    collision_events s' = collision_events s ++ new /\
    (forall robot_id,
       (forall e, In e new -> ~ references e robot_id) ->
       status_of s' robot_id = status_of s robot_id) /\
    (forall robot_id,
       stopped_or_same (status_of s robot_id) (status_of s' robot_id)) /\
    (forall robot_id,
       status_of s robot_id <> Some IDLE -> status_of s' robot_id <> Some IDLE).
Proof.
  intros Hok.
  destruct (collision_detection_pass_run time_time random_uniform s Hok)
    as (s' & new & Hrun & _ & Hev & _ & Hoth & Hst & _).
  exists s', new. do 2 (split; [assumption|]).
  split; [|split; [exact Hst|]].
  - intros id Hnone. unfold status_of. now rewrite (Hoth id Hnone).
  - intros id Hne. destruct (Hst id) as [H|[H|H]]; rewrite H;
      [assumption | discriminate | discriminate].
Qed.

Lemma C5_no_automatic_recovery_witness :
  exists s',
    collision_detection_pass demo_clock demo_uniform waiting_system
      = (Ok tt, s') /\
    status_of s' "YASKAWA_01" <> Some IDLE.
Proof.
  destruct (C5_no_automatic_recovery demo_clock demo_uniform waiting_system
              registry_ok_waiting_system)
    as (s' & new & Hrun & _ & _ & _ & Hidle).
  exists s'. split; [exact Hrun|].
  apply Hidle. discriminate.
Defined.

(** C5 as stated fails: the Yaskawa robot is Waiting, the pass emits no
    event at all, and the robot is still Waiting afterwards. *)
Lemma C5_counterexample :
  status_of waiting_system "YASKAWA_01" = Some WAITING /\
  exists s',
    collision_detection_pass demo_clock demo_uniform waiting_system
      = (Ok tt, s') /\
    collision_events s' = [] /\
    status_of s' "YASKAWA_01" = Some WAITING /\
    status_of s' "YASKAWA_01" <> Some IDLE.
Proof.
  split; [reflexivity|].
  destruct (collision_detection_pass_run demo_clock demo_uniform waiting_system
              registry_ok_waiting_system)
    as (s' & new & Hrun & _ & Hev & Hkey & Hoth & _).
  rewrite expected_events_waiting_system in Hkey.
  destruct new; [|discriminate].
  exists s'. split; [exact Hrun|]. split; [exact Hev|].
  assert (H : status_of s' "YASKAWA_01" = Some WAITING).
  { unfold status_of. rewrite Hoth by (intros e []). reflexivity. }
  split; [exact H|]. rewrite H. discriminate.
Qed.

(** C9 (as amended). The SAFE branch of the executor is reachable.  A pair
    is handed over when its risk exceeds 0.1, and the event is SAFE exactly
    when that risk is below 0.2; for such an event the executor changes no
    robot and the recorded action is monitor.  From risk 0.2 upwards the
    severity is WARNING, DANGER or CRITICAL.  BLOCKED is never assigned. *)
Theorem C9_safe_branch time_time random_uniform s robot1_id robot2_id risk :
  registry_ok s -> registered s robot1_id -> registered s robot2_id ->
  risk > 0.1 ->
  (_classify_collision_zone risk = SAFE <-> risk < 0.2) /\
  _classify_collision_zone risk <> BLOCKED /\
  exists e s',
    _handle_collision_risk time_time random_uniform robot1_id robot2_id risk s
      = (Ok tt, s') /\
    collision_events s' = collision_events s ++ [e] /\
    event_key e = (robot1_id, robot2_id, _classify_collision_zone risk) /\
    (risk < 0.2 ->
     severity e = SAFE /\ avoidance_action e = "monitor" /\
     robots s' = robots s).
Proof.
  intros Hok Hr1 Hr2 Hgt.
  assert (Hsafe : _classify_collision_zone risk = SAFE <-> risk < 0.2).
  { unfold _classify_collision_zone.
    destruct (Rge_dec risk 0.8), (Rge_dec risk 0.5), (Rge_dec risk 0.2);
      split; intros; try discriminate; try lra; reflexivity. }
  split; [exact Hsafe|]. split.
  { unfold _classify_collision_zone.
    destruct (Rge_dec risk 0.8), (Rge_dec risk 0.5), (Rge_dec risk 0.2);
      discriminate. }
  destruct (registry_ok_positions _ _ Hok Hr1) as [p1 Hp1].
  destruct (registry_ok_positions _ _ Hok Hr2) as [p2 Hp2].
  apply registered_info in Hr1 as [i1 Hi1].
  apply registered_info in Hr2 as [i2 Hi2].
  destruct (handle_collision_risk_run time_time random_uniform s _ _ risk
              p1 p2 i1 i2 Hp1 Hp2 Hi1 Hi2)
    as (e & s' & Hrun & Hev & Hkey & _ & _ & _ & Hmon).
  exists e, s'. do 3 (split; [assumption|]).
  intros Hlt. apply Hsafe in Hlt. destruct (Hmon Hlt) as [Hrob Hact].
  unfold event_key in Hkey. repeat split; congruence.
Qed.

Lemma C9_safe_branch_witness :
  exists e s',
    _handle_collision_risk demo_clock demo_uniform "YASKAWA_01" "ABB_01" 0.15
      grazing_system = (Ok tt, s') /\
    collision_events s' = [e] /\
    severity e = SAFE.
Proof.
  destruct (C9_safe_branch demo_clock demo_uniform grazing_system
              "YASKAWA_01" "ABB_01" 0.15 registry_ok_grazing_system
              eq_refl eq_refl ltac:(lra))
    as (_ & _ & e & s' & Hrun & Hev & _ & Hsafe).
  exists e, s'. split; [exact Hrun|]. split; [exact Hev|].
  apply Hsafe. lra.
Defined.

(** C9 as stated fails: with the two robots 3000 mm apart the risk is
    between 0.1 and 0.2, the pass emits an event for the pair, and that
    event reaches the executor with severity SAFE. *)
Lemma C9_counterexample :
  (exists risk,
     fst (_check_robot_collision "YASKAWA_01" "ABB_01" grazing_system) = Ok risk /\
     risk > 0.1) /\
  exists e s',
    collision_detection_pass demo_clock demo_uniform grazing_system
      = (Ok tt, s') /\
    collision_events s' = [e] /\
    robot1_id e = "YASKAWA_01" /\ robot2_id e = "ABB_01" /\
    severity e = SAFE /\ avoidance_action e = "monitor".
Proof.
  split.
  { destruct risk_of_grazing_system as (risk & Hrisk & Hlo & _).
    exists risk. split; [exact Hrisk | lra]. }
  destruct (collision_detection_pass_run demo_clock demo_uniform grazing_system
              registry_ok_grazing_system)
    as (s' & new & Hrun & _ & Hev & Hkey & _ & _ & Hmon).
  rewrite expected_events_grazing_system in Hkey.
  destruct new as [|e [|e' new]]; try discriminate.
  exists e, s'. unfold event_key in Hkey. simpl in Hkey.
  injection Hkey as H1 H2 H3.
  repeat split; auto. apply Hmon; [now left | assumption].
Qed.

(** ** Path generation and delays *)

Lemma only_clock_changed_refl s : only_clock_changed s s.
Proof. repeat split. Qed.

Lemma only_clock_changed_trans s1 s2 s3 :
  only_clock_changed s1 s2 -> only_clock_changed s2 s3 ->
  only_clock_changed s1 s3.
Proof.
  intros (A1 & A2 & A3 & A4 & A5 & A6 & A7) (B1 & B2 & B3 & B4 & B5 & B6 & B7).
  repeat split; congruence.
Qed.

Lemma sample_points_run time_time pos (l : list nat) s :
  exists pts s',
    map_m (sample_point time_time pos) l s = (Ok pts, s') /\
    only_clock_changed s s' /\
    clock_reads s' = (clock_reads s + List.length l)%nat /\
    map time_from_start pts = map (fun i => INR i / 9 * 2) l.
Proof.
  revert s. induction l as [|i l IH]; intros s.
  - exists [], s. simpl. rewrite Nat.add_0_r.
    repeat split.
  - simpl map_m. unfold bind at 1. unfold sample_point at 1.
    unfold bind at 1, read_clock at 1, ret at 1.
    destruct (IH (with_clock_reads s (S (clock_reads s))))
      as (pts & s' & Hrun & Hframe & Hclock & Htimes).
    unfold bind at 1. rewrite Hrun. unfold ret.
    eexists. exists s'. split; [reflexivity|].
    split; [exact Hframe|].
    split; [rewrite Hclock; simpl; lia|].
    simpl. now rewrite Htimes.
Qed.

Lemma generate_safe_path_run time_time robot_id s pos info :
  Dict.get (robot_positions s) robot_id = Some pos ->
  Dict.get (robots s) robot_id = Some info ->
  exists path s',
    _generate_safe_path time_time robot_id s = (Ok path, s') /\
    only_clock_changed s s' /\
    clock_reads s' = (clock_reads s + 12)%nat /\
    path_robot_id path = robot_id /\
    times path = nominal_times /\
    total_duration path = 2 /\
    priority path = brand_priority (brand info) /\
    is_active path = true /\
    start_time path = time_time (clock_reads s + 11)%nat.
Proof.
  intros Hpos Hinfo. unfold _generate_safe_path.
  unfold bind at 1, lookup at 1. rewrite Hpos.
  destruct (sample_points_run time_time pos (seq 0 10) s)
    as (pts & s1 & Hrun & Hframe & Hclock & Htimes).
  unfold bind at 1. rewrite Hrun.
  unfold bind at 1, read_clock at 1.
  unfold bind at 1.
  destruct Hframe as (F1 & F2 & F3 & F4 & F5 & F6 & F7).
  rewrite (get_robot_priority_run _ _ info)
    by (cbn [robots with_clock_reads]; now rewrite F1).
  unfold bind, read_clock, ret. cbn [clock_reads with_clock_reads].
  do 2 eexists. split; [reflexivity|].
  split; [repeat split; assumption|].
  cbn [clock_reads with_clock_reads path_robot_id total_duration priority
       is_active start_time].
  unfold times. cbn [points]. rewrite Hclock. simpl List.length.
  repeat split; try assumption; try lia.
  f_equal. lia.
Qed.

Lemma generate_safe_path_missing time_time robot_id s :
  Dict.get (robot_positions s) robot_id = None ->
  _generate_safe_path time_time robot_id s = (Raised KeyError, s).
Proof.
  intros H. unfold _generate_safe_path. unfold bind at 1, lookup at 1.
  now rewrite H.
Qed.

Lemma strictly_increasing_map_seq (f : nat -> R) a n :
  (forall i j, (i < j)%nat -> f i < f j) ->
  strictly_increasing (map f (seq a n)).
Proof.
  intros Hf. revert a. induction n as [|n IH]; intros a; simpl.
  - constructor.
  - constructor; [apply IH|].
    apply Forall_forall. intros t Ht.
    apply in_map_iff in Ht as (j & <- & Hj). apply in_seq in Hj.
    apply Hf. lia.
Qed.

Lemma strictly_increasing_shift d l :
  strictly_increasing l -> strictly_increasing (map (fun t => t + d) l).
Proof.
  induction 1 as [|t l Hl IH Hall]; simpl; constructor; [assumption|].
  apply Forall_forall. intros u Hu.
  apply in_map_iff in Hu as (v & <- & Hv).
  rewrite Forall_forall in Hall. specialize (Hall v Hv). lra.
Qed.

Lemma nominal_times_increasing : strictly_increasing nominal_times.
Proof.
  apply strictly_increasing_map_seq. intros i j Hij.
  apply lt_INR in Hij. lra.
Qed.

Lemma nominal_times_ends :
  hd_error nominal_times = Some 0 /\ last nominal_times 0 = 2.
Proof.
  unfold nominal_times. simpl. split; [f_equal|]; lra.
Qed.

Lemma times_delay_path d p :
  times (delay_path d p) = map (fun t => t + d) (times p).
Proof.
  unfold times, delay_path. cbn [points]. rewrite !map_map. reflexivity.
Qed.

Lemma delay_robot_start_run s robot_id d p :
  Dict.get (robot_paths s) robot_id = Some (Some p) ->
  exists s',
    _delay_robot_start robot_id d s = (Ok tt, s') /\
    only_paths_changed s s' /\
    Dict.get (robot_paths s') robot_id = Some (Some (delay_path d p)) /\
    forall other, other <> robot_id ->
      Dict.get (robot_paths s') other = Dict.get (robot_paths s) other.
Proof.
  intros H. unfold _delay_robot_start. unfold_m. rewrite H.
  eexists. split; [reflexivity|]. split; [repeat split|].
  cbn [robot_paths with_robot_paths]. rewrite get_set_same.
  split; [reflexivity|]. intros other Hne. apply get_set_other. congruence.
Qed.

(** C7. A generated path has strictly increasing time-from-start values
    that start at 0 and end at the path's total duration.  A delay
    adjustment adds the delay to the path's start time and to every point's
    time-from-start, and the shifted values are again strictly increasing. *)
Theorem C7_path_times_increasing time_time s robot_id :
  registry_ok s -> registered s robot_id ->
  (exists path s',
     _generate_safe_path time_time robot_id s = (Ok path, s') /\
     strictly_increasing (times path) /\
     hd_error (times path) = Some 0 /\
     last (times path) 0 = total_duration path) /\
  (forall t delay p,
     Dict.get (robot_paths t) robot_id = Some (Some p) ->
     strictly_increasing (times p) ->
     exists t' p',
       _delay_robot_start robot_id delay t = (Ok tt, t') /\
       Dict.get (robot_paths t') robot_id = Some (Some p') /\
       start_time p' = start_time p + delay /\
       times p' = map (fun u => u + delay) (times p) /\
       strictly_increasing (times p')).
Proof.
  intros Hok Hreg. split.
  - destruct (registry_ok_positions _ _ Hok Hreg) as [pos Hpos].
    apply registered_info in Hreg as [info Hinfo].
    destruct (generate_safe_path_run time_time robot_id s pos info Hpos Hinfo)
      as (path & s' & Hrun & _ & _ & _ & Htimes & Hdur & _).
    exists path, s'. split; [exact Hrun|].
    rewrite Htimes, Hdur.
    split; [apply nominal_times_increasing | apply nominal_times_ends].
  - intros t delay p Hget Hinc.
    destruct (delay_robot_start_run t robot_id delay p Hget)
      as (t' & Hrun & _ & Hget' & _).
    exists t', (delay_path delay p). split; [exact Hrun|].
    split; [exact Hget'|]. split; [reflexivity|].
    split; [apply times_delay_path|].
    rewrite times_delay_path. now apply strictly_increasing_shift.
Qed.

Lemma replanned_system_path :
  exists p,
    Dict.get (robot_paths replanned_system) "ABB_01" = Some (Some p) /\
    strictly_increasing (times p).
Proof.
  unfold replanned_system, exec, _replan_robot_path. unfold bind at 1.
  edestruct (generate_safe_path_run demo_clock "ABB_01" demo_system)
    as (path & s' & Hrun & _ & _ & _ & Htimes & _);
    [reflexivity | reflexivity |].
  rewrite Hrun. unfold_m. unfold _send_path_to_robot, ret.
  cbn [snd robot_paths with_robot_paths with_stats].
  rewrite get_set_same. exists path. split; [reflexivity|].
  rewrite Htimes. apply nominal_times_increasing.
Qed.

Lemma C7_path_times_increasing_witness :
  (exists path s',
     _generate_safe_path demo_clock "ABB_01" demo_system = (Ok path, s') /\
     strictly_increasing (times path)) /\
  (exists t' p',
     _delay_robot_start "ABB_01" 1 replanned_system = (Ok tt, t') /\
     Dict.get (robot_paths t') "ABB_01" = Some (Some p') /\
     strictly_increasing (times p')).
Proof.
  destruct (C7_path_times_increasing demo_clock demo_system "ABB_01"
              registry_ok_demo_system eq_refl)
    as ((path & s' & Hrun & Hinc & _) & Hdelay).
  split.
  - exists path, s'. split; [exact Hrun | exact Hinc].
  - destruct replanned_system_path as (p & Hget & Hp).
    destruct (Hdelay replanned_system 1 p Hget Hp)
      as (t' & p' & Hrun' & Hget' & _ & _ & Hinc').
    exists t', p'. repeat split; assumption.
Defined.

(** ** Coordinated tasks *)

Lemma mark_coordinated_loop (ids : list string) s :
  exists s',
    for_each ids mark_coordinated s = (Ok tt, s') /\
    only_robots_changed s s' /\
    erase_status (robots s') = erase_status (robots s) /\
    (forall id, In id ids -> registered s id ->
                status_of s' id = Some COORDINATED) /\
    (forall id, ~ In id ids -> Dict.get (robots s') id = Dict.get (robots s) id).
Proof.
  revert s. induction ids as [|a ids IH]; intros s.
  - exists s. split; [reflexivity|].
    split; [apply only_robots_changed_refl|]. repeat split; auto.
    intros id [].
  - simpl for_each. unfold bind at 1. unfold mark_coordinated at 1.
    unfold bind at 1, gets at 1. unfold Dict.mem at 1.
    destruct (Dict.get (robots s) a) as [info|] eqn:Hget.
    + rewrite (set_status_run _ _ _ _ Hget).
      set (s1 := with_robots s (Dict.set (robots s) a (with_status info COORDINATED))).
      destruct (IH s1) as (s' & Hrun & Hframe & Herase & Hmark & Hother).
      exists s'. split; [exact Hrun|].
      split; [exact Hframe|].
      split; [rewrite Herase; now apply erase_status_set|].
      split.
      * intros id Hin Hreg.
        destruct (in_dec string_dec id ids) as [Hin'|Hnin].
        -- apply Hmark; [assumption|].
           unfold registered, s1. cbn [robots with_robots].
           rewrite mem_true_iff, keys_set_present;
             [now apply mem_true_iff | apply get_Some_keys; eauto].
        -- destruct Hin as [<-|Hin]; [|contradiction].
           unfold status_of. rewrite (Hother a Hnin).
           unfold s1. cbn [robots with_robots]. now rewrite get_set_same.
      * intros id Hnin. rewrite Hother by (intros H; apply Hnin; now right).
        unfold s1. cbn [robots with_robots]. apply get_set_other.
        intros ->. apply Hnin. now left.
    + unfold ret at 1.
      destruct (IH s) as (s' & Hrun & Hframe & Herase & Hmark & Hother).
      exists s'. split; [exact Hrun|]. do 2 (split; [assumption|]).
      split.
      * intros id [<-|Hin] Hreg; [|now apply Hmark].
        apply registered_info in Hreg as [info Hinfo]. congruence.
      * intros id Hnin. apply Hother. intros H; apply Hnin; now right.
Qed.

Lemma coordinated_paths_loop_run time_time (ids : list string) :
  forall i acc s,
    (forall id, In id ids ->
       (exists pos, Dict.get (robot_positions s) id = Some pos) /\
       (exists info, Dict.get (robots s) id = Some info)) ->
    exists paths s',
      coordinated_paths_loop time_time (enumerate_from i ids) acc s
        = (Ok paths, s') /\
      only_clock_changed s s' /\
      (NoDup (Dict.keys acc) -> NoDup (Dict.keys paths)) /\
      (forall id, ~ In id ids -> Dict.get paths id = Dict.get acc id) /\
      (forall k id,
         nth_error ids k = Some id -> ~ In id (skipn (S k) ids) ->
         exists p,
           Dict.get paths id = Some p /\
           path_robot_id p = id /\
           start_time p =
             time_time (clock_reads s + 12 * k + 11)%nat + INR (i + k) * 2 /\
           times p = map (fun t => t + INR (i + k) * 2) nominal_times).
Proof.
  induction ids as [|a ids IH]; intros i acc s Hreg.
  - exists acc, s. split; [reflexivity|].
    split; [apply only_clock_changed_refl|].
    repeat split; auto. intros [|k] id H; discriminate.
  - simpl. unfold bind at 1.
    destruct (Hreg a (or_introl eq_refl)) as [[pos Hpos] [info Hinfo]].
    destruct (generate_safe_path_run time_time a s pos info Hpos Hinfo)
      as (p0 & s1 & Hgen & Hframe & Hclock & Hid & Htimes & _ & _ & _ & Hstart).
    rewrite Hgen.
    destruct (IH (S i) (Dict.set acc a (delay_path (INR i * 2) p0)) s1)
      as (paths & s' & Hrun & Hframe' & Hnd & Hout & Hin).
    { intros id Hid'. destruct Hframe as (F1 & F2 & _).
      rewrite F1, F2. apply Hreg. now right. }
    exists paths, s'. split; [exact Hrun|].
    split; [eapply only_clock_changed_trans; eassumption|].
    split; [intros H; apply Hnd; now apply NoDup_keys_set|].
    split.
    + intros id Hnin. rewrite Hout by (intros H; apply Hnin; now right).
      apply get_set_other. intros ->. apply Hnin. now left.
    + intros [|k] id Hnth Hlater.
      * injection Hnth as <-. simpl in Hlater.
        rewrite (Hout a Hlater), get_set_same.
        eexists. split; [reflexivity|].
        rewrite times_delay_path, Htimes. cbn [path_robot_id delay_path start_time].
        rewrite Hstart, !Nat.add_0_r. repeat split; auto.
      * simpl in Hnth, Hlater.
        destruct (Hin k id Hnth Hlater) as (p & Hget & Hpid & Hpstart & Hptimes).
        exists p. split; [exact Hget|]. split; [exact Hpid|].
        rewrite Hpstart, Hptimes, Hclock.
        replace (S i + k)%nat with (i + S k)%nat by lia.
        replace (clock_reads s + 12 + 12 * k + 11)%nat
          with (clock_reads s + 12 * S k + 11)%nat by lia.
        split; reflexivity.
Qed.

Lemma coordinated_paths_loop_raises time_time (ids : list string) :
  forall i acc s,
    Dict.keys (robot_positions s) = Dict.keys (robots s) ->
    (exists id, In id ids /\ ~ registered s id) ->
    exists s',
      coordinated_paths_loop time_time (enumerate_from i ids) acc s
        = (Raised KeyError, s') /\
      only_clock_changed s s'.
Proof.
  induction ids as [|a ids IH]; intros i acc s Hkeys (bad & Hin & Hbad).
  - destruct Hin.
  - simpl. unfold bind at 1.
    destruct (Dict.get (robot_positions s) a) as [pos|] eqn:Hpos.
    + assert (Ha : In a (Dict.keys (robots s)))
        by (rewrite <- Hkeys; apply get_Some_keys; eauto).
      apply get_Some_keys in Ha as [info Hinfo].
      destruct (generate_safe_path_run time_time a s pos info Hpos Hinfo)
        as (p0 & s1 & Hgen & Hframe & _).
      rewrite Hgen.
      destruct (IH (S i) (Dict.set acc a (delay_path (INR i * 2) p0)) s1)
        as (s' & Hrun & Hframe').
      * destruct Hframe as (F1 & F2 & _). now rewrite F1, F2.
      * exists bad. destruct Hframe as (F1 & _).
        unfold registered in *. rewrite F1. split; [|assumption].
        destruct Hin as [<-|Hin]; [|assumption].
        exfalso. apply Hbad. apply registered_info. eauto.
      * exists s'. split; [exact Hrun|].
        eapply only_clock_changed_trans; eassumption.
    + rewrite (generate_safe_path_missing _ _ _ Hpos).
      exists s. split; [reflexivity | apply only_clock_changed_refl].
Qed.

Lemma publish_loop (d : Dict.t RobotPath) :
  NoDup (Dict.keys d) ->
  forall s,
  exists s',
    for_each (Dict.items d) publish_path s = (Ok tt, s') /\
    only_paths_changed s s' /\
    forall id,
      Dict.get (robot_paths s') id =
      match Dict.get d id with
      | Some p => Some (Some p)
      | None => Dict.get (robot_paths s) id
      end.
Proof.
  induction d as [|[k p] d IH]; intros Hnd s.
  - exists s. split; [reflexivity|]. split; [repeat split|]. reflexivity.
  - simpl in Hnd. inversion Hnd as [|? ? Hk Hnd']; subst.
    unfold Dict.items in *. simpl for_each. unfold bind at 1.
    unfold publish_path at 1. unfold bind at 1, modify at 1.
    unfold _send_path_to_robot at 1, ret at 1.
    destruct (IH Hnd' (with_robot_paths s (Dict.set (robot_paths s) k (Some p))))
      as (s' & Hrun & Hframe & Hget).
    exists s'. split; [exact Hrun|].
    split; [exact Hframe|].
    intros id. rewrite Hget. simpl Dict.get.
    destruct (String.eqb id k) eqn:E.
    + apply String.eqb_eq in E; subst id.
      apply get_None_keys in Hk. rewrite Hk.
      cbn [robot_paths with_robot_paths]. apply get_set_same.
    + destruct (Dict.get d id); [reflexivity|].
      cbn [robot_paths with_robot_paths]. apply get_set_other.
      apply String.eqb_neq in E. congruence.
Qed.

Lemma NoDup_not_in_later {A} (l : list A) k a :
  NoDup l -> nth_error l k = Some a -> ~ In a (skipn (S k) l).
Proof.
  intros Hnd. revert k. induction Hnd as [|b l Hb Hnd IH]; intros k Hnth.
  - destruct k; discriminate.
  - destruct k as [|k]; simpl in *.
    + now injection Hnth as <-.
    + now apply IH.
Qed.

Lemma coordinate_robots_run time_time s robot_ids task :
  registry_ok s ->
  NoDup robot_ids ->
  (forall id, In id robot_ids -> registered s id) ->
  exists s',
    coordinate_robots time_time robot_ids task s = (Ok true, s') /\
    forall i id,
      nth_error robot_ids i = Some id ->
      status_of s' id = Some COORDINATED /\
      exists p,
        Dict.get (robot_paths s') id = Some (Some p) /\
        path_robot_id p = id /\
        start_time p =
          time_time (clock_reads s + 12 * i + 11)%nat + INR i * 2 /\
        times p = map (fun t => t + INR i * 2) nominal_times.
Proof.
  intros Hok Hnd Hreg. unfold coordinate_robots, try_except.
  destruct (mark_coordinated_loop robot_ids s)
    as (s1 & Hmark & Hframe1 & Herase & Hstatus & _).
  unfold bind at 1. rewrite Hmark.
  destruct Hframe1 as (P1 & _ & _ & _ & _ & C1 & _).
  unfold bind at 1. unfold _generate_coordinated_paths, enumerate.
  destruct (coordinated_paths_loop_run time_time robot_ids 0 Dict.empty s1)
    as (paths & s2 & Hloop & Hframe2 & Hndp & _ & Hpaths).
  { intros id Hin. specialize (Hreg id Hin). split.
    - rewrite P1. now apply registry_ok_positions.
    - apply registered_info in Hreg as [info Hinfo].
      destruct (erase_status_get _ _ _ _ Herase Hinfo) as (info' & H' & _).
      eauto. }
  rewrite Hloop.
  destruct (publish_loop paths (Hndp (NoDup_nil _)) s2)
    as (s3 & Hpub & Hframe3 & Hget).
  unfold bind at 1. rewrite Hpub. unfold_m.
  eexists. split; [reflexivity|].
  intros i id Hnth.
  destruct Hframe2 as (R2 & _). destruct Hframe3 as (R3 & _).
  split.
  - unfold status_of. cbn [robots with_stats]. rewrite R3, R2.
    apply Hstatus; [eapply nth_error_In; eassumption|].
    apply Hreg. eapply nth_error_In; eassumption.
  - destruct (Hpaths i id Hnth (NoDup_not_in_later _ _ _ Hnd Hnth))
      as (p & Hp & Hid & Hstart & Htimes).
    exists p. cbn [robot_paths with_stats]. rewrite Hget, Hp.
    rewrite C1 in Hstart. simpl in Hstart, Htimes.
    repeat split; assumption.
Qed.

(** C8 (as amended). For a list of distinct registered robots the call
    returns [True], sets every listed robot to Coordinated and publishes one
    path per robot.  The path of the robot at index [i] has every
    time-from-start shifted by [2 * i] seconds, and its start time is the
    clock reading taken when that path was generated plus [2 * i] seconds:
    the stagger is exactly 2 seconds per robot on top of the generation
    times, which differ from robot to robot. *)
Theorem C8_coordinate_robots time_time s robot_ids task :
  registry_ok s ->
  NoDup robot_ids ->
  (forall id, In id robot_ids -> registered s id) ->
  exists s',
    coordinate_robots time_time robot_ids task s = (Ok true, s') /\
    forall i id,
      nth_error robot_ids i = Some id ->
      status_of s' id = Some COORDINATED /\
      exists p,
        Dict.get (robot_paths s') id = Some (Some p) /\
        path_robot_id p = id /\
        start_time p =
          time_time (clock_reads s + 12 * i + 11)%nat + INR i * 2 /\
        times p = map (fun t => t + INR i * 2) nominal_times.
Proof. exact (coordinate_robots_run time_time s robot_ids task). Qed.

Lemma demo_ids_registered :
  forall id, In id ["YASKAWA_01"; "ABB_01"] -> registered demo_system id.
Proof. intros id [<-|[<-|[]]]; reflexivity. Qed.

Lemma demo_ids_distinct : NoDup ["YASKAWA_01"; "ABB_01"].
Proof.
  repeat constructor; simpl; intuition discriminate.
Qed.

Lemma C8_coordinate_robots_witness :
  exists s',
    coordinate_robots demo_clock ["YASKAWA_01"; "ABB_01"]
      "Coordinated assembly operation" demo_system = (Ok true, s') /\
    status_of s' "ABB_01" = Some COORDINATED.
Proof.
  destruct (C8_coordinate_robots demo_clock demo_system
              ["YASKAWA_01"; "ABB_01"] "Coordinated assembly operation"
              registry_ok_demo_system demo_ids_distinct demo_ids_registered)
    as (s' & Hrun & Hall).
  exists s'. split; [exact Hrun|].
  exact (proj1 (Hall 1%nat "ABB_01" eq_refl)).
Defined.

(** C8 as stated fails on the start times: under a clock that advances by
    one millisecond per reading, the ABB robot's start time is 2.012 s, not
    2 s, after the Yaskawa robot's. *)
Lemma C8_counterexample :
  exists s' p0 p1,
    coordinate_robots demo_clock ["YASKAWA_01"; "ABB_01"]
      "Coordinated assembly operation" demo_system = (Ok true, s') /\
    Dict.get (robot_paths s') "YASKAWA_01" = Some (Some p0) /\
    Dict.get (robot_paths s') "ABB_01" = Some (Some p1) /\
    start_time p1 - start_time p0 = 2.012 /\
    start_time p1 <> start_time p0 + 2.
Proof.
  destruct (coordinate_robots_run demo_clock demo_system
              ["YASKAWA_01"; "ABB_01"] "Coordinated assembly operation"
              registry_ok_demo_system demo_ids_distinct demo_ids_registered)
    as (s' & Hrun & Hall).
  destruct (Hall 0%nat "YASKAWA_01" eq_refl) as (_ & p0 & Hp0 & _ & Hs0 & _).
  destruct (Hall 1%nat "ABB_01" eq_refl) as (_ & p1 & Hp1 & _ & Hs1 & _).
  exists s', p0, p1. do 3 (split; [assumption|]).
  change (clock_reads demo_system) with 4%nat in Hs0, Hs1.
  unfold demo_clock in Hs0, Hs1. simpl in Hs0, Hs1.
  rewrite Hs0, Hs1. split; lra.
Qed.

(** C10. When the list contains an unregistered id the call returns
    [False] and publishes no path: the table of paths is unchanged.  The
    call is not atomic: every registered robot of the list has been set to
    Coordinated before the failure and stays so. *)
Theorem C10_coordinate_unregistered time_time s robot_ids task :
  registry_ok s ->
  (exists id, In id robot_ids /\ ~ registered s id) ->
  exists s',
    coordinate_robots time_time robot_ids task s = (Ok false, s') /\
    robot_paths s' = robot_paths s /\
    stats s' = stats s /\
    forall id, In id robot_ids -> registered s id ->
               status_of s' id = Some COORDINATED.
Proof.
  intros Hok Hbad. unfold coordinate_robots, try_except.
  destruct (mark_coordinated_loop robot_ids s)
    as (s1 & Hmark & Hframe1 & Herase & Hstatus & _).
  unfold bind at 1. rewrite Hmark.
  destruct Hframe1 as (P1 & Q1 & _ & _ & S1 & _).
  unfold bind at 1. unfold _generate_coordinated_paths, enumerate.
  destruct (coordinated_paths_loop_raises time_time robot_ids 0 Dict.empty s1)
    as (s2 & Hloop & Hframe2).
  { rewrite P1, (erase_status_keys _ _ Herase). apply Hok. }
  { destruct Hbad as (bad & Hin & Hnot). exists bad. split; [assumption|].
    unfold registered in *.
    now rewrite mem_true_iff, (erase_status_keys _ _ Herase), <- mem_true_iff. }
  rewrite Hloop. unfold ret.
  exists s2. split; [reflexivity|].
  destruct Hframe2 as (R2 & _ & Q2 & _ & _ & S2 & _).
  split; [congruence|]. split; [congruence|].
  intros id Hin Hreg. unfold status_of. rewrite R2. now apply Hstatus.
Qed.

Lemma C10_coordinate_unregistered_witness :
  exists s',
    coordinate_robots demo_clock ["YASKAWA_01"; "KUKA_07"] "demo" demo_system
      = (Ok false, s') /\
    robot_paths s' = robot_paths demo_system /\
    status_of s' "YASKAWA_01" = Some COORDINATED.
Proof.
  destruct (C10_coordinate_unregistered demo_clock demo_system
              ["YASKAWA_01"; "KUKA_07"] "demo" registry_ok_demo_system)
    as (s' & Hrun & Hpaths & _ & Hstatus).
  - exists "KUKA_07". split; [simpl; auto | discriminate].
  - exists s'. split; [exact Hrun|]. split; [exact Hpaths|].
    apply Hstatus; [simpl; auto | reflexivity].
Defined.

(** * Further properties of the code *)

(** ** The collision check *)

Lemma distance_between_sym p q : distance_between p q = distance_between q p.
Proof. unfold distance_between. f_equal. ring. Qed.

Lemma check_robot_collision_missing s robot1_id robot2_id :
  Dict.get (robot_positions s) robot1_id = None \/
  Dict.get (robot_positions s) robot2_id = None \/
  Dict.get (robots s) robot1_id = None \/
  Dict.get (robots s) robot2_id = None ->
  _check_robot_collision robot1_id robot2_id s = (Raised KeyError, s).
Proof.
  intros H. unfold _check_robot_collision. unfold_m.
  destruct (Dict.get (robot_positions s) robot1_id); [|reflexivity].
  destruct (Dict.get (robot_positions s) robot2_id); [|reflexivity].
  destruct (Dict.get (robots s) robot1_id); [|reflexivity].
  destruct (Dict.get (robots s) robot2_id); [|reflexivity].
  destruct H as [H|[H|[H|H]]]; discriminate.
Qed.

(** X1. The collision check does not depend on the order of the two
    robots: it returns the same risk, or raises in both orders. *)
Theorem X1_check_robot_collision_symmetric s robot1_id robot2_id :
  fst (_check_robot_collision robot1_id robot2_id s) =
  fst (_check_robot_collision robot2_id robot1_id s).
Proof.
  destruct (Dict.get (robot_positions s) robot1_id) as [p1|] eqn:P1;
    [|rewrite !check_robot_collision_missing; auto].
  destruct (Dict.get (robot_positions s) robot2_id) as [p2|] eqn:P2;
    [|rewrite !check_robot_collision_missing; auto].
  destruct (Dict.get (robots s) robot1_id) as [i1|] eqn:I1;
    [|rewrite !check_robot_collision_missing; auto].
  destruct (Dict.get (robots s) robot2_id) as [i2|] eqn:I2;
    [|rewrite !check_robot_collision_missing; auto].
  rewrite (check_robot_collision_run s _ _ p1 p2 i1 i2),
          (check_robot_collision_run s _ _ p2 p1 i2 i1) by assumption.
  cbn [fst]. rewrite (distance_between_sym p1 p2).
  do 2 f_equal. ring.
Qed.

(** X2. In a consistent registry the collision check succeeds exactly for
    two registered robots; if either is unknown it raises [KeyError].  In
    both cases the system state is left as it was. *)
Theorem X2_check_robot_collision_errors s robot1_id robot2_id :
  registry_ok s ->
  (registered s robot1_id /\ registered s robot2_id ->
   exists risk, _check_robot_collision robot1_id robot2_id s = (Ok risk, s)) /\
  (~ (registered s robot1_id /\ registered s robot2_id) ->
   _check_robot_collision robot1_id robot2_id s = (Raised KeyError, s)).
Proof.
  intros Hok. split.
  - intros [H1 H2].
    destruct (registry_ok_positions _ _ Hok H1) as [p1 Hp1].
    destruct (registry_ok_positions _ _ Hok H2) as [p2 Hp2].
    apply registered_info in H1 as [i1 Hi1].
    apply registered_info in H2 as [i2 Hi2].
    rewrite (check_robot_collision_run _ _ _ _ _ _ _ Hp1 Hp2 Hi1 Hi2). eauto.
  - intros Hnot. apply check_robot_collision_missing.
    destruct (Dict.get (robots s) robot1_id) eqn:I1; [|auto].
    destruct (Dict.get (robots s) robot2_id) eqn:I2; [|auto].
    exfalso. apply Hnot. split; apply registered_info; eauto.
Qed.

Lemma X2_check_robot_collision_errors_witness :
  (exists risk,
     _check_robot_collision "YASKAWA_01" "ABB_01" demo_system
       = (Ok risk, demo_system)) /\
  _check_robot_collision "YASKAWA_01" "KUKA_07" demo_system
    = (Raised KeyError, demo_system).
Proof.
  split.
  - apply (X2_check_robot_collision_errors demo_system "YASKAWA_01" "ABB_01"
             registry_ok_demo_system).
    split; reflexivity.
  - apply (X2_check_robot_collision_errors demo_system "YASKAWA_01" "KUKA_07"
             registry_ok_demo_system).
    intros [_ H]. discriminate.
Defined.

Lemma distance_between_coincident p q :
  x p = x q -> y p = y q -> z p = z q -> distance_between p q = 0.
Proof.
  intros Hx Hy Hz. rewrite distance_between_along_x by assumption.
  rewrite Hx. replace (x q - x q) with 0 by ring. apply Rabs_R0.
Qed.

Lemma collision_risk_at_contact c : 0 < c -> collision_risk_at 0 c = 1.
Proof.
  intros Hc. rewrite collision_risk_at_near by assumption.
  unfold Rdiv. rewrite Rmult_0_l. simpl. ring.
Qed.

(** X3. Two registered robots whose positions coincide have risk exactly 1:
    the detection pass emits a CRITICAL event for the pair.  Registration
    places every robot at the origin, so this is the situation of any two
    robots registered and not yet moved. *)
Theorem X3_coincident_robots_critical
    time_time random_uniform s robot1_id robot2_id pos1 pos2 :
  registry_ok s ->
  In (robot1_id, robot2_id) (all_pairs (Dict.keys (robots s))) ->
  Dict.get (robot_positions s) robot1_id = Some pos1 ->
  Dict.get (robot_positions s) robot2_id = Some pos2 ->
  x pos1 = x pos2 -> y pos1 = y pos2 -> z pos1 = z pos2 ->
  _check_robot_collision robot1_id robot2_id s = (Ok 1, s) /\
  _classify_collision_zone 1 = CRITICAL /\
  exists s' new,
    collision_detection_pass time_time random_uniform s = (Ok tt, s') /\
    collision_events s' = collision_events s ++ new /\
    In (robot1_id, robot2_id, CRITICAL) (map event_key new).
Proof.
  intros Hok Hpair Hp1 Hp2 Hx Hy Hz.
  destruct (in_all_pairs _ _ _ Hpair) as [Hin1 Hin2].
  apply get_Some_keys in Hin1 as [i1 Hi1].
  apply get_Some_keys in Hin2 as [i2 Hi2].
  assert (Hrun : _check_robot_collision robot1_id robot2_id s = (Ok 1, s)).
  { rewrite (check_robot_collision_run _ _ _ _ _ _ _ Hp1 Hp2 Hi1 Hi2).
    rewrite (distance_between_coincident _ _ Hx Hy Hz).
    rewrite collision_risk_at_contact; [reflexivity|].
    destruct Hok as (_ & _ & _ & Hreach).
    rewrite (Hreach _ _ Hi1), (Hreach _ _ Hi2).
    pose proof (reach_radius_bounds (brand i1)).
    pose proof (reach_radius_bounds (brand i2)).
    unfold safety_margin. lra. }
  assert (Hzone : _classify_collision_zone 1 = CRITICAL).
  { unfold _classify_collision_zone. destruct (Rge_dec 1 0.8); [reflexivity|lra]. }
  split; [exact Hrun|]. split; [exact Hzone|].
  destruct (collision_detection_pass_run time_time random_uniform s Hok)
    as (s' & new & Hpass & _ & Hev & Hkey & _).
  exists s', new. split; [exact Hpass|]. split; [exact Hev|].
  rewrite Hkey. apply expected_events_spec; [assumption|].
  split; [assumption|]. exists 1. rewrite Hrun. cbn [fst].
  repeat split; [lra | now rewrite Hzone].
Qed.

Lemma X3_coincident_robots_critical_witness :
  _check_robot_collision "YASKAWA_01" "ABB_01" demo_system
    = (Ok 1, demo_system) /\
  exists s' new,
    collision_detection_pass demo_clock demo_uniform demo_system = (Ok tt, s') /\
    collision_events s' = new /\
    In ("YASKAWA_01", "ABB_01", CRITICAL) (map event_key new).
Proof.
  destruct (X3_coincident_robots_critical demo_clock demo_uniform demo_system
              "YASKAWA_01" "ABB_01"
              (mkRobotPosition 0 0 0 0 0 0 (demo_clock 1))
              (mkRobotPosition 0 0 0 0 0 0 (demo_clock 3))
              registry_ok_demo_system (or_introl eq_refl)
              eq_refl eq_refl eq_refl eq_refl eq_refl)
    as (Hrun & _ & s' & new & Hpass & Hev & Hin).
  split; [exact Hrun|]. exists s', new. repeat split; assumption.
Defined.

(** ** Counters of the detection pass *)

Lemma execute_collision_avoidance_action s event info1 info2 :
  Dict.get (robots s) (robot1_id event) = Some info1 ->
  Dict.get (robots s) (robot2_id event) = Some info2 ->
  fst (_execute_collision_avoidance event s) =
  Ok (match severity event with
      | CRITICAL => "emergency_stop_both"
      | DANGER =>
          if (brand_priority (brand info1) >? brand_priority (brand info2))%Z
          then ("stop_" ++ robot2_id event)%string
          else ("stop_" ++ robot1_id event)%string
      | WARNING => "slow_down_both"
      | _ => "monitor"
      end).
Proof.
  intros H1 H2. unfold _execute_collision_avoidance.
  destruct (severity event); try reflexivity.
  - unfold bind at 1. rewrite (get_robot_priority_run _ _ _ H1).
    unfold bind at 1. rewrite (get_robot_priority_run _ _ _ H2).
    destruct (brand_priority (brand info1) >? brand_priority (brand info2))%Z;
      unfold _stop_robot, bind;
      [rewrite (set_status_run _ _ _ _ H2) | rewrite (set_status_run _ _ _ _ H1)];
      reflexivity.
  - unfold _emergency_stop_robot, bind.
    rewrite (set_status_run _ _ _ _ H1).
    assert (exists info2',
              Dict.get (robots (with_robots s
                 (Dict.set (robots s) (robot1_id event)
                    (with_status info1 EMERGENCY_STOP)))) (robot2_id event)
              = Some info2') as [info2' H2'].
    { cbn [robots with_robots].
      destruct (string_dec (robot1_id event) (robot2_id event)) as [E|E].
      - rewrite <- E, get_set_same. eauto.
      - rewrite get_set_other by assumption. eauto. }
    rewrite (set_status_run _ _ _ _ H2'). reflexivity.
Qed.

Lemma handle_collision_risk_event time_time random_uniform s r1 r2 risk
    p1 p2 i1 i2 :
  Dict.get (robot_positions s) r1 = Some p1 ->
  Dict.get (robot_positions s) r2 = Some p2 ->
  Dict.get (robots s) r1 = Some i1 ->
  Dict.get (robots s) r2 = Some i2 ->
  exists s',
    _handle_collision_risk time_time random_uniform r1 r2 risk s = (Ok tt, s') /\
    collision_events s' =
      collision_events s ++
      [mkCollisionEvent
         (time_time (clock_reads s)) (time_time (S (clock_reads s))) r1 r2
         ((x p1 + x p2) / 2, (y p1 + y p2) / 2, (z p1 + z p2) / 2)
         (random_uniform (random_draws s) 1 5)
         (_classify_collision_zone risk)
         (match _classify_collision_zone risk with
          | CRITICAL => "emergency_stop_both"
          | DANGER =>
              if (brand_priority (brand i1) >? brand_priority (brand i2))%Z
              then ("stop_" ++ r2)%string else ("stop_" ++ r1)%string
          | WARNING => "slow_down_both"
          | _ => "monitor"
          end)] /\
    stats s' = bump_collisions_avoided (stats s) /\
    clock_reads s' = S (S (clock_reads s)) /\
    random_draws s' = S (random_draws s) /\
    collision_objects s' = collision_objects s.
Proof.
  intros Hp1 Hp2 Hi1 Hi2.
  unfold _handle_collision_risk, _calculate_collision_point,
    _estimate_time_to_collision.
  unfold_m. unfold with_clock_reads, with_random_draws.
  cbn -[_execute_collision_avoidance _classify_collision_zone].
  rewrite Hp1.
  cbn -[_execute_collision_avoidance _classify_collision_zone].
  rewrite Hp2.
  cbn -[_execute_collision_avoidance _classify_collision_zone].
  match goal with
  | |- context [_execute_collision_avoidance ?e ?t] =>
      pose proof (execute_collision_avoidance_action t e i1 i2 Hi1 Hi2) as Hact;
      destruct (execute_collision_avoidance_run t e i1 i2 Hi1 Hi2)
        as (action & s1 & Hrun & Hframe & _);
      rewrite Hrun in Hact |- *
  end.
  destruct Hframe as (F1 & F2 & F3 & F4 & F5 & F6 & F7).
  cbn [fst robot1_id robot2_id severity robot_positions robot_paths
       collision_events robots stats clock_reads random_draws
       collision_objects] in *.
  injection Hact as ->.
  eexists. split; [reflexivity|].
  unfold with_stats, with_collision_events.
  cbn [collision_events stats clock_reads random_draws collision_objects].
  rewrite F4, F5, F6, F7, F3. repeat split.
Qed.

(** X4. Handling a risk for two registered robots appends exactly one event
    to the log.  The event carries the two ids in the order given, the
    midpoint of the two positions as collision point, the zone of the risk
    as severity and the action the executor returned for that zone; the
    time to collision is the random draw, hence between 1 and 5 seconds
    when the generator respects its bounds.  The counter of avoided
    collisions grows by one. *)
Theorem X4_recorded_event time_time random_uniform s r1 r2 risk
    pos1 pos2 info1 info2 :
  Dict.get (robot_positions s) r1 = Some pos1 ->
  Dict.get (robot_positions s) r2 = Some pos2 ->
  Dict.get (robots s) r1 = Some info1 ->
  Dict.get (robots s) r2 = Some info2 ->
  (forall n, 1 <= random_uniform n 1 5 <= 5) ->
  exists e s',
    _handle_collision_risk time_time random_uniform r1 r2 risk s
      = (Ok tt, s') /\
    collision_events s' = collision_events s ++ [e] /\
    robot1_id e = r1 /\ robot2_id e = r2 /\
    collision_point e =
      ((x pos1 + x pos2) / 2, (y pos1 + y pos2) / 2, (z pos1 + z pos2) / 2) /\
    1 <= time_to_collision e <= 5 /\
    severity e = _classify_collision_zone risk /\
    avoidance_action e =
      match _classify_collision_zone risk with
      | CRITICAL => "emergency_stop_both"
      | DANGER =>
          if (brand_priority (brand info1) >? brand_priority (brand info2))%Z
          then ("stop_" ++ r2)%string else ("stop_" ++ r1)%string
      | WARNING => "slow_down_both"
      | _ => "monitor"
      end /\
    total_collisions_avoided (stats s') = (total_collisions_avoided (stats s) + 1)%Z.
Proof.
  intros Hp1 Hp2 Hi1 Hi2 Hbounds.
  destruct (handle_collision_risk_event time_time random_uniform s _ _ risk
              _ _ _ _ Hp1 Hp2 Hi1 Hi2)
    as (s' & Hrun & Hev & Hstats & _).
  eexists. exists s'. split; [exact Hrun|]. split; [exact Hev|].
  cbn [robot1_id robot2_id collision_point time_to_collision severity
       avoidance_action].
  rewrite Hstats. repeat split; auto; apply Hbounds.
Qed.

Lemma demo_uniform_bounds n : 1 <= demo_uniform n 1 5 <= 5.
Proof. unfold demo_uniform. lra. Qed.

Lemma X4_recorded_event_witness :
  exists e s',
    _handle_collision_risk demo_clock demo_uniform "YASKAWA_01" "ABB_01" 0.6
      demo_system = (Ok tt, s') /\
    collision_events s' = [e] /\
    avoidance_action e = "stop_ABB_01".
Proof.
  destruct (X4_recorded_event demo_clock demo_uniform demo_system
              "YASKAWA_01" "ABB_01" 0.6
              (mkRobotPosition 0 0 0 0 0 0 (demo_clock 1))
              (mkRobotPosition 0 0 0 0 0 0 (demo_clock 3))
              (mkRobotInfo "YASKAWA_01" YASKAWA "192.168.1.110"
                 (-2000, -2000, 2000, 2000) IDLE (demo_clock 0) true 1500)
              (mkRobotInfo "ABB_01" ABB "192.168.1.120"
                 (1000, -2000, 4000, 2000) IDLE (demo_clock 2) true 1600)
              eq_refl eq_refl eq_refl eq_refl demo_uniform_bounds)
    as (e & s' & Hrun & Hev & _ & _ & _ & _ & _ & Hact & _).
  exists e, s'. split; [exact Hrun|]. split; [exact Hev|].
  rewrite Hact. unfold _classify_collision_zone.
  destruct (Rge_dec 0.6 0.8); [lra|].
  destruct (Rge_dec 0.6 0.5); [reflexivity | lra].
Defined.

Lemma scan_loop_counters time_time random_uniform s0
    (ps : list (string * string)) :
  registry_ok s0 ->
  (forall p, In p ps -> registered s0 (fst p) /\ registered s0 (snd p)) ->
  forall s, same_geometry s0 s ->
  exists s',
    for_each ps (fun p =>
      risk <- _check_robot_collision (fst p) (snd p) ;;
      if Rgt_dec risk 0.1
      then _handle_collision_risk time_time random_uniform (fst p) (snd p) risk
      else ret tt) s = (Ok tt, s') /\
    let k := List.length (filter (emits s0) ps) in
    total_collisions_avoided (stats s') =
      (total_collisions_avoided (stats s) + Z.of_nat k)%Z /\
    path_replanning_events (stats s') = path_replanning_events (stats s) /\
    robots_coordinated (stats s') = robots_coordinated (stats s) /\
    safety_violations (stats s') = safety_violations (stats s) /\
    average_detection_time_ms (stats s') = average_detection_time_ms (stats s) /\
    clock_reads s' = (clock_reads s + 2 * k)%nat /\
    random_draws s' = (random_draws s + k)%nat /\
    collision_objects s' = collision_objects s.
Proof.
  intros Hok. induction ps as [|[r1 r2] ps IH]; intros Hreg s Hgeo.
  - exists s. split; [reflexivity|]. simpl. rewrite Z.add_0_r, !Nat.add_0_r.
    repeat split.
  - simpl for_each. unfold bind at 1. unfold bind at 1. cbn [fst snd].
    rewrite (check_robot_collision_same_geometry s0 s r1 r2 Hgeo).
    destruct (Hreg (r1, r2) (or_introl eq_refl)) as [Hr1 Hr2]. cbn [fst snd] in *.
    destruct (risk_of_registered s0 r1 r2 Hok Hr1 Hr2) as [risk Hrisk].
    rewrite Hrisk.
    assert (Hreg' : forall p, In p ps -> registered s0 (fst p) /\ registered s0 (snd p))
      by (intros p Hp; apply Hreg; now right).
    simpl filter.
    destruct (Rgt_dec risk 0.1) as [Hgt|Hle].
    + assert (Hem : emits s0 (r1, r2) = true).
      { unfold emits. rewrite Hrisk. destruct (Rgt_dec risk 0.1); tauto. }
      rewrite Hem.
      destruct (registry_ok_positions _ _ Hok Hr1) as [p1 Hp1].
      destruct (registry_ok_positions _ _ Hok Hr2) as [p2 Hp2].
      apply registered_info in Hr1 as [i1 Hi1].
      apply registered_info in Hr2 as [i2 Hi2].
      pose proof Hgeo as (G1 & G2 & G3).
      destruct (erase_status_get _ _ _ _ G3 Hi1) as (i1' & Hi1' & _).
      destruct (erase_status_get _ _ _ _ G3 Hi2) as (i2' & Hi2' & _).
      rewrite <- G1 in Hp1, Hp2.
      destruct (handle_collision_risk_run time_time random_uniform s r1 r2 risk
                  p1 p2 i1' i2' Hp1 Hp2 Hi1' Hi2')
        as (ev & s1 & Hrun & _ & _ & Hg1 & _).
      destruct (handle_collision_risk_event time_time random_uniform s r1 r2 risk
                  p1 p2 i1' i2' Hp1 Hp2 Hi1' Hi2')
        as (s1' & Hrun' & _ & Hstats & Hclock & Hdraws & Hobj).
      rewrite Hrun in Hrun'. injection Hrun' as <-.
      rewrite Hrun.
      destruct (IH Hreg' s1) as (s' & Hloop & H1 & H2 & H3 & H4 & H5 & H6 & H7 & H8).
      { eapply same_geometry_trans; [exact Hgeo | exact Hg1]. }
      exists s'. split; [exact Hloop|].
      cbn [List.length]. rewrite H1, H2, H3, H4, H5, H6, H7, H8.
      rewrite Hstats, Hclock, Hdraws, Hobj.
      unfold bump_collisions_avoided.
      cbn [total_collisions_avoided path_replanning_events robots_coordinated
           safety_violations average_detection_time_ms].
      rewrite Nat2Z.inj_succ.
      repeat split; try reflexivity; lia.
    + assert (Hem : emits s0 (r1, r2) = false).
      { unfold emits. rewrite Hrisk. destruct (Rgt_dec risk 0.1); tauto. }
      rewrite Hem. unfold ret at 1. apply (IH Hreg' s Hgeo).
Qed.

Lemma detection_pass_counters_run time_time random_uniform s :
  registry_ok s ->
  exists s',
    collision_detection_pass time_time random_uniform s = (Ok tt, s') /\
    let k := List.length (expected_events s) in
    List.length (collision_events s') = (List.length (collision_events s) + k)%nat /\
    total_collisions_avoided (stats s') =
      (total_collisions_avoided (stats s) + Z.of_nat k)%Z /\
    path_replanning_events (stats s') = path_replanning_events (stats s) /\
    robots_coordinated (stats s') = robots_coordinated (stats s) /\
    safety_violations (stats s') = safety_violations (stats s) /\
    clock_reads s' = (clock_reads s + 2 + 2 * k)%nat /\
    random_draws s' = (random_draws s + k)%nat /\
    average_detection_time_ms (stats s') =
      average_detection_time_ms (stats s) * 0.9 +
      (time_time (clock_reads s + 1 + 2 * k)%nat - time_time (clock_reads s))
        * 1000 * 0.1.
Proof.
  intros Hok.
  destruct (collision_detection_pass_run time_time random_uniform s Hok)
    as (s' & new & Hpass & _ & Hev & Hkey & _).
  exists s'. split; [exact Hpass|].
  assert (Hlen : List.length new = List.length (expected_events s))
    by (rewrite <- Hkey; now rewrite length_map).
  cbn zeta. rewrite <- Hlen.
  revert Hpass. unfold collision_detection_pass, try_except.
  unfold bind at 1, read_clock at 1.
  set (s1 := with_clock_reads s (S (clock_reads s))).
  unfold bind at 1.
  destruct (update_collision_objects_run s1 Hok)
    as (s2 & Hupd & R2 & P2 & Q2 & E2 & S2 & C2 & D2).
  rewrite Hupd. unfold bind at 1, gets at 1. unfold bind at 1.
  unfold scan_pairs. rewrite for_pairs_all_pairs.
  destruct (scan_loop_counters time_time random_uniform s
              (all_pairs (Dict.keys (robots s))) Hok) with (s := s2)
    as (s3 & Hscan & H1 & H2 & H3 & H4 & H5 & H6 & H7 & _).
  { intros [a b] Hin. apply in_all_pairs in Hin.
    unfold registered. cbn [fst snd]. now rewrite !mem_true_iff. }
  { repeat split; [rewrite P2 | rewrite Q2 | rewrite R2]; reflexivity. }
  rewrite R2. change (robots s1) with (robots s).
  rewrite Hscan. unfold_m. cbn [fst snd].
  intros [= <-].
  cbn [collision_events with_stats with_clock_reads] in Hev.
  cbn [stats clock_reads random_draws collision_events with_stats
       with_clock_reads total_collisions_avoided path_replanning_events
       robots_coordinated safety_violations average_detection_time_ms].
  fold (expected_events s) in H1, H6, H7.
  unfold expected_events in Hlen. rewrite length_map in Hlen.
  rewrite <- Hlen in H1, H6, H7.
  rewrite H1, H2, H3, H4, H5, H6, H7, S2, C2, D2, Hev, length_app.
  subst s1. cbn [clock_reads with_clock_reads].
  repeat split; try lia.
  do 3 f_equal. f_equal. f_equal. lia.
Qed.

(** X5. A detection pass over a consistent registry emits one event per
    pair whose risk exceeds 0.1 and counts each of them: with [k] such
    pairs the log grows by [k] entries, the counter of avoided collisions by
    [k], the clock is read [2 + 2k] times and the random generator [k]
    times.  The other counters are untouched, and the average detection
    time becomes nine tenths of the old average plus one tenth of the
    milliseconds between the first and the last clock reading of the pass. *)
Theorem X5_detection_pass_counters time_time random_uniform s :
  registry_ok s ->
  exists s',
    collision_detection_pass time_time random_uniform s = (Ok tt, s') /\
    let k := List.length (expected_events s) in
    List.length (collision_events s') = (List.length (collision_events s) + k)%nat /\
    total_collisions_avoided (stats s') =
      (total_collisions_avoided (stats s) + Z.of_nat k)%Z /\
    path_replanning_events (stats s') = path_replanning_events (stats s) /\
    robots_coordinated (stats s') = robots_coordinated (stats s) /\
    safety_violations (stats s') = safety_violations (stats s) /\
    clock_reads s' = (clock_reads s + 2 + 2 * k)%nat /\
    random_draws s' = (random_draws s + k)%nat /\
    average_detection_time_ms (stats s') =
      average_detection_time_ms (stats s) * 0.9 +
      (time_time (clock_reads s + 1 + 2 * k)%nat - time_time (clock_reads s))
        * 1000 * 0.1.
Proof. exact (detection_pass_counters_run time_time random_uniform s). Qed.

Lemma X5_detection_pass_counters_witness :
  exists s',
    collision_detection_pass demo_clock demo_uniform grazing_system
      = (Ok tt, s') /\
    total_collisions_avoided (stats s') = 1%Z /\
    clock_reads s' = 8%nat.
Proof.
  destruct (X5_detection_pass_counters demo_clock demo_uniform grazing_system
              registry_ok_grazing_system)
    as (s' & Hrun & _ & Htotal & _ & _ & _ & Hclock & _).
  rewrite expected_events_grazing_system in Htotal, Hclock.
  exists s'. split; [exact Hrun|]. split; [exact Htotal | exact Hclock].
Defined.

(** ** Collision objects *)

Lemma object_key_injective a b :
  ("robot_" ++ a)%string = ("robot_" ++ b)%string -> a = b.
Proof. simpl. now intros [= ->]. Qed.

Lemma get_Some_in {V} (d : Dict.t V) k v :
  Dict.get d k = Some v -> In (k, v) (Dict.items d).
Proof.
  unfold Dict.items. induction d as [|[k' v'] d IH]; simpl; [discriminate|].
  destruct (String.eqb k k') eqn:E.
  - apply String.eqb_eq in E. intros [= ->]. left. now subst.
  - intros H. right. now apply IH.
Qed.

Lemma update_objects_loop_spec s0 (l : list (string * RobotPosition)) :
  NoDup (map fst l) ->
  (forall e, In e l -> In (fst e) (Dict.keys (robots s0))) ->
  forall s, only_objects_changed s0 s ->
  exists s',
    for_each l (fun '(robot_id, p) =>
      info <- lookup robots robot_id ;;
      let reach := reach_radius info in
      let collision_obj :=
        mkCollisionObject ("robot_" ++ robot_id)%string (x p, y p, z p)
                          (reach * 2, reach * 2, 2000) (0, 0, 0)
                          true robot_id 1 (timestamp p) in
      modify (fun s => with_collision_objects s
                (Dict.set (collision_objects s) ("robot_" ++ robot_id)%string
                          collision_obj))) s = (Ok tt, s') /\
    only_objects_changed s0 s' /\
    (forall robot_id p info,
       In (robot_id, p) l -> Dict.get (robots s0) robot_id = Some info ->
       Dict.get (collision_objects s') ("robot_" ++ robot_id)%string =
       Some (mkCollisionObject ("robot_" ++ robot_id)%string (x p, y p, z p)
               (reach_radius info * 2, reach_radius info * 2, 2000) (0, 0, 0)
               true robot_id 1 (timestamp p))) /\
    (forall k, (forall e, In e l -> k <> ("robot_" ++ fst e)%string) ->
               Dict.get (collision_objects s') k = Dict.get (collision_objects s) k).
Proof.
  induction l as [|[robot_id p] l IH]; intros Hnd Hin s Hs.
  - exists s. split; [reflexivity|]. split; [assumption|].
    split; [intros ? ? ? []|reflexivity].
  - simpl in Hnd. inversion Hnd as [|? ? Hfresh Hnd']; subst.
    simpl for_each. unfold bind at 1. unfold bind at 1. unfold lookup at 1.
    pose proof Hs as (H1 & H2 & H3 & H4 & H5 & H6 & H7).
    destruct (proj1 (get_Some_keys (robots s0) robot_id)
                (Hin _ (or_introl eq_refl))) as [info Hinfo].
    rewrite H1, Hinfo. unfold modify at 1.
    match goal with
    | |- context [for_each l _ ?t] =>
        destruct (IH Hnd' (fun e He => Hin e (or_intror He)) t)
          as (s' & Hrun & Hframe & Hset & Hkeep)
    end.
    { repeat split; assumption. }
    exists s'. split; [exact Hrun|]. split; [exact Hframe|]. split.
    + intros id q info' [[= <- <-]|Hl] Hinfo'.
      * rewrite Hkeep.
        -- cbn [collision_objects with_collision_objects].
           rewrite get_set_same. rewrite Hinfo in Hinfo'.
           injection Hinfo' as <-. reflexivity.
        -- intros e He Heq. apply object_key_injective in Heq. subst.
           apply Hfresh. now apply in_map.
      * now apply Hset.
    + intros k Hk. rewrite Hkeep by (intros e He; apply Hk; now right).
      cbn [collision_objects with_collision_objects].
      apply get_set_other. intros E. apply (Hk (robot_id, p)); [now left|].
      symmetry. exact E.
Qed.

(** X6. Refreshing the collision objects of a consistent registry cannot
    fail.  Afterwards every registered robot has the object robot_<id>: a
    cylinder placed at the robot's current position, two reach radii wide
    and 2000 mm high, at rest, with confidence 1.  Objects under other keys
    are kept, and nothing but the table of collision objects changes. *)
Theorem X6_collision_objects_refreshed s :
  registry_ok s ->
  exists s',
    _update_collision_objects s = (Ok tt, s') /\
    only_objects_changed s s' /\
    (forall robot_id p info,
       Dict.get (robot_positions s) robot_id = Some p ->
       Dict.get (robots s) robot_id = Some info ->
       Dict.get (collision_objects s') ("robot_" ++ robot_id)%string =
       Some (mkCollisionObject ("robot_" ++ robot_id)%string (x p, y p, z p)
               (reach_radius info * 2, reach_radius info * 2, 2000) (0, 0, 0)
               true robot_id 1 (timestamp p))) /\
    (forall k, (forall robot_id, registered s robot_id ->
                                 k <> ("robot_" ++ robot_id)%string) ->
               Dict.get (collision_objects s') k = Dict.get (collision_objects s) k).
Proof.
  intros (Hnd & Hpos & _). unfold _update_collision_objects.
  unfold bind at 1, gets at 1.
  destruct (update_objects_loop_spec s (Dict.items (robot_positions s)))
    with (s := s) as (s' & Hrun & Hframe & Hset & Hkeep).
  - change (map fst (Dict.items (robot_positions s)))
      with (Dict.keys (robot_positions s)). now rewrite Hpos.
  - intros e He. rewrite <- Hpos. now apply in_keys_items.
  - repeat split.
  - exists s'. split; [exact Hrun|]. split; [exact Hframe|]. split.
    + intros id p info Hp Hi. apply Hset; [now apply get_Some_in | assumption].
    + intros k Hk. apply Hkeep. intros e He. apply Hk.
      apply mem_true_iff. rewrite <- Hpos. now apply in_keys_items.
Qed.

Lemma X6_collision_objects_refreshed_witness :
  exists s',
    _update_collision_objects grazing_system = (Ok tt, s') /\
    option_map co_position (Dict.get (collision_objects s') "robot_ABB_01")
      = Some (3000, 0, 0) /\
    option_map dimensions (Dict.get (collision_objects s') "robot_ABB_01")
      = Some (1600 * 2, 1600 * 2, 2000).
Proof.
  destruct (X6_collision_objects_refreshed grazing_system
              registry_ok_grazing_system)
    as (s' & Hrun & _ & Hset & _).
  exists s'. split; [exact Hrun|].
  pose proof (Hset "ABB_01" (mkRobotPosition 3000 0 0 0 0 0 1001)
                (mkRobotInfo "ABB_01" ABB "192.168.1.120"
                   (1000, -2000, 4000, 2000) IDLE (demo_clock 2) true 1600)
                eq_refl eq_refl) as Hobj.
  cbn [String.append] in Hobj. rewrite Hobj.
  split; reflexivity.
Defined.

(** ** Executor, registration and shutdown *)

(** X7. For a WARNING, SAFE or BLOCKED event the executor changes nothing
    in the system and cannot fail, even for ids that are not registered: it
    only returns the action tag, slow_down_both for WARNING and monitor
    otherwise.  The speed reduction of the WARNING branch leaves no trace in
    the state. *)
Theorem X7_executor_without_effect s event :
  severity event <> CRITICAL -> severity event <> DANGER ->
  _execute_collision_avoidance event s =
  (Ok (match severity event with
       | WARNING => "slow_down_both"
       | _ => "monitor"
       end), s).
Proof.
  intros Hc Hd. unfold _execute_collision_avoidance.
  destruct (severity event); try reflexivity; contradiction.
Qed.

Lemma X7_executor_without_effect_witness :
  _execute_collision_avoidance
    (mkCollisionEvent 0 0 "KUKA_07" "KUKA_08" (0, 0, 0) 1 WARNING "") init
  = (Ok "slow_down_both", init).
Proof.
  apply (X7_executor_without_effect init
           (mkCollisionEvent 0 0 "KUKA_07" "KUKA_08" (0, 0, 0) 1 WARNING ""));
    discriminate.
Defined.

(** X8. Registering an id that is not yet present returns [True] and
    appends the id at the end of the registry order of all three per-robot
    tables.  The new robot is Idle, connected, at the origin and without a
    path; every other robot's entry, position and path are untouched, and
    the clock has been read twice. *)
Theorem X8_register_fresh time_time s robot_id b ip workspace :
  registry_ok s -> ~ registered s robot_id ->
  exists s',
    register_robot time_time robot_id b ip workspace s = (Ok true, s') /\
    Dict.keys (robots s') = Dict.keys (robots s) ++ [robot_id] /\
    Dict.keys (robot_positions s') = Dict.keys (robots s') /\
    Dict.keys (robot_paths s') = Dict.keys (robots s') /\
    Dict.get (robots s') robot_id =
      Some (mkRobotInfo robot_id b ip workspace IDLE
              (time_time (clock_reads s)) true (_calculate_reach_radius b)) /\
    Dict.get (robot_positions s') robot_id =
      Some (mkRobotPosition 0 0 0 0 0 0 (time_time (S (clock_reads s)))) /\
    Dict.get (robot_paths s') robot_id = Some None /\
    (forall other, other <> robot_id ->
       Dict.get (robots s') other = Dict.get (robots s) other /\
       Dict.get (robot_positions s') other = Dict.get (robot_positions s) other /\
       Dict.get (robot_paths s') other = Dict.get (robot_paths s) other) /\
    clock_reads s' = S (S (clock_reads s)) /\
    collision_events s' = collision_events s /\ stats s' = stats s.
Proof.
  intros (Hnd & Hpos & Hpaths & _) Hfresh.
  eexists. split; [apply register_robot_run|].
  cbn [robots robot_positions robot_paths clock_reads collision_events stats].
  assert (Hnin : ~ In robot_id (Dict.keys (robots s)))
    by (intros H; apply Hfresh; now apply mem_true_iff).
  rewrite !get_set_same.
  rewrite !keys_set_fresh by congruence. rewrite Hpos, Hpaths.
  repeat split; apply get_set_other; congruence.
Qed.

Lemma X8_register_fresh_witness :
  exists s',
    register_robot demo_clock "KUKA_07" UNKNOWN "192.168.1.130"
      (0, 0, 1000, 1000) demo_system = (Ok true, s') /\
    Dict.keys (robots s') = ["YASKAWA_01"; "ABB_01"; "KUKA_07"].
Proof.
  destruct (X8_register_fresh demo_clock demo_system "KUKA_07" UNKNOWN
              "192.168.1.130" (0, 0, 1000, 1000) registry_ok_demo_system)
    as (s' & Hrun & Hkeys & _).
  - discriminate.
  - exists s'. split; [exact Hrun | exact Hkeys].
Defined.

Lemma stop_all_loop (ids : list string) s :
  (forall id, In id ids -> registered s id) ->
  exists s',
    for_each ids _stop_robot s = (Ok tt, s') /\
    only_robots_changed s s' /\
    erase_status (robots s') = erase_status (robots s) /\
    (forall id, In id ids -> status_of s' id = Some WAITING) /\
    (forall id, ~ In id ids -> Dict.get (robots s') id = Dict.get (robots s) id).
Proof.
  revert s. induction ids as [|a ids IH]; intros s Hreg.
  - exists s. split; [reflexivity|].
    split; [apply only_robots_changed_refl|]. repeat split; auto.
    intros id [].
  - simpl for_each. unfold bind at 1. unfold _stop_robot at 1.
    destruct (proj1 (registered_info s a) (Hreg a (or_introl eq_refl)))
      as [info Hget].
    rewrite (set_status_run _ _ _ _ Hget).
    set (s1 := with_robots s (Dict.set (robots s) a (with_status info WAITING))).
    assert (Hkeys : Dict.keys (robots s1) = Dict.keys (robots s)).
    { unfold s1. cbn [robots with_robots]. apply keys_set_present.
      apply get_Some_keys. eauto. }
    destruct (IH s1) as (s' & Hrun & Hframe & Herase & Hstop & Hother).
    { intros id Hin. unfold registered. rewrite mem_true_iff, Hkeys.
      apply mem_true_iff. apply Hreg. now right. }
    exists s'. split; [exact Hrun|].
    split; [exact Hframe|].
    split; [rewrite Herase; now apply erase_status_set|].
    split.
    + intros id Hin.
      destruct (in_dec string_dec id ids) as [Hin'|Hnin]; [now apply Hstop|].
      destruct Hin as [<-|Hin]; [|contradiction].
      unfold status_of. rewrite (Hother a Hnin).
      unfold s1. cbn [robots with_robots]. now rewrite get_set_same.
    + intros id Hnin. rewrite Hother by (intros H; apply Hnin; now right).
      unfold s1. cbn [robots with_robots]. apply get_set_other.
      intros ->. apply Hnin. now left.
Qed.

(** X9. The stop loop of [shutdown] cannot fail and leaves every
    registered robot Waiting, whatever its status was: a robot in
    EmergencyStop is moved to Waiting as well.  Positions, paths, the event
    log and the statistics are untouched, and so is everything in the
    registry entries but the status. *)
Theorem X9_shutdown_stops_all s :
  exists s',
    shutdown s = (Ok tt, s') /\
    only_robots_changed s s' /\
    erase_status (robots s') = erase_status (robots s) /\
    forall robot_id, registered s robot_id ->
                     status_of s' robot_id = Some WAITING.
Proof.
  unfold shutdown. unfold bind at 1, gets at 1.
  destruct (stop_all_loop (Dict.keys (robots s)) s)
    as (s' & Hrun & Hframe & Herase & Hstop & _).
  - intros id Hin. now apply mem_true_iff.
  - exists s'. repeat split; try assumption; try apply Hframe.
    intros id Hreg. apply Hstop. now apply mem_true_iff.
Qed.

(** ** Replanning *)

Lemma sample_points_geometry time_time pos (l : list nat) s :
  exists pts s',
    map_m (sample_point time_time pos) l s = (Ok pts, s') /\
    map (fun pt => (x (position pt), y (position pt), z (position pt)))  pts =
      map (fun i => (x pos + INR i / 9 * 100, y pos + INR i / 9 * 100, z pos)) l /\
    Forall (fun pt =>
              rx (position pt) = rx pos /\ ry (position pt) = ry pos /\
              rz (position pt) = rz pos /\ velocity pt = 500 /\
              acceleration pt = 100 /\ collision_risk pt = 0) pts.
Proof.
  revert s. induction l as [|i l IH]; intros s.
  - exists [], s. simpl. repeat split. constructor.
  - simpl map_m. unfold bind at 1. unfold sample_point at 1.
    unfold bind at 1, read_clock at 1, ret at 1.
    destruct (IH (with_clock_reads s (S (clock_reads s))))
      as (pts & s' & Hrun & Hgeo & Hall).
    unfold bind at 1. rewrite Hrun. unfold ret.
    eexists. exists s'. split; [reflexivity|].
    split; [simpl; now rewrite Hgeo|].
    constructor; [simpl; repeat split | exact Hall].
Qed.

Lemma generate_safe_path_geometry time_time robot_id s pos info :
  Dict.get (robot_positions s) robot_id = Some pos ->
  Dict.get (robots s) robot_id = Some info ->
  exists path s',
    _generate_safe_path time_time robot_id s = (Ok path, s') /\
    map (fun pt => (x (position pt), y (position pt), z (position pt)))
        (points path) =
      map (fun i => (x pos + INR i / 9 * 100, y pos + INR i / 9 * 100, z pos))
          (seq 0 10) /\
    Forall (fun pt =>
              rx (position pt) = rx pos /\ ry (position pt) = ry pos /\
              rz (position pt) = rz pos /\ velocity pt = 500 /\
              acceleration pt = 100 /\ collision_risk pt = 0) (points path).
Proof.
  intros Hpos Hinfo.
  destruct (generate_safe_path_run time_time robot_id s pos info Hpos Hinfo)
    as (path & s' & Hrun & _).
  exists path, s'. split; [exact Hrun|].
  revert Hrun. unfold _generate_safe_path.
  unfold bind at 1, lookup at 1. rewrite Hpos.
  destruct (sample_points_geometry time_time pos (seq 0 10) s)
    as (pts & s1 & Hpts & Hgeo & Hall).
  unfold bind at 1. rewrite Hpts.
  unfold bind at 1, read_clock at 1. unfold bind at 1.
  destruct (_get_robot_priority robot_id _) as [[prio|e] s2]; [|discriminate].
  unfold bind, read_clock, ret. intros [= <- _]. cbn [points].
  split; assumption.
Qed.

Lemma replan_robot_path_run time_time robot_id s pos info :
  Dict.get (robot_positions s) robot_id = Some pos ->
  Dict.get (robots s) robot_id = Some info ->
  exists path s1 s',
    _generate_safe_path time_time robot_id s = (Ok path, s1) /\
    _replan_robot_path time_time robot_id s = (Ok tt, s') /\
    robots s' = robots s /\
    robot_positions s' = robot_positions s /\
    robot_paths s' = Dict.set (robot_paths s) robot_id (Some path) /\
    collision_objects s' = collision_objects s /\
    collision_events s' = collision_events s /\
    stats s' = bump_replanning_events (stats s) /\
    clock_reads s' = (clock_reads s + 12)%nat /\
    random_draws s' = random_draws s.
Proof.
  intros Hpos Hinfo.
  destruct (generate_safe_path_run time_time robot_id s pos info Hpos Hinfo)
    as (path & s1 & Hrun & (F1 & F2 & F3 & F4 & F5 & F6 & F7) & Hclock & _).
  exists path, s1. eexists. split; [exact Hrun|].
  unfold _replan_robot_path. unfold bind at 1. rewrite Hrun.
  unfold _send_path_to_robot. unfold_m. split; [reflexivity|].
  cbn [robots robot_positions robot_paths collision_objects collision_events
       stats clock_reads random_draws with_stats with_robot_paths].
  rewrite F1, F2, F3, F4, F5, F6, F7, Hclock. repeat split.
Qed.

(** X10. Replanning for a registered robot cannot fail.  It replaces the
    robot's path by a freshly generated one: ten points on the straight
    line from the robot's current position to the point 100 mm further in x
    and in y, at the same height and orientation, with times from 0 to the
    total duration of 2 seconds, active, and carrying the robot's priority.
    The counter of replanning events grows by one; the paths of the other
    robots, the registry and the positions are untouched. *)
Theorem X10_replan_installs_fresh_path time_time s robot_id pos info :
  Dict.get (robot_positions s) robot_id = Some pos ->
  Dict.get (robots s) robot_id = Some info ->
  exists path s',
    _replan_robot_path time_time robot_id s = (Ok tt, s') /\
    Dict.get (robot_paths s') robot_id = Some (Some path) /\
    path_robot_id path = robot_id /\
    is_active path = true /\
    priority path = brand_priority (brand info) /\
    total_duration path = 2 /\
    times path = nominal_times /\
    map (fun pt => (x (position pt), y (position pt), z (position pt)))
        (points path) =
      map (fun i => (x pos + INR i / 9 * 100, y pos + INR i / 9 * 100, z pos))
          (seq 0 10) /\
    (forall other, other <> robot_id ->
       Dict.get (robot_paths s') other = Dict.get (robot_paths s) other) /\
    path_replanning_events (stats s') = (path_replanning_events (stats s) + 1)%Z /\
    robots s' = robots s /\ robot_positions s' = robot_positions s.
Proof.
  intros Hpos Hinfo.
  destruct (replan_robot_path_run time_time robot_id s pos info Hpos Hinfo)
    as (path & s1 & s' & Hgen & Hrun & Hrob & Hp & Hpaths & _ & _ & Hstats & _).
  destruct (generate_safe_path_run time_time robot_id s pos info Hpos Hinfo)
    as (path1 & s1' & Hgen1 & _ & _ & Hid & Htimes & Hdur & Hprio & Hact & _).
  destruct (generate_safe_path_geometry time_time robot_id s pos info Hpos Hinfo)
    as (path2 & s2' & Hgen2 & Hgeo & _).
  rewrite Hgen in Hgen1, Hgen2.
  injection Hgen1 as <- <-. injection Hgen2 as <- <-.
  exists path, s'. split; [exact Hrun|].
  rewrite Hpaths, Hstats, get_set_same.
  repeat split; try assumption.
  intros other Hne. apply get_set_other. congruence.
Qed.

Lemma X10_replan_installs_fresh_path_witness :
  exists path s',
    _replan_robot_path demo_clock "ABB_01" grazing_system = (Ok tt, s') /\
    Dict.get (robot_paths s') "ABB_01" = Some (Some path) /\
    hd_error (map (fun pt => x (position pt)) (points path)) = Some (3000 + 0 / 9 * 100).
Proof.
  destruct (X10_replan_installs_fresh_path demo_clock grazing_system "ABB_01"
              (mkRobotPosition 3000 0 0 0 0 0 1001)
              (mkRobotInfo "ABB_01" ABB "192.168.1.120"
                 (1000, -2000, 4000, 2000) IDLE (demo_clock 2) true 1600)
              eq_refl eq_refl)
    as (path & s' & Hrun & Hget & _ & _ & _ & _ & _ & Hgeo & _).
  exists path, s'. split; [exact Hrun|]. split; [exact Hget|].
  apply (f_equal (map (fun t => fst (fst t)))) in Hgeo.
  rewrite !map_map in Hgeo. cbn [fst] in Hgeo. rewrite Hgeo. reflexivity.
Defined.

(** X11. Replanning for an id that is not registered raises [KeyError]
    before anything is written: the previous paths, the counters and the
    rest of the state are exactly as before. *)
Theorem X11_replan_unregistered time_time s robot_id :
  registry_ok s -> ~ registered s robot_id ->
  _replan_robot_path time_time robot_id s = (Raised KeyError, s).
Proof.
  intros (_ & Hpos & _) Hnot.
  unfold _replan_robot_path. unfold bind at 1.
  rewrite generate_safe_path_missing; [reflexivity|].
  apply get_None_keys. rewrite Hpos. intros Hin. apply Hnot.
  now apply mem_true_iff.
Qed.

Lemma X11_replan_unregistered_witness :
  _replan_robot_path demo_clock "KUKA_07" demo_system
  = (Raised KeyError, demo_system).
Proof.
  apply (X11_replan_unregistered demo_clock demo_system "KUKA_07"
           registry_ok_demo_system).
  discriminate.
Defined.

(** ** Timing coordination *)

Lemma points_conflict_spec a b :
  points_conflict a b = true <->
  distance_between (position a) (position b) < safety_margin /\
  Rabs (time_from_start a - time_from_start b) < 0.5.
Proof.
  unfold points_conflict.
  destruct (Rlt_dec (distance_between (position a) (position b)) safety_margin);
    destruct (Rlt_dec (Rabs (time_from_start a - time_from_start b)) 0.5);
    split; try tauto; try discriminate.
Qed.

Lemma points_conflict_sym a b : points_conflict a b = points_conflict b a.
Proof.
  unfold points_conflict.
  now rewrite distance_between_sym, Rabs_minus_sym.
Qed.

Lemma check_path_intersection_spec path1 path2 :
  _check_path_intersection path1 path2 = true <->
  exists a b,
    In a (points path1) /\ In b (points path2) /\
    distance_between (position a) (position b) < safety_margin /\
    Rabs (time_from_start a - time_from_start b) < 0.5.
Proof.
  unfold _check_path_intersection. rewrite existsb_exists. split.
  - intros (a & Ha & Hex). apply existsb_exists in Hex as (b & Hb & Hc).
    apply points_conflict_spec in Hc. exists a, b. tauto.
  - intros (a & b & Ha & Hb & Hc). exists a. split; [assumption|].
    apply existsb_exists. exists b. split; [assumption|].
    now apply points_conflict_spec.
Qed.

(** X12. Two paths are reported as intersecting exactly when some point of
    the first and some point of the second are less than the 200 mm safety
    margin apart, in Euclidean distance over x, y and z, and their times
    from start differ by less than half a second.  The check ignores the paths' start times, does not depend on
    the order of the two paths, and finds nothing when a path has no
    points. *)
Theorem X12_path_intersection path1 path2 :
  (_check_path_intersection path1 path2 = true <->
   exists a b,
     In a (points path1) /\ In b (points path2) /\
     sqrt ((x (position a) - x (position b)) ^ 2 +
           (y (position a) - y (position b)) ^ 2 +
           (z (position a) - z (position b)) ^ 2) < 200 /\
     Rabs (time_from_start a - time_from_start b) < 0.5) /\
  _check_path_intersection path1 path2 = _check_path_intersection path2 path1 /\
  (points path1 = [] \/ points path2 = [] ->
   _check_path_intersection path1 path2 = false) /\
  (forall d,
     _check_path_intersection
       (mkRobotPath (path_robot_id path1) (path_id path1) (points path1)
                    (total_duration path1) (priority path1) (is_active path1)
                    (start_time path1 + d)) path2
     = _check_path_intersection path1 path2).
Proof.
  split; [apply check_path_intersection_spec|]. split; [|split].
  - destruct (_check_path_intersection path1 path2) eqn:E1;
      destruct (_check_path_intersection path2 path1) eqn:E2; try reflexivity.
    + apply check_path_intersection_spec in E1 as (a & b & Ha & Hb & Hd & Ht).
      assert (_check_path_intersection path2 path1 = true) as E; [|congruence].
      apply check_path_intersection_spec. exists b, a.
      rewrite distance_between_sym, Rabs_minus_sym. tauto.
    + apply check_path_intersection_spec in E2 as (a & b & Ha & Hb & Hd & Ht).
      assert (_check_path_intersection path1 path2 = true) as E; [|congruence].
      apply check_path_intersection_spec. exists b, a.
      rewrite distance_between_sym, Rabs_minus_sym. tauto.
  - intros [H|H]; unfold _check_path_intersection; rewrite H; simpl.
    + reflexivity.
    + induction (points path1); simpl; auto.
  - intros d. reflexivity.
Qed.

Lemma adjust_path_timing_run s robot1_id robot2_id intersection info1 info2 p :
  Dict.get (robots s) robot1_id = Some info1 ->
  Dict.get (robots s) robot2_id = Some info2 ->
  let delayed :=
    if (brand_priority (brand info1) >? brand_priority (brand info2))%Z
    then robot2_id else robot1_id in
  Dict.get (robot_paths s) delayed = Some (Some p) ->
  _adjust_path_timing robot1_id robot2_id intersection s =
  (Ok tt, with_robot_paths s
            (Dict.set (robot_paths s) delayed (Some (delay_path 1 p)))).
Proof.
  intros H1 H2 delayed Hp. unfold _adjust_path_timing.
  unfold bind at 1. rewrite (get_robot_priority_run _ _ _ H1).
  unfold bind at 1. rewrite (get_robot_priority_run _ _ _ H2).
  unfold delayed in *.
  destruct (brand_priority (brand info1) >? brand_priority (brand info2))%Z;
    unfold _delay_robot_start; unfold_m; now rewrite Hp.
Qed.

(** X13. Adjusting the timing of two registered robots delays exactly one
    path by one second: the second robot's when the first robot has the
    strictly higher priority, the first robot's otherwise, so that with
    equal priorities the first robot is delayed.  The delayed path keeps
    its points' positions; its start time and every time from start grow
    by 1.  Every other path and the rest of the state are untouched. *)
Theorem X13_adjust_delays_one s robot1_id robot2_id intersection info1 info2 p :
  Dict.get (robots s) robot1_id = Some info1 ->
  Dict.get (robots s) robot2_id = Some info2 ->
  let delayed :=
    if (brand_priority (brand info1) >? brand_priority (brand info2))%Z
    then robot2_id else robot1_id in
  Dict.get (robot_paths s) delayed = Some (Some p) ->
  exists s' p',
    _adjust_path_timing robot1_id robot2_id intersection s = (Ok tt, s') /\
    only_paths_changed s s' /\
    Dict.get (robot_paths s') delayed = Some (Some p') /\
    start_time p' = start_time p + 1 /\
    times p' = map (fun t => t + 1) (times p) /\
    map position (points p') = map position (points p) /\
    total_duration p' = total_duration p /\
    forall other, other <> delayed ->
      Dict.get (robot_paths s') other = Dict.get (robot_paths s) other.
Proof.
  intros H1 H2 delayed Hp.
  eexists. exists (delay_path 1 p).
  split; [apply (adjust_path_timing_run s _ _ _ info1 info2 p H1 H2 Hp)|].
  split; [repeat split|].
  cbn [robot_paths with_robot_paths]. fold delayed.
  rewrite get_set_same. split; [reflexivity|]. split; [reflexivity|].
  split; [apply times_delay_path|].
  split; [unfold delay_path; cbn [points]; now rewrite map_map|].
  split; [reflexivity|].
  intros other Hne. apply get_set_other. congruence.
Qed.

Lemma X13_adjust_delays_one_witness :
  exists s' p',
    _adjust_path_timing "ABB_01" "YASKAWA_01" true replanned_system = (Ok tt, s') /\
    Dict.get (robot_paths s') "ABB_01" = Some (Some p') /\
    strictly_increasing (times p').
Proof.
  destruct replanned_system_path as (p & Hget & Hinc).
  destruct (X13_adjust_delays_one replanned_system "ABB_01" "YASKAWA_01" true
              (mkRobotInfo "ABB_01" ABB "192.168.1.120"
                 (1000, -2000, 4000, 2000) IDLE (demo_clock 2) true 1600)
              (mkRobotInfo "YASKAWA_01" YASKAWA "192.168.1.110"
                 (-2000, -2000, 2000, 2000) IDLE (demo_clock 0) true 1500)
              p eq_refl eq_refl Hget)
    as (s' & p' & Hrun & _ & Hget' & _ & Htimes & _).
  exists s', p'. split; [exact Hrun|]. split; [exact Hget'|].
  rewrite Htimes. now apply strictly_increasing_shift.
Defined.

Lemma delay_path_succ k p :
  delay_path 1 (delay_path (INR k) p) = delay_path (INR (S k)) p.
Proof.
  rewrite S_INR. unfold delay_path.
  cbn [path_robot_id path_id points total_duration priority is_active start_time].
  f_equal; [|ring].
  rewrite map_map. apply map_ext. intros pt. unfold delay_point.
  cbn [position velocity acceleration time_from_start collision_risk].
  f_equal. ring.
Qed.

Lemma active_path_run s robot_id p :
  Dict.get (robot_paths s) robot_id = Some (Some p) ->
  active_path robot_id s = (Ok p, s).
Proof. intros H. unfold active_path. unfold_m. now rewrite H. Qed.

(** What a round of timing coordination may do to the entry of one robot:
    nothing, or a delay by a whole number of seconds. *)
Lemma coordinate_path_timing_loop s0 (ps : list (string * string)) :
  (forall p, In p ps ->
     fst p <> snd p /\
     (exists i, Dict.get (robots s0) (fst p) = Some i) /\
     (exists i, Dict.get (robots s0) (snd p) = Some i) /\
     (exists q, Dict.get (robot_paths s0) (fst p) = Some (Some q)) /\
     (exists q, Dict.get (robot_paths s0) (snd p) = Some (Some q))) ->
  forall s,
    only_paths_changed s0 s ->
    Dict.keys (robot_paths s) = Dict.keys (robot_paths s0) ->
    (forall id,
       Dict.get (robot_paths s) id = Dict.get (robot_paths s0) id \/
       exists k q, Dict.get (robot_paths s0) id = Some (Some q) /\
                   Dict.get (robot_paths s) id = Some (Some (delay_path (INR k) q))) ->
    exists s',
      for_each ps (fun p =>
        path1 <- active_path (fst p) ;;
        path2 <- active_path (snd p) ;;
        let intersection := _check_path_intersection path1 path2 in
        if intersection
        then _adjust_path_timing (fst p) (snd p) intersection
        else ret tt) s = (Ok tt, s') /\
      only_paths_changed s0 s' /\
      Dict.keys (robot_paths s') = Dict.keys (robot_paths s0) /\
      (forall id,
         Dict.get (robot_paths s') id = Dict.get (robot_paths s0) id \/
         exists k q, Dict.get (robot_paths s0) id = Some (Some q) /\
                     Dict.get (robot_paths s') id = Some (Some (delay_path (INR k) q))) /\
      (forall id,
         (forall p i j, In p ps -> (fst p = id \/ snd p = id) ->
            Dict.get (robots s0) (fst p) = Some i ->
            Dict.get (robots s0) (snd p) = Some j ->
            if String.eqb (fst p) id
            then (brand_priority (brand i) > brand_priority (brand j))%Z
            else (brand_priority (brand i) <= brand_priority (brand j))%Z) ->
         Dict.get (robot_paths s') id = Dict.get (robot_paths s) id).
Proof.
  induction ps as [|[r1 r2] ps IH]; intros Hps s Hframe Hkeys Hdel.
  - exists s. split; [reflexivity|]. repeat split; try apply Hframe; auto.
  - destruct (Hps (r1, r2) (or_introl eq_refl))
      as (Hne & [i1 Hi1] & [i2 Hi2] & [q1 Hq1] & [q2 Hq2]).
    cbn [fst snd] in *.
    assert (Hps' : forall p, In p ps ->
              fst p <> snd p /\
              (exists i, Dict.get (robots s0) (fst p) = Some i) /\
              (exists i, Dict.get (robots s0) (snd p) = Some i) /\
              (exists q, Dict.get (robot_paths s0) (fst p) = Some (Some q)) /\
              (exists q, Dict.get (robot_paths s0) (snd p) = Some (Some q)))
      by (intros p Hp; apply Hps; now right).
    assert (Hcur : forall id q, Dict.get (robot_paths s0) id = Some (Some q) ->
              exists q', Dict.get (robot_paths s) id = Some (Some q')).
    { intros id q Hq. destruct (Hdel id) as [E|(k & q' & E0 & E)].
      - rewrite E. eauto.
      - eauto. }
    destruct (Hcur _ _ Hq1) as [p1 Hp1]. destruct (Hcur _ _ Hq2) as [p2 Hp2].
    simpl for_each. unfold bind at 1. cbn [fst snd].
    unfold bind at 1. rewrite (active_path_run _ _ _ Hp1).
    unfold bind at 1. rewrite (active_path_run _ _ _ Hp2).
    cbn zeta.
    pose proof Hframe as (R & _).
    destruct (_check_path_intersection p1 p2).
    + set (delayed :=
             if (brand_priority (brand i1) >? brand_priority (brand i2))%Z
             then r2 else r1).
      assert (exists p, Dict.get (robot_paths s) delayed = Some (Some p))
        as [p Hp] by (unfold delayed; destruct (_ >? _)%Z; eauto).
      rewrite (adjust_path_timing_run s r1 r2 true i1 i2 p)
        by (rewrite ?R; assumption).
      fold delayed.
      set (s1 := with_robot_paths s
                   (Dict.set (robot_paths s) delayed (Some (delay_path 1 p)))).
      destruct (IH Hps' s1) as (s' & Hrun & Hframe' & Hkeys' & Hdel' & Hdom).
      { destruct Hframe as (F1 & F2 & F3 & F4 & F5 & F6 & F7).
        repeat split; assumption. }
      { unfold s1. cbn [robot_paths with_robot_paths].
        rewrite keys_set_present; [assumption|].
        apply get_Some_keys. eauto. }
      { intros id. unfold s1. cbn [robot_paths with_robot_paths].
        destruct (string_dec delayed id) as [<-|Hneq].
        - rewrite get_set_same. right.
          destruct (Hdel delayed) as [E|(k & q & E0 & E)].
          + exists 1%nat, p. rewrite <- E. split; [assumption|].
            simpl INR. reflexivity.
          + rewrite Hp in E. injection E as ->.
            exists (S k), q. split; [assumption|]. now rewrite delay_path_succ.
        - rewrite get_set_other by assumption. apply Hdel. }
      exists s'. split; [exact Hrun|]. do 3 (split; [assumption|]).
      intros id Hid. rewrite Hdom by (intros; eapply Hid; eauto; now right).
      unfold s1. cbn [robot_paths with_robot_paths].
      apply get_set_other. intros <-.
      specialize (Hid (r1, r2) i1 i2 (or_introl eq_refl)).
      cbn [fst snd] in Hid. unfold delayed in Hid.
      destruct (brand_priority (brand i1) >? brand_priority (brand i2))%Z eqn:E.
      * specialize (Hid (or_intror eq_refl) Hi1 Hi2).
        destruct (String.eqb r1 r2) eqn:E'.
        -- apply String.eqb_eq in E'. contradiction.
        -- apply Z.gtb_lt in E. lia.
      * specialize (Hid (or_introl eq_refl) Hi1 Hi2).
        rewrite String.eqb_refl in Hid.
        rewrite Z.gtb_ltb in E. apply Z.ltb_ge in E. lia.
    + unfold ret at 1.
      destruct (IH Hps' s Hframe Hkeys Hdel) as (s' & Hrun & H1 & H2 & H3 & H4).
      exists s'. split; [exact Hrun|]. do 3 (split; [assumption|]).
      intros id Hid. apply H4. intros; eapply Hid; eauto. now right.
Qed.

Lemma in_get {V} (d : Dict.t V) k v :
  NoDup (Dict.keys d) -> In (k, v) (Dict.items d) -> Dict.get d k = Some v.
Proof.
  unfold Dict.items. induction d as [|[k' v'] d IH]; simpl; [tauto|].
  intros Hnd [[= -> ->]|Hin].
  - now rewrite String.eqb_refl.
  - inversion Hnd as [|? ? Hfresh Hnd']; subst.
    destruct (String.eqb k k') eqn:E.
    + apply String.eqb_eq in E. subst. exfalso. apply Hfresh.
      change k' with (fst (k', v)). now apply in_map.
    + now apply IH.
Qed.

Lemma all_pairs_distinct {A} (l : list A) a b :
  NoDup l -> In (a, b) (all_pairs l) -> a <> b.
Proof.
  induction 1 as [|c l Hc Hnd IH]; simpl; [tauto|].
  rewrite in_app_iff, in_map_iff. intros [(b' & [= <- <-] & Hin)|H].
  - intros ->. contradiction.
  - now apply IH.
Qed.

Lemma NoDup_map_fst_filter {V} (f : string * V -> bool) (d : Dict.t V) :
  NoDup (Dict.keys d) -> NoDup (map fst (filter f d)).
Proof.
  unfold Dict.keys. induction d as [|e d IH]; simpl; intros Hnd; [constructor|].
  inversion Hnd as [|? ? Hfresh Hnd']; subst.
  destruct (f e); simpl; [|now apply IH].
  constructor; [|now apply IH].
  intros Hin. apply Hfresh. apply in_map_iff in Hin as (e' & He & Hf).
  apply filter_In in Hf as [Hf _]. apply in_map_iff. eauto.
Qed.

Lemma optimize_active_paths_run s :
  registry_ok s ->
  exists s',
    _optimize_active_paths s = (Ok tt, s') /\
    only_paths_changed s s' /\
    Dict.keys (robot_paths s') = Dict.keys (robot_paths s) /\
    (forall id,
       Dict.get (robot_paths s') id = Dict.get (robot_paths s) id \/
       exists k q, Dict.get (robot_paths s) id = Some (Some q) /\
                   Dict.get (robot_paths s') id = Some (Some (delay_path (INR k) q))) /\
    (forall id info,
       Dict.get (robots s) id = Some info ->
       (forall other info' q,
          other <> id ->
          Dict.get (robot_paths s) other = Some (Some q) ->
          Dict.get (robots s) other = Some info' ->
          (brand_priority (brand info') < brand_priority (brand info))%Z) ->
       Dict.get (robot_paths s') id = Dict.get (robot_paths s) id) /\
    ((List.length (filter (fun e => is_entry_active (snd e))
                     (Dict.items (robot_paths s))) <= 1)%nat ->
     s' = s).
Proof.
  intros (Hnd & Hpos & Hpaths & _). unfold _optimize_active_paths.
  unfold bind at 1, gets at 1.
  set (active := filter (fun e => is_entry_active (snd e))
                        (Dict.items (robot_paths s))).
  assert (Hndp : NoDup (Dict.keys (robot_paths s))) by now rewrite Hpaths.
  assert (Hactive : forall id, In id (map fst active) ->
            (exists i, Dict.get (robots s) id = Some i) /\
            (exists q, Dict.get (robot_paths s) id = Some (Some q))).
  { intros id Hin. apply in_map_iff in Hin as ([id' entry] & <- & Hin).
    apply filter_In in Hin as [Hin Hact]. cbn [fst snd] in *.
    split.
    - apply get_Some_keys. rewrite <- Hpaths. now apply (in_keys_items _ (id', entry)).
    - destruct entry as [q|]; [|discriminate].
      exists q. now apply in_get. }
  destruct (1 <? List.length active)%nat eqn:Hlen.
  - unfold _coordinate_path_timing. rewrite for_pairs_all_pairs.
    destruct (coordinate_path_timing_loop s (all_pairs (map fst active)))
      with (s := s) as (s' & Hrun & Hframe & Hkeys & Hdel & Hdom).
    + intros [a b] Hin. cbn [fst snd].
      split; [eapply all_pairs_distinct; [|exact Hin];
              now apply NoDup_map_fst_filter|].
      apply in_all_pairs in Hin as [Ha Hb].
      destruct (Hactive a Ha), (Hactive b Hb). tauto.
    + repeat split.
    + reflexivity.
    + intros id. now left.
    + exists s'. split; [exact Hrun|]. do 3 (split; [assumption|]).
      split.
      * intros id info Hinfo Hdominant. apply Hdom.
        intros [a b] i j Hin Hside Hi Hj. cbn [fst snd] in *.
        pose proof (all_pairs_distinct _ _ _
                      (NoDup_map_fst_filter _ _ Hndp) Hin) as Hab.
        apply in_all_pairs in Hin as [Ha Hb].
        destruct (Hactive a Ha) as [_ [qa Hqa]].
        destruct (Hactive b Hb) as [_ [qb Hqb]].
        destruct (String.eqb a id) eqn:E.
        -- apply String.eqb_eq in E. subst a.
           rewrite Hinfo in Hi. injection Hi as <-.
           assert (b <> id) by congruence.
           pose proof (Hdominant b j qb H Hqb Hj). lia.
        -- apply String.eqb_neq in E.
           destruct Hside as [-> | ->]; [congruence|].
           rewrite Hinfo in Hj. injection Hj as <-.
           pose proof (Hdominant a i qa E Hqa Hi). lia.
      * intros Hle. apply Nat.ltb_lt in Hlen. fold active in Hle. lia.
  - unfold ret. exists s. split; [reflexivity|].
    split; [repeat split|]. split; [reflexivity|].
    split; [intros; now left|]. split; reflexivity.
Qed.

(** X14. Optimising the active paths of a consistent system cannot fail
    and touches nothing but the table of paths.  Every path is either kept
    or delayed by a whole number of seconds, in start time and in every
    time from start, with the same points in the same order; no path is
    added, removed or replaced.  A robot whose priority is strictly higher
    than that of every other robot with a path is never delayed, and with
    fewer than two active paths nothing changes at all. *)
Theorem X14_optimize_only_delays s :
  registry_ok s ->
  exists s',
    _optimize_active_paths s = (Ok tt, s') /\
    only_paths_changed s s' /\
    Dict.keys (robot_paths s') = Dict.keys (robot_paths s) /\
    (forall id,
       Dict.get (robot_paths s') id = Dict.get (robot_paths s) id \/
       exists (k : nat) q q',
         Dict.get (robot_paths s) id = Some (Some q) /\
         Dict.get (robot_paths s') id = Some (Some q') /\
         start_time q' = start_time q + INR k /\
         times q' = map (fun t => t + INR k) (times q) /\
         map position (points q') = map position (points q)) /\
    (forall id info,
       Dict.get (robots s) id = Some info ->
       (forall other info' q,
          other <> id ->
          Dict.get (robot_paths s) other = Some (Some q) ->
          Dict.get (robots s) other = Some info' ->
          (brand_priority (brand info') < brand_priority (brand info))%Z) ->
       Dict.get (robot_paths s') id = Dict.get (robot_paths s) id) /\
    ((List.length (filter (fun e => is_entry_active (snd e))
                     (Dict.items (robot_paths s))) <= 1)%nat ->
     s' = s).
Proof.
  intros Hok.
  destruct (optimize_active_paths_run s Hok)
    as (s' & Hrun & Hframe & Hkeys & Hdel & Hdom & Hfew).
  exists s'. split; [exact Hrun|]. do 2 (split; [assumption|]).
  split; [|split; assumption].
  intros id. destruct (Hdel id) as [E|(k & q & E0 & E)]; [now left|].
  right. exists k, q, (delay_path (INR k) q).
  split; [assumption|]. split; [assumption|]. split; [reflexivity|].
  split; [apply times_delay_path|].
  unfold delay_path. cbn [points]. now rewrite map_map.
Qed.

Lemma registry_ok_frame s s' :
  registry_ok s ->
  Dict.keys (robots s') = Dict.keys (robots s) ->
  Dict.keys (robot_positions s') = Dict.keys (robot_positions s) ->
  Dict.keys (robot_paths s') = Dict.keys (robot_paths s) ->
  (forall id info', Dict.get (robots s') id = Some info' ->
     exists info, Dict.get (robots s) id = Some info /\
                  brand info' = brand info /\
                  reach_radius info' = reach_radius info) ->
  registry_ok s'.
Proof.
  intros (Hnd & Hpos & Hpaths & Hreach) Hr Hp Hq Hinfo.
  repeat split; try congruence.
  intros id info' Hget. destruct (Hinfo _ _ Hget) as (info & Hg & Hb & Hrr).
  rewrite Hb, Hrr. eapply Hreach; eassumption.
Qed.

(** A planning tick whose queue starts with a registered robot. *)
Lemma planning_tick_replans time_time s id rest :
  registry_ok s -> registered s id ->
  exists s' p,
    path_planning_tick time_time (id :: rest) s = (Ok rest, s') /\
    Dict.get (robot_paths s') id = Some (Some p) /\
    is_active p = true /\ path_robot_id p = id /\
    path_replanning_events (stats s') =
      (path_replanning_events (stats s) + 1)%Z /\
    robots s' = robots s /\ robot_positions s' = robot_positions s.
Proof.
  intros Hok Hreg.
  destruct (registry_ok_positions _ _ Hok Hreg) as [pos Hpos].
  pose proof Hreg as Hreg'. apply registered_info in Hreg' as [info Hinfo].
  destruct (replan_robot_path_run time_time id s pos info Hpos Hinfo)
    as (path & s0 & s1 & Hgen & Hrun & Hrob & Hp & Hpaths & _ & _ & Hstats & _).
  destruct (generate_safe_path_run time_time id s pos info Hpos Hinfo)
    as (path' & s0' & Hgen' & _ & _ & Hid & _ & _ & _ & Hact & _).
  rewrite Hgen in Hgen'. injection Hgen' as <- <-.
  assert (Hok1 : registry_ok s1).
  { apply (registry_ok_frame s s1 Hok); try congruence.
    - rewrite Hpaths. apply keys_set_present.
      destruct Hok as (_ & _ & Hk & _). rewrite Hk. now apply mem_true_iff.
    - intros id' info' Hget. rewrite Hrob in Hget. eauto. }
  destruct (optimize_active_paths_run s1 Hok1)
    as (s2 & Hopt & (F1 & F2 & F3 & F4 & F5 & F6 & F7) & _ & Hdel & _).
  exists s2.
  assert (Hfresh : Dict.get (robot_paths s1) id = Some (Some path))
    by (rewrite Hpaths; apply get_set_same).
  assert (exists p, Dict.get (robot_paths s2) id = Some (Some p) /\
                    is_active p = true /\ path_robot_id p = id) as (p & Hp2 & Hact2 & Hid2).
  { destruct (Hdel id) as [E|(k & q & E0 & E)].
    - exists path. rewrite E. auto.
    - rewrite Hfresh in E0. injection E0 as <-.
      exists (delay_path (INR k) path). auto. }
  exists p. split.
  - unfold path_planning_tick, try_except.
    unfold bind at 1. unfold bind at 1. rewrite Hrun, Hopt. reflexivity.
  - rewrite F5, F1, F2, Hstats. repeat split; assumption.
Qed.

(** X15. One tick of the planning loop over a consistent system never
    fails and consumes exactly the head of the replanning queue.  A request
    for an unregistered robot is dropped without any change to the state,
    and the tick's path optimisation is skipped with it.  A request for a
    registered robot leaves that robot with an active path and counts one
    replanning event; the registry and the positions stay as they were. *)
Theorem X15_planning_tick time_time s queue :
  registry_ok s ->
  (exists s', path_planning_tick time_time queue s = (Ok (tl queue), s')) /\
  (forall robot_id rest,
     queue = robot_id :: rest -> ~ registered s robot_id ->
     path_planning_tick time_time queue s = (Ok rest, s)) /\
  (forall robot_id rest,
     queue = robot_id :: rest -> registered s robot_id ->
     exists s' p,
       path_planning_tick time_time queue s = (Ok rest, s') /\
       Dict.get (robot_paths s') robot_id = Some (Some p) /\
       is_active p = true /\ path_robot_id p = robot_id /\
       path_replanning_events (stats s') =
         (path_replanning_events (stats s) + 1)%Z /\
       robots s' = robots s /\ robot_positions s' = robot_positions s).
Proof.
  intros Hok.
  assert (Hbad : forall robot_id rest, ~ registered s robot_id ->
            path_planning_tick time_time (robot_id :: rest) s = (Ok rest, s)).
  { intros id rest Hnot. unfold path_planning_tick, try_except.
    unfold bind at 1. unfold bind at 1.
    destruct Hok as (_ & Hpos & _).
    unfold _replan_robot_path. unfold bind at 1.
    rewrite generate_safe_path_missing; [reflexivity|].
    apply get_None_keys. rewrite Hpos. intros Hin. apply Hnot.
    now apply mem_true_iff. }
  assert (Hgood := fun robot_id rest =>
            planning_tick_replans time_time s robot_id rest Hok).
  split; [|split].
  - destruct queue as [|id rest].
    + destruct (optimize_active_paths_run s Hok) as (s' & Hopt & _).
      exists s'. unfold path_planning_tick, try_except.
      unfold bind at 1. rewrite Hopt. reflexivity.
    + destruct (Dict.mem (robots s) id) eqn:E.
      * destruct (Hgood id rest E) as (s' & p & Hrun & _). eauto.
      * exists s. apply Hbad. unfold registered. congruence.
  - intros id rest -> Hnot. now apply Hbad.
  - intros id rest -> Hreg. now apply Hgood.
Qed.

Lemma X15_planning_tick_witness :
  path_planning_tick demo_clock ["KUKA_07"; "ABB_01"] demo_system
    = (Ok ["ABB_01"], demo_system) /\
  exists s' p,
    path_planning_tick demo_clock ["ABB_01"] demo_system = (Ok [], s') /\
    Dict.get (robot_paths s') "ABB_01" = Some (Some p).
Proof.
  split.
  - apply (proj1 (proj2 (X15_planning_tick demo_clock demo_system
                            ["KUKA_07"; "ABB_01"] registry_ok_demo_system))
             "KUKA_07" ["ABB_01"] eq_refl).
    discriminate.
  - destruct (proj2 (proj2 (X15_planning_tick demo_clock demo_system ["ABB_01"]
                              registry_ok_demo_system))
                "ABB_01" [] eq_refl eq_refl)
      as (s' & p & Hrun & Hget & _).
    exists s', p. split; assumption.
Defined.

(** ** Coordinated tasks with repeated ids *)

Lemma coordinated_paths_loop_clock time_time (ids : list string) :
  forall i acc s,
    (forall id, In id ids ->
       (exists pos, Dict.get (robot_positions s) id = Some pos) /\
       (exists info, Dict.get (robots s) id = Some info)) ->
    exists paths s',
      coordinated_paths_loop time_time (enumerate_from i ids) acc s
        = (Ok paths, s') /\
      clock_reads s' = (clock_reads s + 12 * List.length ids)%nat.
Proof.
  induction ids as [|a ids IH]; intros i acc s Hreg.
  - exists acc, s. split; [reflexivity|]. simpl. lia.
  - simpl enumerate_from. simpl coordinated_paths_loop. unfold bind at 1.
    destruct (Hreg a (or_introl eq_refl)) as [[pos Hpos] [info Hinfo]].
    destruct (generate_safe_path_run time_time a s pos info Hpos Hinfo)
      as (p0 & s1 & Hgen & Hframe & Hclock & _).
    rewrite Hgen.
    destruct (IH (S i) (Dict.set acc a (delay_path (INR i * 2) p0)) s1)
      as (paths & s' & Hrun & Hclock').
    { intros id Hid'. destruct Hframe as (F1 & F2 & _).
      rewrite F1, F2. apply Hreg. now right. }
    exists paths, s'. split; [exact Hrun|].
    rewrite Hclock', Hclock. simpl List.length. lia.
Qed.

Lemma coordinate_robots_success time_time s robot_ids task :
  registry_ok s ->
  (forall id, In id robot_ids -> registered s id) ->
  exists s',
    coordinate_robots time_time robot_ids task s = (Ok true, s') /\
    stats s' =
      add_robots_coordinated (Z.of_nat (List.length robot_ids)) (stats s) /\
    clock_reads s' = (clock_reads s + 12 * List.length robot_ids)%nat /\
    robot_positions s' = robot_positions s /\
    collision_events s' = collision_events s /\
    erase_status (robots s') = erase_status (robots s) /\
    (forall id, In id robot_ids -> status_of s' id = Some COORDINATED) /\
    (forall id, ~ In id robot_ids ->
       Dict.get (robots s') id = Dict.get (robots s) id /\
       Dict.get (robot_paths s') id = Dict.get (robot_paths s) id) /\
    (forall k id,
       nth_error robot_ids k = Some id -> ~ In id (skipn (S k) robot_ids) ->
       exists p,
         Dict.get (robot_paths s') id = Some (Some p) /\
         path_robot_id p = id /\
         start_time p =
           time_time (clock_reads s + 12 * k + 11)%nat + INR k * 2 /\
         times p = map (fun t => t + INR k * 2) nominal_times).
Proof.
  intros Hok Hreg. unfold coordinate_robots, try_except.
  destruct (mark_coordinated_loop robot_ids s)
    as (s1 & Hmark & Hframe1 & Herase & Hstatus & Hother1).
  unfold bind at 1. rewrite Hmark.
  destruct Hframe1 as (P1 & Q1 & O1 & E1 & S1 & C1 & D1).
  unfold bind at 1. unfold _generate_coordinated_paths, enumerate.
  assert (Hreg1 : forall id, In id robot_ids ->
            (exists pos, Dict.get (robot_positions s1) id = Some pos) /\
            (exists info, Dict.get (robots s1) id = Some info)).
  { intros id Hin. specialize (Hreg id Hin). split.
    - rewrite P1. now apply registry_ok_positions.
    - apply registered_info in Hreg as [info Hinfo].
      destruct (erase_status_get _ _ _ _ Herase Hinfo) as (info' & H' & _).
      eauto. }
  destruct (coordinated_paths_loop_run time_time robot_ids 0 Dict.empty s1 Hreg1)
    as (paths & s2 & Hloop & Hframe2 & Hndp & Hout & Hpaths).
  destruct (coordinated_paths_loop_clock time_time robot_ids 0 Dict.empty s1 Hreg1)
    as (paths' & s2' & Hloop' & Hclock).
  rewrite Hloop in Hloop'. injection Hloop' as <- <-.
  rewrite Hloop.
  destruct (publish_loop paths (Hndp (NoDup_nil _)) s2)
    as (s3 & Hpub & Hframe3 & Hget).
  unfold bind at 1. rewrite Hpub. unfold_m.
  eexists. split; [reflexivity|].
  destruct Hframe2 as (R2 & P2 & Q2 & O2 & E2 & S2 & D2).
  destruct Hframe3 as (R3 & P3 & O3 & E3 & S3 & C3 & D3).
  cbn [stats clock_reads robot_positions collision_events robots robot_paths
       with_stats].
  unfold status_of. cbn [robots with_stats].
  rewrite S3, S2, S1, C3, Hclock, C1, P3, P2, P1, E3, E2, E1, R3, R2.
  do 5 (split; [reflexivity || assumption|]).
  split; [intros id Hin; apply Hstatus; auto|].
  split.
  - intros id Hnin. split; [now apply Hother1|].
    rewrite Hget, (Hout id Hnin). simpl. now rewrite Q2, Q1.
  - intros k id Hnth Hlast.
    destruct (Hpaths k id Hnth Hlast) as (p & Hp & Hid & Hstart & Htimes).
    exists p. rewrite Hget, Hp. rewrite C1 in Hstart.
    simpl in Hstart, Htimes. repeat split; assumption.
Qed.

(** X16. Coordinating a list of registered robots succeeds also when an id
    occurs more than once.  Each occurrence generates a path, but only the
    path of the last occurrence is published: the robot's start time and
    point times carry the stagger of its last index in the list.  The
    counter of coordinated robots grows by the length of the list,
    repetitions included, and the clock is read twelve times per list
    entry.  Robots that are not listed keep their registry entry and their
    path; positions and the event log are untouched. *)
Theorem X16_coordinate_repeated_ids time_time s robot_ids task :
  registry_ok s ->
  (forall id, In id robot_ids -> registered s id) ->
  exists s',
    coordinate_robots time_time robot_ids task s = (Ok true, s') /\
    robots_coordinated (stats s') =
      (robots_coordinated (stats s) + Z.of_nat (List.length robot_ids))%Z /\
    clock_reads s' = (clock_reads s + 12 * List.length robot_ids)%nat /\
    robot_positions s' = robot_positions s /\
    collision_events s' = collision_events s /\
    (forall id, ~ In id robot_ids ->
       Dict.get (robots s') id = Dict.get (robots s) id /\
       Dict.get (robot_paths s') id = Dict.get (robot_paths s) id) /\
    (forall k id,
       nth_error robot_ids k = Some id -> ~ In id (skipn (S k) robot_ids) ->
       status_of s' id = Some COORDINATED /\
       exists p,
         Dict.get (robot_paths s') id = Some (Some p) /\
         path_robot_id p = id /\
         start_time p =
           time_time (clock_reads s + 12 * k + 11)%nat + INR k * 2 /\
         times p = map (fun t => t + INR k * 2) nominal_times).
Proof.
  intros Hok Hreg.
  destruct (coordinate_robots_success time_time s robot_ids task Hok Hreg)
    as (s' & Hrun & Hstats & Hclock & Hpos & Hev & _ & Hstatus & Hother & Hpaths).
  exists s'. split; [exact Hrun|]. rewrite Hstats.
  do 4 (split; [reflexivity || assumption|]).
  split; [exact Hother|].
  intros k id Hnth Hlast. split.
  - apply Hstatus. eapply nth_error_In; eassumption.
  - now apply Hpaths.
Qed.

Lemma X16_coordinate_repeated_ids_witness :
  exists s' p,
    coordinate_robots demo_clock ["ABB_01"; "YASKAWA_01"; "ABB_01"] "demo"
      demo_system = (Ok true, s') /\
    robots_coordinated (stats s') = 3%Z /\
    Dict.get (robot_paths s') "ABB_01" = Some (Some p) /\
    times p = map (fun t => t + INR 2 * 2) nominal_times.
Proof.
  destruct (X16_coordinate_repeated_ids demo_clock demo_system
              ["ABB_01"; "YASKAWA_01"; "ABB_01"] "demo" registry_ok_demo_system)
    as (s' & Hrun & Hstats & _ & _ & _ & _ & Hpaths).
  - intros id [<-|[<-|[<-|[]]]]; reflexivity.
  - destruct (Hpaths 2%nat "ABB_01" eq_refl (fun H => H))
      as (_ & p & Hget & _ & _ & Htimes).
    exists s', p. repeat split; assumption.
Defined.

(** ** Position monitoring *)

Lemma only_counters_changed_refl s : only_counters_changed s s.
Proof. repeat split. Qed.

Lemma only_counters_changed_trans s1 s2 s3 :
  only_counters_changed s1 s2 -> only_counters_changed s2 s3 ->
  only_counters_changed s1 s3.
Proof.
  intros (A1 & A2 & A3 & A4 & A5 & A6) (B1 & B2 & B3 & B4 & B5 & B6).
  repeat split; congruence.
Qed.

Lemma draw_n_run random_uniform lo hi n s :
  exists s',
    draw_n random_uniform n lo hi s =
      (Ok (map (fun i => random_uniform (i + random_draws s)%nat lo hi) (seq 0 n)),
       s') /\
    only_counters_changed s s' /\
    clock_reads s' = clock_reads s /\
    random_draws s' = (n + random_draws s)%nat.
Proof.
  revert s. induction n as [|n IH]; intros s.
  - exists s. repeat split.
  - simpl draw_n. unfold bind at 1, draw_uniform at 1.
    destruct (IH (with_random_draws s (S (random_draws s))))
      as (s' & Hrun & Hframe & Hclock & Hdraws).
    unfold bind at 1. rewrite Hrun. unfold ret.
    exists s'. split.
    + f_equal. f_equal. cbn [seq map Nat.add]. f_equal.
      rewrite <- seq_shift, map_map. apply map_ext. intros i.
      cbn [random_draws with_random_draws]. f_equal. lia.
    + split; [exact Hframe|]. split; [exact Hclock|].
      rewrite Hdraws. cbn [random_draws with_random_draws]. lia.
Qed.

Lemma draw_uniform_run random_uniform lo hi s :
  exists s',
    draw_uniform random_uniform lo hi s =
      (Ok (random_uniform (random_draws s) lo hi), s') /\
    only_counters_changed s s' /\
    clock_reads s' = clock_reads s /\
    random_draws s' = S (random_draws s).
Proof. eexists. split; [reflexivity|]. repeat split. Qed.

Lemma read_clock_run time_time s :
  exists s',
    read_clock time_time s = (Ok (time_time (clock_reads s)), s') /\
    only_counters_changed s s' /\
    clock_reads s' = S (clock_reads s) /\
    random_draws s' = random_draws s.
Proof. eexists. split; [reflexivity|]. repeat split. Qed.

Lemma get_robot_position_run time_time random_uniform robot_id s pos :
  Dict.get (robot_positions s) robot_id = Some pos ->
  exists s',
    _get_robot_position time_time random_uniform robot_id s =
      (Ok (mkRobotPosition
             (x pos + random_uniform (random_draws s) (-10) 10)
             (y pos + random_uniform (1 + random_draws s)%nat (-10) 10)
             (z pos + random_uniform (2 + random_draws s)%nat (-5) 5)
             (random_uniform (3 + random_draws s)%nat (-0.1) 0.1)
             (random_uniform (4 + random_draws s)%nat (-0.1) 0.1)
             (random_uniform (5 + random_draws s)%nat (-0.1) 0.1)
             (time_time (clock_reads s))), s') /\
    only_counters_changed s s' /\
    clock_reads s' = S (clock_reads s) /\
    random_draws s' = (6 + random_draws s)%nat.
Proof.
  intros Hpos. unfold _get_robot_position.
  unfold bind at 1, gets at 1. rewrite Hpos.
  destruct (draw_uniform_run random_uniform (-10) 10 s) as (s1 & H1 & F1 & C1 & D1).
  destruct (draw_uniform_run random_uniform (-10) 10 s1) as (s2 & H2 & F2 & C2 & D2).
  destruct (draw_uniform_run random_uniform (-5) 5 s2) as (s3 & H3 & F3 & C3 & D3).
  destruct (draw_uniform_run random_uniform (-0.1) 0.1 s3) as (s4 & H4 & F4 & C4 & D4).
  destruct (draw_uniform_run random_uniform (-0.1) 0.1 s4) as (s5 & H5 & F5 & C5 & D5).
  destruct (draw_uniform_run random_uniform (-0.1) 0.1 s5) as (s6 & H6 & F6 & C6 & D6).
  destruct (read_clock_run time_time s6) as (s7 & H7 & F7 & C7 & D7).
  unfold bind at 1. unfold bind at 1. rewrite H1.
  unfold bind at 1. rewrite H2.
  unfold bind at 1. rewrite H3. unfold ret at 1.
  unfold bind at 1. rewrite H4.
  unfold bind at 1. rewrite H5.
  unfold bind at 1. rewrite H6.
  unfold bind at 1. rewrite H7. unfold ret.
  exists s7. split.
  - rewrite C6, C5, C4, C3, C2, C1, D5, D4, D3, D2, D1. reflexivity.
  - split.
    + repeat (eapply only_counters_changed_trans; [eassumption|]).
      apply only_counters_changed_refl.
    + rewrite C7, D7, C6, C5, C4, C3, C2, C1, D6, D5, D4, D3, D2, D1.
      split; reflexivity.
Qed.

Lemma get_joint_state_run time_time random_uniform robot_id s :
  exists s',
    _get_joint_state time_time random_uniform robot_id s =
      (Ok (mkJointState robot_id
             (map (fun i => random_uniform (i + random_draws s)%nat (-3.14) 3.14)
                  (seq 0 6))
             (map (fun i => random_uniform (i + (6 + random_draws s))%nat (-1) 1)
                  (seq 0 6))
             (time_time (clock_reads s))), s') /\
    only_counters_changed s s' /\
    clock_reads s' = S (clock_reads s) /\
    random_draws s' = (12 + random_draws s)%nat.
Proof.
  unfold _get_joint_state.
  destruct (draw_n_run random_uniform (-3.14) 3.14 6 s)
    as (s1 & H1 & F1 & C1 & D1).
  destruct (draw_n_run random_uniform (-1) 1 6 s1)
    as (s2 & H2 & F2 & C2 & D2).
  unfold bind at 1. rewrite H1. unfold bind at 1. rewrite H2.
  unfold bind, read_clock, ret.
  eexists. split; [rewrite D1, C2, C1; reflexivity|].
  split.
  - destruct (only_counters_changed_trans _ _ _ F1 F2)
      as (A1 & A2 & A3 & A4 & A5 & A6).
    repeat split; assumption.
  - cbn [clock_reads random_draws with_clock_reads]. rewrite D2, D1.
    split; [reflexivity | lia].
Qed.

Lemma monitor_robot_run time_time random_uniform robot_id s pos :
  Dict.get (robot_positions s) robot_id = Some pos ->
  exists joint s',
    monitor_robot time_time random_uniform robot_id s = (Ok joint, s') /\
    robots s' = robots s /\
    robot_positions s' =
      Dict.set (robot_positions s) robot_id
        (mkRobotPosition
           (x pos + random_uniform (random_draws s) (-10) 10)
           (y pos + random_uniform (1 + random_draws s)%nat (-10) 10)
           (z pos + random_uniform (2 + random_draws s)%nat (-5) 5)
           (random_uniform (3 + random_draws s)%nat (-0.1) 0.1)
           (random_uniform (4 + random_draws s)%nat (-0.1) 0.1)
           (random_uniform (5 + random_draws s)%nat (-0.1) 0.1)
           (time_time (clock_reads s))) /\
    robot_paths s' = robot_paths s /\
    collision_objects s' = collision_objects s /\
    collision_events s' = collision_events s /\
    stats s' = stats s /\
    clock_reads s' = (2 + clock_reads s)%nat /\
    random_draws s' = (18 + random_draws s)%nat /\
    js_robot_id joint = robot_id /\
    List.length (joint_positions joint) = 6%nat /\
    List.length (joint_velocities joint) = 6%nat /\
    (forall lo hi, (forall n, lo <= random_uniform n (-3.14) 3.14 <= hi) ->
       Forall (fun v => lo <= v <= hi) (joint_positions joint)).
Proof.
  intros Hpos. unfold monitor_robot.
  destruct (get_robot_position_run time_time random_uniform robot_id s pos Hpos)
    as (s1 & H1 & (A1 & A2 & A3 & A4 & A5 & A6) & C1 & D1).
  unfold bind at 1. rewrite H1.
  unfold bind at 1, store_position at 1, modify at 1.
  set (s2 := with_robot_positions s1 _).
  destruct (get_joint_state_run time_time random_uniform robot_id s2)
    as (s3 & H3 & (B1 & B2 & B3 & B4 & B5 & B6) & C3 & D3).
  rewrite H3. do 2 eexists. split; [reflexivity|].
  unfold s2 in *.
  cbn [robots robot_positions robot_paths collision_objects collision_events
       stats clock_reads random_draws with_robot_positions] in *.
  cbn [js_robot_id joint_positions joint_velocities].
  rewrite !length_map, !length_seq.
  rewrite B1, B2, B3, B4, B5, B6, A1, A2, A3, A4, A5, A6, C3, C1, D3, D1.
  repeat split; try lia.
  intros lo hi Hb. apply Forall_forall. intros v Hv.
  apply in_map_iff in Hv as (i & <- & _). apply Hb.
Qed.

Lemma touch_last_update_run time_time robot_id s info :
  Dict.get (robots s) robot_id = Some info ->
  touch_last_update time_time robot_id s =
  (Ok tt,
   with_robots (with_clock_reads s (S (clock_reads s)))
     (Dict.set (robots s) robot_id
        (with_last_update info (time_time (clock_reads s))))).
Proof.
  intros H. unfold touch_last_update. unfold_m.
  cbn [robots with_clock_reads]. now rewrite H.
Qed.

Lemma Rabs_shift_le a u b : - b <= u <= b -> Rabs (a + u - a) <= b.
Proof.
  intros H. replace (a + u - a) with u by ring.
  apply Rabs_le. lra.
Qed.

(** X17. Reading a robot's position: when a position is stored, the new
    one lies within 10 mm of it in x and in y and within 5 mm in z, with
    rotations of at most 0.1 rad, provided the generator respects its
    bounds; when none is stored but the robot is registered, the result is
    the centre of its workspace at a height of 500 mm; when the robot is
    unknown altogether the call raises [KeyError] and changes nothing. *)
Theorem X17_get_robot_position time_time random_uniform s robot_id :
  (forall n lo hi, lo <= hi -> lo <= random_uniform n lo hi <= hi) ->
  (forall pos,
     Dict.get (robot_positions s) robot_id = Some pos ->
     exists p s',
       _get_robot_position time_time random_uniform robot_id s = (Ok p, s') /\
       Rabs (x p - x pos) <= 10 /\ Rabs (y p - y pos) <= 10 /\
       Rabs (z p - z pos) <= 5 /\
       Rabs (rx p) <= 0.1 /\ Rabs (ry p) <= 0.1 /\ Rabs (rz p) <= 0.1 /\
       timestamp p = time_time (clock_reads s) /\
       robot_positions s' = robot_positions s /\ robots s' = robots s) /\
  (forall info min_x min_y max_x max_y,
     Dict.get (robot_positions s) robot_id = None ->
     Dict.get (robots s) robot_id = Some info ->
     workspace_area info = (min_x, min_y, max_x, max_y) ->
     exists p s',
       _get_robot_position time_time random_uniform robot_id s = (Ok p, s') /\
       x p = (min_x + max_x) / 2 /\ y p = (min_y + max_y) / 2 /\ z p = 500) /\
  (Dict.get (robot_positions s) robot_id = None ->
   Dict.get (robots s) robot_id = None ->
   _get_robot_position time_time random_uniform robot_id s
     = (Raised KeyError, s)).
Proof.
  intros Hgen. split; [|split].
  - intros pos Hpos.
    destruct (get_robot_position_run time_time random_uniform robot_id s pos Hpos)
      as (s' & Hrun & (F1 & F2 & _) & _).
    do 2 eexists. split; [exact Hrun|]. cbn [x y z rx ry rz timestamp].
    pose proof (Hgen (random_draws s) (-10) 10 ltac:(lra)).
    pose proof (Hgen (1 + random_draws s)%nat (-10) 10 ltac:(lra)).
    pose proof (Hgen (2 + random_draws s)%nat (-5) 5 ltac:(lra)).
    pose proof (Hgen (3 + random_draws s)%nat (-0.1) 0.1 ltac:(lra)).
    pose proof (Hgen (4 + random_draws s)%nat (-0.1) 0.1 ltac:(lra)).
    pose proof (Hgen (5 + random_draws s)%nat (-0.1) 0.1 ltac:(lra)).
    repeat split; try assumption;
      first [ apply Rabs_shift_le; lra | apply Rabs_le; lra ].
  - intros info a b c d Hpos Hinfo Hw. unfold _get_robot_position.
    unfold bind at 1, gets at 1. rewrite Hpos.
    unfold bind at 1. unfold bind at 1, lookup at 1. rewrite Hinfo, Hw.
    unfold ret at 1.
    destruct (draw_uniform_run random_uniform (-0.1) 0.1 s) as (s4 & H4 & _).
    destruct (draw_uniform_run random_uniform (-0.1) 0.1 s4) as (s5 & H5 & _).
    destruct (draw_uniform_run random_uniform (-0.1) 0.1 s5) as (s6 & H6 & _).
    destruct (read_clock_run time_time s6) as (s7 & H7 & _).
    unfold bind at 1. rewrite H4.
    unfold bind at 1. rewrite H5.
    unfold bind at 1. rewrite H6.
    unfold bind at 1. rewrite H7. unfold ret.
    do 2 eexists. split; [reflexivity|]. cbn [x y z]. repeat split.
  - intros Hpos Hinfo. unfold _get_robot_position.
    unfold bind at 1, gets at 1. rewrite Hpos.
    unfold bind at 1. unfold bind at 1, lookup at 1. now rewrite Hinfo.
Qed.

Lemma demo_uniform_in_bounds n lo hi :
  lo <= hi -> lo <= demo_uniform n lo hi <= hi.
Proof. unfold demo_uniform. lra. Qed.

Lemma X17_get_robot_position_witness :
  exists p s',
    _get_robot_position demo_clock demo_uniform "ABB_01" grazing_system
      = (Ok p, s') /\
    Rabs (x p - 3000) <= 10.
Proof.
  destruct (proj1 (X17_get_robot_position demo_clock demo_uniform
                     grazing_system "ABB_01" demo_uniform_in_bounds)
              (mkRobotPosition 3000 0 0 0 0 0 1001) eq_refl)
    as (p & s' & Hrun & Hx & _).
  exists p, s'. split; [exact Hrun | exact Hx].
Defined.

Lemma monitoring_loop_run time_time random_uniform (robot_ids : list string) :
  NoDup robot_ids ->
  forall joint_states s,
    (forall id, In id robot_ids ->
       (exists pos, Dict.get (robot_positions s) id = Some pos) /\
       (exists info, Dict.get (robots s) id = Some info)) ->
    exists s' joint_states',
      monitoring_loop time_time random_uniform robot_ids joint_states s
        = (Ok tt, s', joint_states') /\
      Dict.keys (robots s') = Dict.keys (robots s) /\
      Dict.keys (robot_positions s') = Dict.keys (robot_positions s) /\
      robot_paths s' = robot_paths s /\
      collision_objects s' = collision_objects s /\
      collision_events s' = collision_events s /\
      stats s' = stats s /\
      (forall id, ~ In id robot_ids ->
         Dict.get (robot_positions s') id = Dict.get (robot_positions s) id /\
         Dict.get (robots s') id = Dict.get (robots s) id /\
         Dict.get joint_states' id = Dict.get joint_states id) /\
      (forall id pos info,
         In id robot_ids ->
         Dict.get (robot_positions s) id = Some pos ->
         Dict.get (robots s) id = Some info ->
         if connection_active info
         then exists pos' joint u,
                Dict.get (robot_positions s') id = Some pos' /\
                (exists n,
                   x pos' = x pos + random_uniform n (-10) 10 /\
                   y pos' = y pos + random_uniform (1 + n)%nat (-10) 10 /\
                   z pos' = z pos + random_uniform (2 + n)%nat (-5) 5) /\
                Dict.get joint_states' id = Some joint /\
                js_robot_id joint = id /\
                List.length (joint_positions joint) = 6%nat /\
                List.length (joint_velocities joint) = 6%nat /\
                Dict.get (robots s') id = Some (with_last_update info u)
         else Dict.get (robot_positions s') id = Some pos /\
              Dict.get (robots s') id = Some info /\
              Dict.get joint_states' id = Dict.get joint_states id).
Proof.
  intros Hnd. induction Hnd as [|a ids Ha Hnd IH]; intros js s Hreg.
  - exists s, js. split; [reflexivity|]. repeat split; auto. intros ? ? ? [].
  - destruct (Hreg a (or_introl eq_refl)) as [[pos Hpos] [info Hinfo]].
    simpl monitoring_loop. unfold lookup at 1. rewrite Hinfo.
    destruct (connection_active info) eqn:Hact.
    + destruct (monitor_robot_run time_time random_uniform a s pos Hpos)
        as (joint & s1 & Hmon & R1 & P1 & Q1 & O1 & E1 & S1 & C1 & D1 & Hjid & Hlen1 & Hlen2 & _).
      rewrite Hmon.
      rewrite (touch_last_update_run time_time a s1 info) by (now rewrite R1).
      set (s2 := with_robots _ _).
      destruct (IH (Dict.set js a joint) s2)
        as (s' & js' & Hrun & K1 & K2 & K3 & K4 & K5 & K6 & Hout & Hin).
      { intros id Hid. assert (a <> id) by (intros ->; contradiction).
        unfold s2. cbn [robots robot_positions with_robots with_clock_reads].
        rewrite P1, R1, !get_set_other by assumption. apply Hreg. now right. }
      exists s', js'. split; [exact Hrun|].
      unfold s2 in K1, K2, K3, K4, K5, K6.
      cbn [robots robot_positions robot_paths collision_objects collision_events
           stats with_robots with_clock_reads] in K1, K2, K3, K4, K5, K6.
      split. { rewrite K1, R1. apply keys_set_present. apply get_Some_keys. eauto. }
      split. { rewrite K2, P1. apply keys_set_present. apply get_Some_keys. eauto. }
      do 4 (split; [congruence|]).
      split.
      * intros id Hnin. assert (a <> id) by (intros ->; apply Hnin; now left).
        destruct (Hout id) as (X1 & X2 & X3); [intros H'; apply Hnin; now right|].
        rewrite X1, X2, X3. unfold s2.
        cbn [robots robot_positions with_robots with_clock_reads].
        rewrite P1, R1, !get_set_other by assumption. auto.
      * intros id pos0 info0 [<-|Hid] Hp0 Hi0.
        -- rewrite Hpos in Hp0. injection Hp0 as <-.
           rewrite Hinfo in Hi0. injection Hi0 as <-. rewrite Hact.
           destruct (Hout a Ha) as (X1 & X2 & X3). rewrite X1, X2, X3.
           unfold s2. cbn [robots robot_positions with_robots with_clock_reads].
           rewrite P1, R1, !get_set_same.
           do 3 eexists. split; [reflexivity|].
           cbn [x y z].
           split; [exists (random_draws s); repeat split|].
           split; [reflexivity|]. repeat split; assumption.
        -- assert (a <> id) by (intros ->; contradiction).
           assert (Hin' := Hin id pos0 info0 Hid).
           unfold s2 in Hin'.
           cbn [robots robot_positions with_robots with_clock_reads] in Hin'.
           rewrite P1, R1, !get_set_other in Hin' by assumption.
           exact (Hin' Hp0 Hi0).
    + destruct (IH js s) as (s' & js' & Hrun & K1 & K2 & K3 & K4 & K5 & K6 & Hout & Hin).
      { intros id Hid. apply Hreg. now right. }
      exists s', js'. split; [exact Hrun|].
      do 6 (split; [assumption|]). split.
      * intros id Hnin. apply Hout. intros H'; apply Hnin; now right.
      * intros id pos0 info0 [<-|Hid] Hp0 Hi0; [|now apply Hin].
        rewrite Hinfo in Hi0. injection Hi0 as <-. rewrite Hact.
        destruct (Hout a Ha) as (X1 & X2 & X3). rewrite X1, X2, X3. auto.
Qed.
Lemma monitoring_pass_run time_time random_uniform joint_states s :
  registry_ok s ->
  exists s' joint_states',
    position_monitoring_pass time_time random_uniform joint_states s
      = (Ok tt, s', joint_states') /\
    Dict.keys (robots s') = Dict.keys (robots s) /\
    Dict.keys (robot_positions s') = Dict.keys (robot_positions s) /\
    robot_paths s' = robot_paths s /\
    collision_objects s' = collision_objects s /\
    collision_events s' = collision_events s /\
    stats s' = stats s /\
    (forall id info',
       Dict.get (robots s') id = Some info' ->
       exists info u,
         Dict.get (robots s) id = Some info /\
         with_last_update info' u = with_last_update info u) /\
    (forall id pos info,
       Dict.get (robot_positions s) id = Some pos ->
       Dict.get (robots s) id = Some info ->
       if connection_active info
       then exists pos' joint,
              Dict.get (robot_positions s') id = Some pos' /\
              (exists n,
                 x pos' = x pos + random_uniform n (-10) 10 /\
                 y pos' = y pos + random_uniform (1 + n)%nat (-10) 10 /\
                 z pos' = z pos + random_uniform (2 + n)%nat (-5) 5) /\
              Dict.get joint_states' id = Some joint /\
              js_robot_id joint = id /\
              List.length (joint_positions joint) = 6%nat /\
              List.length (joint_velocities joint) = 6%nat
       else Dict.get (robot_positions s') id = Some pos /\
            Dict.get joint_states' id = Dict.get joint_states id).
Proof.
  intros Hok. pose proof Hok as (Hnd & Hpos & _).
  unfold position_monitoring_pass.
  destruct (monitoring_loop_run time_time random_uniform (Dict.keys (robots s))
              Hnd joint_states s)
    as (s' & js' & Hrun & K1 & K2 & K3 & K4 & K5 & K6 & Hout & Hin).
  { intros id Hid. split; apply get_Some_keys; [now rewrite Hpos | assumption]. }
  exists s', js'. split; [exact Hrun|]. do 6 (split; [assumption|]).
  split.
  - intros id info' Hget.
    assert (Hid : In id (Dict.keys (robots s)))
      by (rewrite <- K1; apply get_Some_keys; eauto).
    pose proof Hid as Hid'. apply get_Some_keys in Hid' as [info Hinfo].
    assert (exists pos, Dict.get (robot_positions s) id = Some pos) as [pos Hp]
      by (apply get_Some_keys; now rewrite Hpos).
    specialize (Hin id pos info Hid Hp Hinfo).
    destruct (connection_active info).
    + destruct Hin as (pos' & joint & u & _ & _ & _ & _ & _ & _ & Hr).
      rewrite Hget in Hr. injection Hr as ->. exists info, u. auto.
    + destruct Hin as (_ & Hr & _). rewrite Hget in Hr. injection Hr as ->.
      exists info, 0. auto.
  - intros id pos info Hp Hinfo.
    assert (Hid : In id (Dict.keys (robots s))) by (apply get_Some_keys; eauto).
    specialize (Hin id pos info Hid Hp Hinfo).
    destruct (connection_active info).
    + destruct Hin as (pos' & joint & u & H1 & H2 & H5 & H6 & H7 & H8 & _).
      exists pos', joint. repeat split; assumption.
    + tauto.
Qed.

(** X18. One pass of the position monitor over a consistent registry
    never fails.  Every connected robot gets a new position within 10 mm of
    the old one in x and in y and within 5 mm in z (when the generator
    respects its bounds) and a joint state with six positions and six
    velocities; a robot that is not connected keeps its position.  The pass
    changes no status, brand or reach radius, keeps the registry
    consistent, and leaves paths, event log and statistics untouched. *)
Theorem X18_monitoring_pass time_time random_uniform joint_states s :
  registry_ok s ->
  (forall n lo hi, lo <= hi -> lo <= random_uniform n lo hi <= hi) ->
  exists s' joint_states',
    position_monitoring_pass time_time random_uniform joint_states s
      = (Ok tt, s', joint_states') /\
    registry_ok s' /\
    Dict.keys (robots s') = Dict.keys (robots s) /\
    robot_paths s' = robot_paths s /\
    collision_events s' = collision_events s /\
    stats s' = stats s /\
    (forall id, status_of s' id = status_of s id) /\
    (forall id pos info,
       Dict.get (robot_positions s) id = Some pos ->
       Dict.get (robots s) id = Some info ->
       if connection_active info
       then exists pos' joint,
              Dict.get (robot_positions s') id = Some pos' /\
              Rabs (x pos' - x pos) <= 10 /\ Rabs (y pos' - y pos) <= 10 /\
              Rabs (z pos' - z pos) <= 5 /\
              Dict.get joint_states' id = Some joint /\
              js_robot_id joint = id /\
              List.length (joint_positions joint) = 6%nat /\
              List.length (joint_velocities joint) = 6%nat
       else Dict.get (robot_positions s') id = Some pos /\
            Dict.get joint_states' id = Dict.get joint_states id).
Proof.
  intros Hok Hgen.
  destruct (monitoring_pass_run time_time random_uniform joint_states s Hok)
    as (s' & js' & Hrun & K1 & K2 & K3 & K4 & K5 & K6 & Hinfo & Hmoved).
  exists s', js'. split; [exact Hrun|].
  split.
  { apply (registry_ok_frame s s' Hok); try congruence.
    intros id info' Hget. destruct (Hinfo id info' Hget) as (info & u & Hg & E).
    exists info. split; [assumption|].
    apply (f_equal brand) in E as Eb. apply (f_equal reach_radius) in E as Er.
    auto. }
  do 4 (split; [assumption|]).
  split.
  2:{ intros id pos info Hp Hi. specialize (Hmoved id pos info Hp Hi).
      destruct (connection_active info); [|exact Hmoved].
      destruct Hmoved as (pos' & joint & H1 & (n & Hx & Hy & Hz) & H5).
      exists pos', joint. split; [exact H1|].
      pose proof (Hgen n (-10) 10 ltac:(lra)).
      pose proof (Hgen (1 + n)%nat (-10) 10 ltac:(lra)).
      pose proof (Hgen (2 + n)%nat (-5) 5 ltac:(lra)).
      rewrite Hx, Hy, Hz.
      do 3 (split; [apply Rabs_shift_le; lra|]). exact H5. }
  intros id. unfold status_of.
  destruct (Dict.get (robots s') id) as [info'|] eqn:Hget.
  - destruct (Hinfo id info' Hget) as (info & u & Hg & E).
    rewrite Hg. simpl. f_equal. exact (f_equal status E).
  - assert (Hn : Dict.get (robots s) id = None)
      by (apply get_None_keys; rewrite <- K1; now apply get_None_keys).
    now rewrite Hn.
Qed.

Lemma X18_monitoring_pass_witness :
  exists s' joint_states' pos',
    position_monitoring_pass demo_clock demo_uniform Dict.empty grazing_system
      = (Ok tt, s', joint_states') /\
    Dict.get (robot_positions s') "ABB_01" = Some pos' /\
    Rabs (x pos' - 3000) <= 10 /\
    status_of s' "ABB_01" = Some IDLE.
Proof.
  destruct (X18_monitoring_pass demo_clock demo_uniform Dict.empty grazing_system
              registry_ok_grazing_system demo_uniform_in_bounds)
    as (s' & js' & Hrun & _ & _ & _ & _ & _ & Hstatus & Hmoved).
  destruct (Hmoved "ABB_01" (mkRobotPosition 3000 0 0 0 0 0 1001)
              (mkRobotInfo "ABB_01" ABB "192.168.1.120"
                 (1000, -2000, 4000, 2000) IDLE (demo_clock 2) true 1600)
              eq_refl eq_refl)
    as (pos' & joint & Hget & Hx & _).
  exists s', js', pos'. split; [exact Hrun|]. split; [exact Hget|].
  split; [exact Hx|]. rewrite Hstatus. reflexivity.
Defined.

(** ** Statistics *)

(** X19. Reading the statistics of a consistent system changes nothing but
    the count of clock readings.  The report gives the number of registry
    entries as registered robots, at most that many active robots and
    active paths, the counters as they stand, and as uptime the time since
    the given start reading in hours. *)
Theorem X19_statistics_report time_time s system_start_time :
  registry_ok s ->
  exists report s',
    get_collision_statistics time_time system_start_time s = (Ok report, s') /\
    only_counters_changed s s' /\
    clock_reads s' = S (clock_reads s) /\
    random_draws s' = random_draws s /\
    registered_robots report = Z.of_nat (List.length (Dict.keys (robots s))) /\
    (0 <= active_robots report <= registered_robots report)%Z /\
    (0 <= active_paths report <= registered_robots report)%Z /\
    uptime_hours report =
      (time_time (clock_reads s) - system_start_time) / 3600 /\
    report_total_collisions_avoided report = total_collisions_avoided (stats s) /\
    report_path_replanning_events report = path_replanning_events (stats s) /\
    report_robots_coordinated report = robots_coordinated (stats s) /\
    report_safety_violations report = safety_violations (stats s).
Proof.
  intros (_ & _ & Hpaths & _).
  unfold get_collision_statistics. unfold_m.
  do 2 eexists. split; [reflexivity|].
  cbn [registered_robots active_robots active_paths uptime_hours
       report_total_collisions_avoided report_path_replanning_events
       report_robots_coordinated report_safety_violations].
  cbn [robots robot_paths stats clock_reads random_draws with_clock_reads].
  split; [repeat split|].
  unfold Dict.keys, Dict.items. rewrite length_map.
  pose proof (filter_length_le (fun e => connection_active (snd e)) (robots s)).
  pose proof (filter_length_le (fun e : string * option RobotPath =>
                                  is_entry_active (snd e)) (robot_paths s)).
  assert (List.length (robot_paths s) = List.length (robots s)).
  { rewrite <- (length_map fst (robot_paths s)), <- (length_map fst (robots s)).
    exact (f_equal _ Hpaths). }
  repeat split; lia.
Qed.

Lemma X19_statistics_report_witness :
  exists report s',
    get_collision_statistics demo_clock 999 demo_system = (Ok report, s') /\
    registered_robots report = 2%Z.
Proof.
  destruct (X19_statistics_report demo_clock demo_system 999
              registry_ok_demo_system)
    as (report & s' & Hrun & _ & _ & _ & Hreg & _).
  exists report, s'. split; [exact Hrun | exact Hreg].
Defined.

(** ** Invariants over histories *)

Lemma delay_path_zero p : delay_path (INR 0) p = p.
Proof.
  destruct p as [rid pid pts dur prio act start]. unfold delay_path.
  cbn [path_robot_id path_id points total_duration priority is_active start_time INR].
  f_equal; [|ring].
  rewrite <- (map_id pts) at 2. apply map_ext. intros [pos v a t c].
  unfold delay_point. cbn. f_equal. ring.
Qed.

Lemma delay_path_plus j k p :
  delay_path (INR k) (delay_path (INR j) p) = delay_path (INR (j + k)) p.
Proof.
  rewrite plus_INR. unfold delay_path.
  cbn [path_robot_id path_id points total_duration priority is_active start_time].
  f_equal; [|ring].
  rewrite map_map. apply map_ext. intros pt. unfold delay_point.
  cbn [position velocity acceleration time_from_start collision_risk].
  f_equal. ring.
Qed.

Lemma path_ok_delay s s' id p k :
  path_ok s id p ->
  (forall info, Dict.get (robots s) id = Some info ->
     exists info', Dict.get (robots s') id = Some info' /\ brand info' = brand info) ->
  path_ok s' id (delay_path (INR k) p).
Proof.
  intros (Hid & Hact & Hdur & (j & Htimes) & info & Hinfo & Hprio) Hrob.
  destruct (Hrob info Hinfo) as (info' & Hinfo' & Hb).
  repeat split; try assumption.
  - exists (j + k)%nat. rewrite times_delay_path, Htimes, map_map.
    apply map_ext. intros t. rewrite plus_INR. ring.
  - exists info'. split; [assumption|]. cbn [priority delay_path]. congruence.
Qed.

Lemma invariant_frame s s' new :
  system_invariant s ->
  Dict.keys (robots s') = Dict.keys (robots s) ->
  (forall id info',
     Dict.get (robots s') id = Some info' ->
     exists info,
       Dict.get (robots s) id = Some info /\
       brand info' = brand info /\ reach_radius info' = reach_radius info /\
       info_robot_id info' = info_robot_id info /\
       connection_active info' = connection_active info) ->
  Dict.keys (robot_positions s') = Dict.keys (robot_positions s) ->
  Dict.keys (robot_paths s') = Dict.keys (robot_paths s) ->
  (forall id p',
     Dict.get (robot_paths s') id = Some (Some p') ->
     exists p k,
       (Dict.get (robot_paths s) id = Some (Some p) \/ path_ok s id p) /\
       p' = delay_path (INR k) p) ->
  collision_events s' = collision_events s ++ new ->
  total_collisions_avoided (stats s') =
    (total_collisions_avoided (stats s) + Z.of_nat (List.length new))%Z ->
  (forall e, In e new -> event_ok s e) ->
  system_invariant s'.
Proof.
  intros (Hok & Hinfo & Htotal & Hevents & Hpaths) Kr Rr Kp Kq Q Eq T N.
  assert (Hreg : forall id, registered s id -> registered s' id).
  { intros id. unfold registered. now rewrite !mem_true_iff, Kr. }
  assert (Hfwd : forall id info, Dict.get (robots s) id = Some info ->
            exists info', Dict.get (robots s') id = Some info' /\
                          brand info' = brand info).
  { intros id info Hget.
    assert (In id (Dict.keys (robots s'))) as Hin
      by (rewrite Kr; apply get_Some_keys; eauto).
    apply get_Some_keys in Hin as [info' Hget'].
    destruct (Rr id info' Hget') as (info0 & Hget0 & Hb & _).
    exists info'. split; [assumption|]. congruence. }
  split; [|split; [|split; [|split]]].
  - apply (registry_ok_frame s s' Hok Kr Kp Kq).
    intros id info' Hget. destruct (Rr id info' Hget) as (info & H1 & H2 & H3 & _).
    eauto.
  - intros id info' Hget.
    destruct (Rr id info' Hget) as (info & H1 & _ & _ & H4 & H5).
    destruct (Hinfo id info H1). split; congruence.
  - rewrite T, Eq, length_app, Htotal. lia.
  - intros e He. rewrite Eq in He. apply in_app_or in He.
    assert (event_ok s e) as (H1 & H2 & H3) by (destruct He; auto).
    repeat split; auto.
  - intros id p' Hget. destruct (Q id p' Hget) as (p & k & Hp & ->).
    apply path_ok_delay with (s := s); [|apply Hfwd].
    destruct Hp; auto.
Qed.

Lemma erase_status_fields d d' id info' :
  erase_status d' = erase_status d ->
  Dict.get d' id = Some info' ->
  exists info,
    Dict.get d id = Some info /\
    brand info' = brand info /\ reach_radius info' = reach_radius info /\
    info_robot_id info' = info_robot_id info /\
    connection_active info' = connection_active info.
Proof.
  intros He Hg. pose proof (get_erase_status d id) as H.
  rewrite <- He, get_erase_status, Hg in H. simpl in H.
  destruct (Dict.get d id) as [info|]; [|discriminate].
  exists info. split; [reflexivity|]. simpl in H.
  injection H as H1 H2 _ _ _ H6 H7. auto.
Qed.

Lemma invariant_init : system_invariant init.
Proof.
  split; [apply registry_ok_init|].
  split; [intros id info H; discriminate|].
  split; [reflexivity|].
  split; [intros e [] | intros id p H; discriminate].
Qed.

Lemma invariant_register time_time robot_id b ip workspace s :
  system_invariant s ->
  system_invariant (exec (register_robot time_time robot_id b ip workspace) s).
Proof.
  intros Hinv. pose proof Hinv as (Hok & Hinfo & Htotal & Hevents & Hpaths).
  split; [now apply registry_ok_register|].
  unfold exec. rewrite register_robot_run. cbn [snd].
  cbn [robots robot_paths stats collision_events].
  split; [|split; [assumption|split]].
  - intros id info. destruct (string_dec robot_id id) as [->|Hne].
    + rewrite get_set_same. intros [= <-]. auto.
    + rewrite get_set_other by assumption. apply Hinfo.
  - intros e He. destruct (Hevents e He) as (H1 & H2 & H3).
    unfold event_ok, registered in *. cbn [robots].
    rewrite !mem_true_iff in *.
    assert (forall k, In k (Dict.keys (robots s)) ->
                      In k (Dict.keys (Dict.set (robots s) robot_id
                        (mkRobotInfo robot_id b ip workspace IDLE
                           (time_time (clock_reads s)) true
                           (_calculate_reach_radius b))))) as Hmono.
    { intros k Hk.
      destruct (in_dec string_dec robot_id (Dict.keys (robots s))).
      - now rewrite keys_set_present.
      - rewrite keys_set_fresh by assumption. apply in_or_app. now left. }
    auto.
  - intros id p. destruct (string_dec robot_id id) as [->|Hne].
    + rewrite get_set_same. discriminate.
    + rewrite get_set_other by assumption. intros Hget.
      destruct (Hpaths id p Hget) as (H1 & H2 & H3 & H4 & info & H5 & H6).
      repeat split; try assumption. exists info. cbn [robots].
      rewrite get_set_other by assumption. auto.
Qed.

Lemma invariant_status_only s s' :
  system_invariant s ->
  erase_status (robots s') = erase_status (robots s) ->
  robot_positions s' = robot_positions s ->
  robot_paths s' = robot_paths s ->
  collision_events s' = collision_events s ->
  total_collisions_avoided (stats s') = total_collisions_avoided (stats s) ->
  system_invariant s'.
Proof.
  intros Hinv He Hp Hq Hev Ht.
  apply (invariant_frame s s' [] Hinv).
  - now apply erase_status_keys.
  - intros id info' Hget. now apply (erase_status_fields _ _ _ _ He).
  - now rewrite Hp.
  - now rewrite Hq.
  - intros id p' Hget. exists p', 0%nat. rewrite delay_path_zero.
    split; [left; congruence | reflexivity].
  - now rewrite app_nil_r.
  - simpl. lia.
  - intros e [].
Qed.

Lemma invariant_statistics time_time t0 s :
  system_invariant s ->
  system_invariant (exec (get_collision_statistics time_time t0) s).
Proof.
  intros Hinv. apply (invariant_status_only s); auto.
Qed.

Lemma invariant_shutdown s :
  system_invariant s -> system_invariant (exec shutdown s).
Proof.
  intros Hinv. unfold exec, shutdown. unfold bind at 1, gets at 1.
  destruct (stop_all_loop (Dict.keys (robots s)) s)
    as (s' & Hrun & (P & Q & _ & E & S & _) & Herase & _).
  { intros id Hin. now apply mem_true_iff. }
  rewrite Hrun. cbn [snd].
  apply (invariant_status_only s); auto. now rewrite S.
Qed.

Lemma invariant_monitoring time_time random_uniform joint_states s :
  system_invariant s ->
  system_invariant
    (snd (fst (position_monitoring_pass time_time random_uniform joint_states s))).
Proof.
  intros Hinv. pose proof Hinv as (Hok & _).
  destruct (monitoring_pass_run time_time random_uniform joint_states s Hok)
    as (s' & js' & Hrun & K1 & K2 & K3 & K4 & K5 & K6 & Hinfo & _).
  rewrite Hrun. cbn [fst snd].
  apply (invariant_frame s s' [] Hinv); try assumption.
  - intros id info' Hget. destruct (Hinfo id info' Hget) as (info & u & Hg & E).
    exists info. split; [assumption|].
    repeat split;
      [exact (f_equal brand E) | exact (f_equal reach_radius E)
       | exact (f_equal info_robot_id E) | exact (f_equal connection_active E)].
  - now rewrite K3.
  - intros id p' Hget. exists p', 0%nat. rewrite delay_path_zero.
    split; [left; congruence | reflexivity].
  - now rewrite app_nil_r.
  - rewrite K6. simpl. lia.
  - intros e [].
Qed.

Lemma in_all_pairs_registered s a b :
  registry_ok s -> In (a, b) (all_pairs (Dict.keys (robots s))) ->
  registered s a /\ registered s b /\ a <> b.
Proof.
  intros (Hnd & _) Hin. pose proof (all_pairs_distinct _ _ _ Hnd Hin).
  apply in_all_pairs in Hin as [Ha Hb].
  unfold registered. rewrite !mem_true_iff. auto.
Qed.

Lemma invariant_detection time_time random_uniform s :
  system_invariant s ->
  system_invariant (exec (collision_detection_pass time_time random_uniform) s).
Proof.
  intros Hinv. pose proof Hinv as (Hok & _).
  destruct (collision_detection_pass_run time_time random_uniform s Hok)
    as (s' & new & Hrun & (G1 & G2 & G3) & Hev & Hkey & _).
  destruct (detection_pass_counters_run time_time random_uniform s Hok)
    as (s'' & Hrun' & _ & Htotal & _).
  rewrite Hrun in Hrun'. injection Hrun' as <-.
  unfold exec. rewrite Hrun. cbn [snd].
  assert (Hlen : List.length new = List.length (expected_events s))
    by (rewrite <- Hkey; now rewrite length_map).
  apply (invariant_frame s s' new Hinv).
  - now apply erase_status_keys.
  - intros id info' Hget. now apply (erase_status_fields _ _ _ _ G3).
  - now rewrite G1.
  - now rewrite G2.
  - intros id p' Hget. exists p', 0%nat. rewrite delay_path_zero.
    split; [left; congruence | reflexivity].
  - exact Hev.
  - now rewrite Htotal, Hlen.
  - intros e He.
    assert (In (event_key e) (expected_events s)) as Hin
      by (rewrite <- Hkey; now apply in_map).
    unfold event_key in Hin.
    apply expected_events_spec in Hin as [Hpair _]; [|assumption].
    now apply in_all_pairs_registered.
Qed.

Lemma nominal_times_shift_zero :
  nominal_times = map (fun t => t + INR 0) nominal_times.
Proof.
  rewrite <- (map_id nominal_times) at 1. apply map_ext. intros t. simpl. ring.
Qed.

Lemma generated_path_ok time_time robot_id s path s1 :
  _generate_safe_path time_time robot_id s = (Ok path, s1) ->
  path_ok s robot_id path /\ only_clock_changed s s1.
Proof.
  intros Hgen.
  destruct (Dict.get (robot_positions s) robot_id) as [pos|] eqn:Hpos;
    [|rewrite generate_safe_path_missing in Hgen by assumption; discriminate].
  destruct (Dict.get (robots s) robot_id) as [info|] eqn:Hinfo.
  - destruct (generate_safe_path_run time_time robot_id s pos info Hpos Hinfo)
      as (p & s' & Hrun & Hframe & _ & Hid & Htimes & Hdur & Hprio & Hact & _).
    rewrite Hgen in Hrun. injection Hrun as <- <-.
    split; [|exact Hframe].
    repeat split; try assumption.
    + exists 0%nat. rewrite Htimes. apply nominal_times_shift_zero.
    + exists info. auto.
  - exfalso. revert Hgen. unfold _generate_safe_path.
    unfold bind at 1, lookup at 1. rewrite Hpos.
    destruct (sample_points_run time_time pos (seq 0 10) s)
      as (pts & s' & Hrun & (F1 & _) & _).
    unfold bind at 1. rewrite Hrun.
    unfold bind at 1, read_clock at 1. unfold bind at 1.
    rewrite get_robot_priority_missing; [discriminate|].
    cbn [robots with_clock_reads]. now rewrite F1.
Qed.

Lemma invariant_optimize s :
  system_invariant s ->
  system_invariant (exec _optimize_active_paths s) /\
  fst (_optimize_active_paths s) = Ok tt.
Proof.
  intros Hinv. pose proof Hinv as (Hok & _).
  destruct (optimize_active_paths_run s Hok)
    as (s' & Hrun & (F1 & F2 & F3 & F4 & F5 & F6 & F7) & Hkeys & Hdel & _).
  unfold exec. rewrite Hrun. cbn [fst snd]. split; [|reflexivity].
  apply (invariant_frame s s' [] Hinv).
  - now rewrite F1.
  - intros id info' Hget. rewrite F1 in Hget. eauto 10.
  - now rewrite F2.
  - exact Hkeys.
  - intros id p' Hget. destruct (Hdel id) as [E|(k & q & E0 & E)].
    + exists p', 0%nat. rewrite delay_path_zero.
      split; [left; congruence | reflexivity].
    + exists q, k. split; [now left | congruence].
  - now rewrite app_nil_r.
  - rewrite F5. simpl. lia.
  - intros e [].
Qed.

Lemma invariant_replan time_time robot_id s :
  system_invariant s ->
  match _replan_robot_path time_time robot_id s with
  | (Ok _, s') => system_invariant s'
  | (Raised _, s') => s' = s
  end.
Proof.
  intros Hinv. pose proof Hinv as (Hok & _).
  destruct (Dict.mem (robots s) robot_id) eqn:Hreg.
  - destruct (registry_ok_positions _ _ Hok Hreg) as [pos Hpos].
    pose proof Hreg as Hreg'. apply registered_info in Hreg' as [info Hinfo].
    destruct (replan_robot_path_run time_time robot_id s pos info Hpos Hinfo)
      as (path & s0 & s1 & Hgen & Hrun & Hrob & Hp & Hpaths & _ & Hev & Hstats & _).
    rewrite Hrun.
    destruct (generated_path_ok _ _ _ _ _ Hgen) as [Hfresh _].
    apply (invariant_frame s s1 [] Hinv).
    + now rewrite Hrob.
    + intros id info' Hget. rewrite Hrob in Hget. eauto 10.
    + now rewrite Hp.
    + rewrite Hpaths. apply keys_set_present.
      destruct Hok as (_ & _ & Hk & _). rewrite Hk. now apply mem_true_iff.
    + intros id p' Hget. rewrite Hpaths in Hget.
      destruct (string_dec robot_id id) as [<-|Hne].
      * rewrite get_set_same in Hget. injection Hget as <-.
        exists path, 0%nat. rewrite delay_path_zero. auto.
      * rewrite get_set_other in Hget by assumption.
        exists p', 0%nat. rewrite delay_path_zero. auto.
    + now rewrite app_nil_r.
    + rewrite Hstats. simpl. lia.
    + intros e [].
  - unfold _replan_robot_path. unfold bind at 1.
    rewrite generate_safe_path_missing; [reflexivity|].
    destruct Hok as (_ & Hpos & _).
    apply get_None_keys. rewrite Hpos. intros Hin.
    apply mem_true_iff in Hin. congruence.
Qed.

Lemma invariant_planning time_time queue s :
  system_invariant s ->
  system_invariant (exec (path_planning_tick time_time queue) s).
Proof.
  intros Hinv. unfold exec, path_planning_tick.
  destruct queue as [|robot_id rest].
  - unfold bind, try_except, ret.
    destruct (invariant_optimize s Hinv) as [Hopt Hres].
    unfold exec in Hopt.
    destruct (_optimize_active_paths s) as [[[]|e] s']; [exact Hopt|discriminate].
  - unfold bind at 1, try_except at 1. unfold bind at 1.
    pose proof (invariant_replan time_time robot_id s Hinv) as Hrep.
    destruct (_replan_robot_path time_time robot_id s) as [[[]|e] s1].
    + destruct (invariant_optimize s1 Hrep) as [Hopt Hres].
      unfold exec in Hopt.
      destruct (_optimize_active_paths s1) as [[[]|e] s']; [exact Hopt|discriminate].
    + subst s1. exact Hinv.
Qed.

Lemma generate_safe_path_frame time_time robot_id s r s1 :
  _generate_safe_path time_time robot_id s = (r, s1) ->
  only_clock_changed s s1.
Proof.
  destruct r as [path|e]; intros Hgen.
  - now destruct (generated_path_ok _ _ _ _ _ Hgen).
  - revert Hgen. unfold _generate_safe_path.
    unfold bind at 1, lookup at 1.
    destruct (Dict.get (robot_positions s) robot_id) as [pos|].
    + destruct (sample_points_run time_time pos (seq 0 10) s)
        as (pts & s' & Hrun & Hframe & _).
      unfold bind at 1. rewrite Hrun.
      unfold bind at 1, read_clock at 1. unfold bind at 1.
      unfold _get_robot_priority, bind at 1, lookup at 1.
      cbn [robots with_clock_reads].
      destruct (Dict.get (robots s') robot_id) as [info|].
      * destruct (brand info); unfold bind, read_clock, ret; discriminate.
      * intros H. apply (f_equal snd) in H. cbn [snd] in H. subst s1.
        destruct Hframe as (F1 & F2 & F3 & F4 & F5 & F6 & F7).
        repeat split; assumption.
    + intros H. apply (f_equal snd) in H. cbn [snd] in H. subst s1.
      apply only_clock_changed_refl.
Qed.

Lemma path_ok_same_robots s s' id p :
  robots s' = robots s -> path_ok s id p -> path_ok s' id p.
Proof.
  intros Hr (H1 & H2 & H3 & H4 & info & H5 & H6).
  repeat split; try assumption. exists info. now rewrite Hr.
Qed.

Lemma coordinated_paths_loop_inv time_time (ids : list string) :
  forall i acc s,
  exists r s',
    coordinated_paths_loop time_time (enumerate_from i ids) acc s = (r, s') /\
    only_clock_changed s s' /\
    match r with
    | Ok paths =>
        (NoDup (Dict.keys acc) -> NoDup (Dict.keys paths)) /\
        forall id p,
          Dict.get paths id = Some p ->
          Dict.get acc id = Some p \/
          exists q k, path_ok s id q /\ p = delay_path (INR k) q
    | Raised _ => True
    end.
Proof.
  induction ids as [|a ids IH]; intros i acc s.
  - exists (Ok acc), s. split; [reflexivity|].
    split; [apply only_clock_changed_refl|]. split; auto.
  - simpl. unfold bind at 1.
    destruct (_generate_safe_path time_time a s) as [[p0|e] s1] eqn:Hgen.
    + destruct (generated_path_ok _ _ _ _ _ Hgen) as [Hfresh Hframe].
      destruct (IH (S i) (Dict.set acc a (delay_path (INR i * 2) p0)) s1)
        as (r & s' & Hrun & Hframe' & Hres).
      exists r, s'. split; [exact Hrun|].
      split; [eapply only_clock_changed_trans; eassumption|].
      destruct r as [paths|]; [|exact I].
      destruct Hres as [Hnd Hentries]. split.
      * intros H. apply Hnd. now apply NoDup_keys_set.
      * intros id p Hget. destruct Hframe as (R1 & _).
        destruct (Hentries id p Hget) as [Hacc|(q & k & Hq & ->)].
        -- destruct (string_dec a id) as [<-|Hne].
           ++ rewrite get_set_same in Hacc. injection Hacc as <-.
              right. exists p0, (i * 2)%nat. split; [assumption|].
              replace (INR (i * 2)) with (INR i * 2)
                by (rewrite mult_INR; simpl; ring).
              reflexivity.
           ++ rewrite get_set_other in Hacc by assumption. now left.
        -- right. exists q, k. split; [|reflexivity].
           apply (path_ok_same_robots s1 s); [now rewrite R1 | assumption].
    + exists (Raised e), s1. split; [reflexivity|].
      split; [eapply generate_safe_path_frame; eassumption | exact I].
Qed.

Lemma publish_loop_keys (d : Dict.t RobotPath) :
  forall s,
    (forall e, In e d -> In (fst e) (Dict.keys (robot_paths s))) ->
    exists s',
      for_each (Dict.items d) publish_path s = (Ok tt, s') /\
      Dict.keys (robot_paths s') = Dict.keys (robot_paths s).
Proof.
  unfold Dict.items. induction d as [|[k p] d IH]; intros s Hin.
  - exists s. split; reflexivity.
  - simpl for_each. unfold bind at 1.
    unfold publish_path at 1. unfold bind at 1, modify at 1.
    unfold _send_path_to_robot at 1, ret at 1.
    assert (Hk : Dict.keys (Dict.set (robot_paths s) k (Some p))
                 = Dict.keys (robot_paths s))
      by (apply keys_set_present; apply (Hin (k, p)); now left).
    destruct (IH (with_robot_paths s (Dict.set (robot_paths s) k (Some p))))
      as (s' & Hrun & Hkeys).
    { intros e He. cbn [robot_paths with_robot_paths]. rewrite Hk.
      apply Hin. now right. }
    exists s'. split; [exact Hrun|].
    rewrite Hkeys. cbn [robot_paths with_robot_paths]. exact Hk.
Qed.

Lemma invariant_coordinate time_time robot_ids task s :
  system_invariant s ->
  system_invariant (exec (coordinate_robots time_time robot_ids task) s).
Proof.
  intros Hinv. pose proof Hinv as (Hok & _).
  unfold exec, coordinate_robots, try_except.
  destruct (mark_coordinated_loop robot_ids s)
    as (s1 & Hmark & (P1 & Q1 & O1 & E1 & S1 & C1 & D1) & Herase & _).
  unfold bind at 1. rewrite Hmark.
  unfold bind at 1. unfold _generate_coordinated_paths, enumerate.
  destruct (coordinated_paths_loop_inv time_time robot_ids 0 Dict.empty s1)
    as (r & s2 & Hloop & (R2 & P2 & Q2 & O2 & E2 & S2 & D2) & Hres).
  rewrite Hloop.
  assert (Hpath1 : forall id q, path_ok s1 id q ->
            exists q' k, path_ok s id q' /\ q = delay_path (INR k) q').
  { intros id q (H1 & H2 & H3 & H4 & info1 & H5 & H6).
    exists q, 0%nat. rewrite delay_path_zero. split; [|reflexivity].
    destruct (erase_status_fields _ _ _ _ Herase H5) as (info & Hg & Hb & _).
    repeat split; try assumption. exists info. split; [assumption|]. congruence. }
  destruct r as [paths|e].
  - destruct Hres as [Hnd Hentries]. specialize (Hnd (NoDup_nil _)).
    destruct (publish_loop paths Hnd s2) as (s3 & Hpub & Hframe3 & Hget).
    destruct (publish_loop_keys paths s2) as (s3' & Hpub' & Hkeys).
    { intros [id p] Hin. cbn [fst].
      apply (in_get _ _ _ Hnd) in Hin.
      destruct (Hentries id p Hin) as [Habs|(q & k & Hq & _)]; [discriminate|].
      destruct Hq as (_ & _ & _ & _ & info & Hinfo & _).
      rewrite Q2, Q1. destruct Hok as (_ & _ & Hk & _). rewrite Hk.
      rewrite <- (erase_status_keys _ _ Herase).
      apply get_Some_keys. eauto. }
    rewrite Hpub in Hpub'. injection Hpub' as <-.
    unfold bind at 1. rewrite Hpub. unfold_m. cbn [snd].
    destruct Hframe3 as (R3 & P3 & O3 & E3 & S3 & C3 & D3).
    apply (invariant_frame s _ [] Hinv);
      cbn [robots robot_positions robot_paths collision_events stats with_stats].
    + rewrite R3, R2. now apply erase_status_keys.
    + intros id info' Hg. rewrite R3, R2 in Hg.
      now apply (erase_status_fields _ _ _ _ Herase).
    + now rewrite P3, P2, P1.
    + now rewrite Hkeys, Q2, Q1.
    + intros id p' Hg. rewrite Hget in Hg.
      destruct (Dict.get paths id) as [p|] eqn:Hp.
      * injection Hg as <-.
        destruct (Hentries id p Hp) as [Habs|(q & k & Hq & ->)]; [discriminate|].
        destruct (Hpath1 id q Hq) as (q' & k' & Hq' & ->).
        exists q', (k' + k)%nat. split; [now right|]. now rewrite delay_path_plus.
      * rewrite Q2, Q1 in Hg. exists p', 0%nat. rewrite delay_path_zero. auto.
    + now rewrite app_nil_r, E3, E2, E1.
    + unfold add_robots_coordinated. cbn [total_collisions_avoided].
      rewrite S3, S2, S1. simpl. lia.
    + intros e [].
  - unfold ret. cbn [snd].
    apply (invariant_status_only s s2 Hinv); congruence.
Qed.

Lemma invariant_step time_time random_uniform w c :
  system_invariant (fst w) ->
  system_invariant (fst (step time_time random_uniform w c)).
Proof.
  destruct w as [s js]. cbn [fst]. intros Hinv. unfold step.
  destruct c; cbn [fst].
  - now apply invariant_register.
  - now apply invariant_coordinate.
  - now apply invariant_statistics.
  - now apply invariant_shutdown.
  - pose proof (invariant_monitoring time_time random_uniform js s Hinv) as H.
    destruct (position_monitoring_pass time_time random_uniform js s)
      as [[r s'] js']. exact H.
  - now apply invariant_detection.
  - now apply invariant_planning.
Qed.

Lemma invariant_run_calls time_time random_uniform calls :
  system_invariant (fst (run_calls time_time random_uniform calls)).
Proof.
  unfold run_calls.
  assert (H : forall w, system_invariant (fst w) ->
            system_invariant
              (fst (fold_left (step time_time random_uniform) calls w))).
  { induction calls as [|c calls IH]; intros w Hw; [exact Hw|].
    simpl. apply IH. now apply invariant_step. }
  apply H. exact invariant_init.
Qed.

Lemma filter_all {A} (f : A -> bool) (l : list A) :
  (forall a, In a l -> f a = true) -> filter f l = l.
Proof.
  intros H. apply forallb_filter_id. apply forallb_forall. exact H.
Qed.

(** X20. After any sequence of registrations, coordination requests,
    statistics readings, shutdowns and ticks of the three loops, starting
    from a fresh system, the registry is consistent: ids are unique, the
    tables of robots, positions and paths have the same keys in the same
    order, every entry is stored under its own id with the reach radius of
    its brand, and every robot is marked connected, since nothing ever
    clears the flag.  The statistics therefore always report as many active
    robots as registered ones. *)
Theorem X20_registry_consistent time_time random_uniform calls :
  let s := fst (run_calls time_time random_uniform calls) in
  NoDup (Dict.keys (robots s)) /\
  Dict.keys (robot_positions s) = Dict.keys (robots s) /\
  Dict.keys (robot_paths s) = Dict.keys (robots s) /\
  (forall id info,
     Dict.get (robots s) id = Some info ->
     info_robot_id info = id /\
     connection_active info = true /\
     reach_radius info = _calculate_reach_radius (brand info)) /\
  forall system_start_time,
    exists report s',
      get_collision_statistics time_time system_start_time s = (Ok report, s') /\
      active_robots report = registered_robots report.
Proof.
  intros s.
  destruct (invariant_run_calls time_time random_uniform calls)
    as ((Hnd & Hpos & Hpaths & Hreach) & Hinfo & _).
  fold s in Hnd, Hpos, Hpaths, Hreach, Hinfo.
  do 3 (split; [assumption|]). split.
  - intros id info Hget. destruct (Hinfo id info Hget). repeat split; eauto.
  - intros t0. unfold get_collision_statistics. unfold_m.
    do 2 eexists. split; [reflexivity|].
    cbn [active_robots registered_robots robots with_clock_reads].
    unfold Dict.items. rewrite filter_all; [reflexivity|].
    intros [id info] Hin. cbn [snd].
    apply (in_get _ _ _ Hnd) in Hin. now destruct (Hinfo id info Hin).
Qed.

(** X21. After any such sequence the counter of avoided collisions equals
    the number of events in the log, and every logged event names two
    distinct robots that are registered. *)
Theorem X21_event_log_consistent time_time random_uniform calls :
  let s := fst (run_calls time_time random_uniform calls) in
  total_collisions_avoided (stats s)
    = Z.of_nat (List.length (collision_events s)) /\
  forall e, In e (collision_events s) ->
    registered s (robot1_id e) /\ registered s (robot2_id e) /\
    robot1_id e <> robot2_id e.
Proof.
  intros s.
  destruct (invariant_run_calls time_time random_uniform calls)
    as (_ & _ & Htotal & Hevents & _).
  split; [exact Htotal | exact Hevents].
Qed.

(** X22. After any such sequence every stored path belongs to the robot it
    is stored under, is active, has a total duration of 2 seconds and
    carries that robot's current priority.  Its times from start are the
    generated times 0, 2/9, ..., 2 shifted by a whole number of seconds,
    hence strictly increasing, and the last one exceeds the first by the
    total duration. *)
Theorem X22_stored_paths_well_formed time_time random_uniform calls :
  let s := fst (run_calls time_time random_uniform calls) in
  forall id p,
    Dict.get (robot_paths s) id = Some (Some p) ->
    path_robot_id p = id /\
    is_active p = true /\
    total_duration p = 2 /\
    fst (_get_robot_priority id s) = Ok (priority p) /\
    (exists k : nat, times p = map (fun t => t + INR k) nominal_times) /\
    strictly_increasing (times p) /\
    last (times p) 0 - hd 0 (times p) = total_duration p.
Proof.
  intros s id p Hget.
  destruct (invariant_run_calls time_time random_uniform calls)
    as (_ & _ & _ & _ & Hpaths).
  destruct (Hpaths id p Hget) as (H1 & H2 & H3 & (k & H4) & info & H5 & H6).
  do 3 (split; [assumption|]).
  split; [fold s in H5; rewrite (get_robot_priority_run _ _ _ H5); now rewrite H6|].
  split; [eauto|]. rewrite H4, H3. split.
  - apply strictly_increasing_shift. apply nominal_times_increasing.
  - unfold nominal_times. simpl. lra.
Qed.

Lemma demo_history_state :
  fst (run_calls demo_clock demo_uniform demo_history)
  = exec (path_planning_tick demo_clock ["ABB_01"]) demo_system.
Proof.
  unfold run_calls, demo_history. cbn [fold_left]. unfold step. cbn [fst].
  unfold demo_system. reflexivity.
Qed.

Lemma demo_history_path :
  exists p,
    Dict.get (robot_paths (fst (run_calls demo_clock demo_uniform demo_history)))
      "ABB_01" = Some (Some p).
Proof.
  rewrite demo_history_state. unfold exec at 1.
  destruct (planning_tick_replans demo_clock demo_system "ABB_01" []
              registry_ok_demo_system
              (demo_ids_registered "ABB_01" (or_intror (or_introl eq_refl))))
    as (s' & p & Hrun & Hget & _).
  rewrite Hrun. exists p. exact Hget.
Qed.

Lemma X22_stored_paths_well_formed_witness :
  exists p,
    Dict.get (robot_paths (fst (run_calls demo_clock demo_uniform demo_history)))
      "ABB_01" = Some (Some p) /\
    path_robot_id p = "ABB_01" /\
    total_duration p = 2 /\
    strictly_increasing (times p).
Proof.
  destruct demo_history_path as (p & Hget).
  destruct (X22_stored_paths_well_formed demo_clock demo_uniform demo_history
              "ABB_01" p Hget) as (Hid & _ & Hdur & _ & _ & Hinc & _).
  exists p. repeat split; assumption.
Defined.

(** ** The optimiser on two conflicting paths *)

Lemma optimize_two_conflicting s id1 id2 p q info1 info2 :
  robot_paths s = [(id1, Some p); (id2, Some q)] ->
  id1 <> id2 ->
  is_active p = true -> is_active q = true ->
  _check_path_intersection p q = true ->
  Dict.get (robots s) id1 = Some info1 ->
  Dict.get (robots s) id2 = Some info2 ->
  (brand_priority (brand info1) > brand_priority (brand info2))%Z ->
  _optimize_active_paths s =
  (Ok tt, with_robot_paths s
            (Dict.set (robot_paths s) id2 (Some (delay_path 1 q)))).
Proof.
  intros Hpaths Hne Hp Hq Hint Hi1 Hi2 Hprio.
  assert (G1 : Dict.get (robot_paths s) id1 = Some (Some p)).
  { rewrite Hpaths. cbn [Dict.get]. now rewrite String.eqb_refl. }
  assert (G2 : Dict.get (robot_paths s) id2 = Some (Some q)).
  { rewrite Hpaths. cbn [Dict.get].
    destruct (String.eqb_spec id2 id1) as [E|_]; [congruence|].
    now rewrite String.eqb_refl. }
  unfold _optimize_active_paths. unfold bind at 1. unfold gets.
  assert (Hact : filter (fun e => is_entry_active (snd e))
                    (Dict.items (robot_paths s))
                 = [(id1, Some p); (id2, Some q)]).
  { rewrite Hpaths. cbn [Dict.items filter snd is_entry_active].
    now rewrite Hp, Hq. }
  cbv beta. rewrite Hact. cbn [List.length Nat.ltb Nat.leb map fst].
  unfold _coordinate_path_timing. cbn [for_pairs for_each].
  unfold bind at 1. unfold bind at 1. unfold bind at 1.
  rewrite (active_path_run _ _ _ G1).
  unfold bind at 1. rewrite (active_path_run _ _ _ G2).
  rewrite Hint.
  rewrite (adjust_path_timing_run s id1 id2 true info1 info2 q Hi1 Hi2).
  - apply Z.gtb_gt in Hprio. rewrite Hprio. unfold_m. reflexivity.
  - apply Z.gtb_gt in Hprio. rewrite Hprio. exact G2.
Qed.
Lemma generated_first_point time_time robot_id s pos info :
  Dict.get (robot_positions s) robot_id = Some pos ->
  Dict.get (robots s) robot_id = Some info ->
  exists path s' a rest,
    _generate_safe_path time_time robot_id s = (Ok path, s') /\
    is_active path = true /\
    points path = a :: rest /\
    x (position a) = x pos + INR 0 / 9 * 100 /\
    y (position a) = y pos + INR 0 / 9 * 100 /\
    z (position a) = z pos /\
    time_from_start a = INR 0 / 9 * 2.
Proof.
  intros Hpos Hinfo.
  destruct (generate_safe_path_run time_time robot_id s pos info Hpos Hinfo)
    as (path & s' & Hgen & _ & _ & _ & Htimes & _ & _ & Hact & _).
  destruct (generate_safe_path_geometry time_time robot_id s pos info Hpos Hinfo)
    as (path' & s'' & Hgen' & Hgeo & _).
  rewrite Hgen in Hgen'. injection Hgen' as <- <-.
  unfold times, nominal_times in Htimes.
  destruct (points path) as [|a rest] eqn:Hpts; [discriminate|].
  cbn [map seq] in Htimes, Hgeo.
  injection Htimes as Ht _. injection Hgeo as Hx Hy Hz _.
  exists path, s', a, rest. repeat split; assumption.
Qed.

Lemma planned_system_paths :
  exists p q,
    robot_paths planned_system = [("YASKAWA_01", Some p); ("ABB_01", Some q)] /\
    robots planned_system = robots demo_system /\
    is_active p = true /\ is_active q = true /\
    _check_path_intersection p q = true.
Proof.
  set (posY := mkRobotPosition 0 0 0 0 0 0 (demo_clock 1)).
  set (posA := mkRobotPosition 0 0 0 0 0 0 (demo_clock 3)).
  set (infoY := mkRobotInfo "YASKAWA_01" YASKAWA "192.168.1.110"
                  (-2000, -2000, 2000, 2000) IDLE (demo_clock 0) true 1500).
  set (infoA := mkRobotInfo "ABB_01" ABB "192.168.1.120"
                  (1000, -2000, 4000, 2000) IDLE (demo_clock 2) true 1600).
  assert (HposA : Dict.get (robot_positions demo_system) "ABB_01" = Some posA)
    by reflexivity.
  assert (HposY : Dict.get (robot_positions demo_system) "YASKAWA_01" = Some posY)
    by reflexivity.
  assert (HinfoA : Dict.get (robots demo_system) "ABB_01" = Some infoA)
    by reflexivity.
  assert (HinfoY : Dict.get (robots demo_system) "YASKAWA_01" = Some infoY)
    by reflexivity.
  assert (Hpaths0 : robot_paths demo_system
                    = [("YASKAWA_01", None); ("ABB_01", None)]) by reflexivity.
  unfold planned_system, replanned_system, exec.
  destruct (generated_first_point demo_clock "ABB_01" demo_system posA infoA
              HposA HinfoA)
    as (q & s1 & b & qs & Hgen1 & Hq & Hqs & Hbx & Hby & Hbz & Hbt).
  destruct (replan_robot_path_run demo_clock "ABB_01" demo_system posA infoA
              HposA HinfoA)
    as (q' & s1' & sA & Hgen1' & Hrun1 & Hrob1 & Hpos1 & Hpaths1 & _).
  rewrite Hgen1 in Hgen1'. injection Hgen1' as <- <-.
  rewrite Hrun1. cbn [snd].
  rewrite <- Hpos1 in HposY. rewrite <- Hrob1 in HinfoY.
  destruct (generated_first_point demo_clock "YASKAWA_01" sA posY infoY
              HposY HinfoY)
    as (p & s2 & a & ps & Hgen2 & Hp & Hps & Hax & Hay & Haz & Hat).
  destruct (replan_robot_path_run demo_clock "YASKAWA_01" sA posY infoY
              HposY HinfoY)
    as (p' & s2' & sB & Hgen2' & Hrun2 & Hrob2 & _ & Hpaths2 & _).
  rewrite Hgen2 in Hgen2'. injection Hgen2' as <- <-.
  rewrite Hrun2. cbn [snd].
  exists p, q.
  split; [|split; [congruence|split; [assumption|split; [assumption|]]]].
  - rewrite Hpaths2, Hpaths1, Hpaths0. reflexivity.
  - apply check_path_intersection_spec. exists a, b.
    rewrite Hps, Hqs. split; [now left|]. split; [now left|].
    cbn [x y z posY posA] in Hax, Hay, Haz, Hbx, Hby, Hbz.
    rewrite distance_between_coincident by congruence.
    rewrite Hat, Hbt. unfold safety_margin.
    replace (INR 0 / 9 * 2 - INR 0 / 9 * 2) with 0 by ring.
    rewrite Rabs_R0. lra.
Qed.

Lemma invariant_replan_exec time_time robot_id s :
  system_invariant s ->
  system_invariant (exec (_replan_robot_path time_time robot_id) s).
Proof.
  intros H. pose proof (invariant_replan time_time robot_id s H) as H'.
  unfold exec.
  destruct (_replan_robot_path time_time robot_id s) as [[u|e] s'];
    cbn [snd]; [assumption | now subst].
Qed.

Lemma registry_ok_planned_system : registry_ok planned_system.
Proof.
  assert (H : system_invariant planned_system); [|exact (proj1 H)].
  unfold planned_system, replanned_system. do 2 apply invariant_replan_exec.
  unfold demo_system. do 2 apply invariant_register. apply invariant_init.
Qed.

Lemma robots_demo_system :
  robots demo_system =
  [("YASKAWA_01",
    mkRobotInfo "YASKAWA_01" YASKAWA "192.168.1.110"
      (-2000, -2000, 2000, 2000) IDLE (demo_clock 0) true 1500);
   ("ABB_01",
    mkRobotInfo "ABB_01" ABB "192.168.1.120"
      (1000, -2000, 4000, 2000) IDLE (demo_clock 2) true 1600)].
Proof. reflexivity. Qed.

Lemma planned_system_optimized :
  exists p q,
    Dict.get (robot_paths planned_system) "YASKAWA_01" = Some (Some p) /\
    Dict.get (robot_paths planned_system) "ABB_01" = Some (Some q) /\
    _optimize_active_paths planned_system =
    (Ok tt, with_robot_paths planned_system
              (Dict.set (robot_paths planned_system) "ABB_01"
                        (Some (delay_path 1 q)))).
Proof.
  destruct planned_system_paths as (p & q & Hpaths & Hrob & Hp & Hq & Hint).
  exists p, q.
  split; [rewrite Hpaths; reflexivity|].
  split; [rewrite Hpaths; reflexivity|].
  eapply (optimize_two_conflicting planned_system "YASKAWA_01" "ABB_01" p q);
    [ exact Hpaths | discriminate | assumption | assumption | assumption
    | rewrite Hrob, robots_demo_system; reflexivity
    | rewrite Hrob, robots_demo_system; reflexivity | reflexivity ].
Qed.

Lemma X14_optimize_only_delays_witness :
  exists p q s',
    Dict.get (robot_paths planned_system) "YASKAWA_01" = Some (Some p) /\
    Dict.get (robot_paths planned_system) "ABB_01" = Some (Some q) /\
    _optimize_active_paths planned_system = (Ok tt, s') /\
    Dict.get (robot_paths s') "YASKAWA_01" = Some (Some p) /\
    Dict.get (robot_paths s') "ABB_01" = Some (Some (delay_path 1 q)).
Proof.
  destruct (X14_optimize_only_delays planned_system registry_ok_planned_system)
    as (s' & Hrun & _ & _ & _ & Hdom & _).
  destruct planned_system_optimized as (p & q & Gp & Gq & Hopt).
  destruct planned_system_paths as (_ & _ & _ & Hrob & _).
  rewrite robots_demo_system in Hrob.
  exists p, q, s'. do 3 (split; [assumption|]). split.
  - rewrite <- Gp.
    apply (Hdom "YASKAWA_01"
             (mkRobotInfo "YASKAWA_01" YASKAWA "192.168.1.110"
                (-2000, -2000, 2000, 2000) IDLE (demo_clock 0) true 1500)).
    + rewrite Hrob. reflexivity.
    + intros other info' q0 Hne _ Hinfo. rewrite Hrob in Hinfo.
      cbn [Dict.get] in Hinfo.
      destruct (String.eqb_spec other "YASKAWA_01") as [E|_]; [congruence|].
      destruct (String.eqb_spec other "ABB_01") as [_|_]; [|discriminate].
      apply (f_equal (option_map brand)) in Hinfo. cbn in Hinfo.
      injection Hinfo as <-. reflexivity.
  - rewrite Hopt in Hrun. apply (f_equal snd) in Hrun. cbn [snd] in Hrun.
    rewrite <- Hrun. cbn [robot_paths with_robot_paths].
    apply get_set_same.
Defined.
